(** * Additive sparse boosting regressor: shallow embedding of [asboostreg.py]

    The development follows the layout of the Python module.  Floating point
    numbers are idealised as rationals ([Q]): rounding, infinities and NaN are
    outside the model.  Python exceptions are values of [exception], and every
    operation that can raise returns a [result]. *)

From Stdlib Require Import QArith Qabs Lia Lqa Sorted.
From stdpp Require Import base option list strings pretty.

Set Default Proof Using "Type".
#[local] Set Warnings "-clear-no-such-hyp".

(** ** Exceptions *)

Inductive exception : Type :=
| NotFittedError
| IndexError
| ValueError.

Inductive result (A : Type) : Type :=
| Ok (a : A)
| Raise (e : exception).
Arguments Ok {A} a.
Arguments Raise {A} e.

#[global] Instance result_ret : MRet result := fun _ a => Ok a.
#[global] Instance result_bind : MBind result := fun _ _ f r =>
  match r with
  | Ok a => f a
  | Raise e => Raise e
  end.

(** [l[i]] for a Python list or a one-dimensional array. *)
Definition getitem {A} (l : list A) (i : nat) : result A :=
  match l !! i with
  | Some a => Ok a
  | None => Raise IndexError
  end.

(** [l[i] = x]; Python raises outside the range, stdpp's insert does not. *)
Definition setitem {A} (l : list A) (i : nat) (x : A) : result (list A) :=
  if decide (i < length l) then Ok (<[i:=x]> l) else Raise IndexError.

(** ** The fragment of numpy used by the module *)

Module np.

Abbreviation vector := (list Q).

(** [x < y] on floats. *)
Definition ltb (x y : Q) : bool := negb (Qle_bool y x).

(** A two-dimensional array: its column count is kept explicitly, since it
    is not recoverable from an array without rows. *)
Record matrix : Type := Matrix { ncols : nat; rows : list vector }.

Definition nrows (M : matrix) : nat := length (rows M).
Definition shape (M : matrix) : nat * nat := (nrows M, ncols M).

(** Arrays are rectangular. *)
Definition wf (M : matrix) : Prop :=
  Forall (fun r => length r = ncols M) (rows M).

Definition zeros (n : nat) : vector := replicate n 0%Q.
Definition zeros2 (r c : nat) : matrix := Matrix c (replicate r (zeros c)).

(** [np.empty]: the content is whatever the memory holds, given here by
    [garbage]. *)
Definition empty {A} (garbage : nat -> A) (n : nat) : list A :=
  garbage <$> seq 0 n.

Definition entry (M : matrix) (i j : nat) : Q :=
  default 0%Q (r ← rows M !! i; r !! j).

(** [M[:, j]] *)
Definition column (M : matrix) (j : nat) : result vector :=
  if decide (j < ncols M)
  then Ok ((fun r => default 0%Q (r !! j)) <$> rows M)
  else Raise IndexError.

(** [M[0]] *)
Definition row0 (M : matrix) : result vector := getitem (rows M) 0.

Definition sum (v : vector) : Q := foldr Qplus 0%Q v.

(** [v.mean()]; numpy gives NaN for an empty array, division by zero gives
    [0] here. *)
Definition mean (v : vector) : Q := (sum v / inject_Z (Z.of_nat (length v)))%Q.

Definition square (v : vector) : vector := (fun x => x * x)%Q <$> v.

(** [y - c] for a scalar [c]. *)
Definition sub_scalar (v : vector) (c : Q) : vector := (fun x => x - c)%Q <$> v.

(** [y -= p] with numpy's broadcasting of a one-element right operand. *)
Definition isub (y p : vector) : result vector :=
  if decide (length p = length y) then Ok (zip_with Qminus y p)
  else match p with
       | [c] => Ok (sub_scalar y c)
       | _ => Raise ValueError
       end.

(** [np.argmax]: the first index holding the maximum. *)
Fixpoint argmax_from (best : nat) (bestv : Q) (i : nat) (v : vector) : nat :=
  match v with
  | [] => best
  | x :: v' =>
      if ltb bestv x
      then argmax_from i x (S i) v'
      else argmax_from best bestv (S i) v'
  end.

Definition argmax (v : vector) : result nat :=
  match v with
  | [] => Raise ValueError
  | x :: v' => Ok (argmax_from 0 x 1 v')
  end.

(** [np.diff] *)
Fixpoint diff (v : vector) : vector :=
  match v with
  | x :: (y :: _) as v' => (y - x)%Q :: diff v'
  | _ => []
  end.

(** [np.all(v >= 0.0)] *)
Definition all_ge0 (v : vector) : bool :=
  forallb (Qle_bool 0) v.

(** [a[lo:hi]] *)
Definition slice {A} (l : list A) (lo hi : nat) : list A :=
  take (hi - lo) (drop lo l).

(** [a[index]] for an integer index array. *)
Definition take_index (a : vector) (index : list nat) : result vector :=
  mapM (getitem a) index.

(** [a[mask]] for a boolean mask, which must be as long as [a]. *)
Definition take_mask (a : vector) (mask : list bool) : result vector :=
  if decide (length mask = length a)
  then Ok (fst <$> filter (fun xb => snd xb = true) (zip a mask))
  else Raise IndexError.

(** [np.argsort]: indices that sort [v] ascending.  numpy's default sort
    is not stable; equal keys are ordered here by insertion. *)
Fixpoint insert_sorted (v : vector) (i : nat) (sorted : list nat) : list nat :=
  match sorted with
  | [] => [i]
  | j :: rest =>
      if ltb (default 0%Q (v !! i)) (default 0%Q (v !! j))
      then i :: sorted
      else j :: insert_sorted v i rest
  end.

Definition argsort (v : vector) : list nat :=
  foldl (fun acc i => insert_sorted v i acc) [] (seq 0 (length v)).

(** [np.multiply(A, B, out=...)] on arrays of one shape. *)
Definition multiply (A B : matrix) : result matrix :=
  if decide (shape A = shape B)
  then Ok (Matrix (ncols A) (zip_with (zip_with Qmult) (rows A) (rows B)))
  else Raise ValueError.

(** [np.sum(P, axis=1, out=buffer)]: the buffer must have one cell per row. *)
Definition sum_axis1 (P : matrix) (buffer : vector) : result vector :=
  if decide (length buffer = nrows P)
  then Ok (sum <$> rows P)
  else Raise ValueError.

(** [v /= c] *)
Definition idiv (v : vector) (c : Q) : vector := (fun x => x / c)%Q <$> v.

(** The value of [np.sum(list_of_vectors, axis=0)]: a scalar when the list
    is empty, otherwise the elementwise sum. *)
Inductive array : Type :=
| Scalar (c : Q)
| Vector (v : vector).

Definition sum_axis0 (vs : list vector) : result array :=
  match vs with
  | [] => Ok (Scalar 0)
  | v :: vs' =>
      if forallb (fun w => bool_decide (length w = length v)) vs'
      then Ok (Vector (foldl (zip_with Qplus) (zeros (length v)) vs))
      else Raise ValueError
  end.

(** [c + a] *)
Definition add_scalar (c : Q) (a : array) : array :=
  match a with
  | Scalar x => Scalar (c + x)
  | Vector v => Vector ((fun x => c + x)%Q <$> v)
  end.

(** [np.add.at(M, (f, slice(None)), c)]: add [c] along row [f]. *)
Definition add_at_row (M : matrix) (f : nat) (c : Q) : result matrix :=
  if decide (f < nrows M)
  then Ok (Matrix (ncols M) (alter (fmap (fun x => x + c)%Q) f (rows M)))
  else Raise IndexError.

(** [np.add.at(M, (slice(None), f), c)]: add [c] along column [f]. *)
Definition add_at_column (M : matrix) (f : nat) (c : Q) : result matrix :=
  if decide (f < ncols M)
  then Ok (Matrix (ncols M) (alter (fun x => x + c)%Q f <$> rows M))
  else Raise IndexError.

(** [M[i, j] = c] *)
Definition setitem2 (M : matrix) (i j : nat) (c : Q) : result matrix :=
  if decide (i < nrows M /\ j < ncols M)
  then Ok (Matrix (ncols M) (alter (fun r => <[j:=c]> r) i (rows M)))
  else Raise IndexError.

(** [np.array(columns).T] for [k] vectors of length [r]. *)
Definition transpose (r : nat) (cols : list vector) : list vector :=
  (fun i => (fun c => default 0%Q (c !! i)) <$> cols) <$> seq 0 r.

(** [a + b] on arrays of strings (elementwise concatenation, a one-element
    operand is broadcast).  This is the behaviour of numpy 2 on [str]
    arrays and of every numpy on [object] arrays such as DataFrame column
    labels; numpy 1 raises already here on [str] arrays. *)
Definition add_strings (a b : list string) : result (list string) :=
  if decide (length a = length b) then Ok (zip_with String.append a b)
  else match a, b with
       | [x], _ => Ok (String.append x <$> b)
       | _, [y] => Ok ((fun x => String.append x y) <$> a)
       | _, _ => Raise ValueError
       end.

End np.

(** ** Inputs *)

(** [Data]: a pandas DataFrame carries column labels, a plain array does not. *)
Record Data : Type := { columns : option (list string); values : np.matrix }.

(** [Target]: a pandas Series carries an optional name. *)
Inductive Target : Type :=
| Series (name : option string) (y : np.vector)
| Array (y : np.vector).

Definition target_values (y : Target) : np.vector :=
  match y with
  | Series _ v => v
  | Array v => v
  end.

(** Hyper-parameters handed to each [ListTreeRegressor]. *)
Record tree_parameters : Type := {
  tree_max_depth : nat;
  tree_min_samples_leaf : nat;
  tree_min_samples_split : nat;
  tree_l2_regularization : Q;
  tree_learning_rate : Q;
}.

(** ** Constructor arguments

    The keyword arguments of the attrs-generated constructor.  Integers are
    Python integers; the validators below reject the ones out of range. *)
Module Args.
Record t : Type := {
  n_estimators : Z;
  learning_rate : Q;
  random_state : option Z;
  row_subsample : Q;
  validation_fraction : Q;
  n_iter_no_change : Z;
  fill_value : Q;
  max_bins : Z;
  max_depth : Z;
  l2_regularization : Q;
  min_samples_split : Z;
  min_samples_leaf : Z;
  relevancy_scorer : np.matrix -> np.vector -> np.vector;
  redundancy_matrix : np.matrix -> np.matrix;
  mrmr_scheme : np.vector -> np.array -> np.vector;
  categorical_features : list nat;
  feature_names_in_ : option (list string);
  output_name : option string;
}.

(** The [attrs.validators] of the fields. *)
Definition validators (a : t) : bool :=
  (1 <=? n_estimators a)%Z
  && np.ltb 0 (learning_rate a) && Qle_bool (learning_rate a) 1
  && np.ltb 0 (row_subsample a) && Qle_bool (row_subsample a) 1
  && np.ltb 0 (validation_fraction a) && Qle_bool (validation_fraction a) 1
  && (1 <=? n_iter_no_change a)%Z
  && (0 <? max_bins a)%Z
  && (1 <=? max_depth a)%Z
  && np.ltb 0 (l2_regularization a)
  && (2 <=? min_samples_split a)%Z
  && (1 <=? min_samples_leaf a)%Z.
End Args.

(** ** Collaborators

    The imported helpers ([model_helpers], scikit-learn's [train_test_split],
    numpy's generator, square root and uninitialised memory) are parameters
    of the development. *)

Class Collaborators : Type := {
  (** [ListTreeRegressor]: a fitted one-feature weak learner. *)
  tree : Type;
  tree_fit : tree_parameters -> np.vector -> np.vector -> tree;
  tree_predict : tree -> Q -> Q;
  (** [TreePreprocessor] *)
  preprocessor : Type;
  TreePreprocessor : list nat -> Q -> nat -> option Z -> preprocessor;
  fit_transform : preprocessor -> Data -> np.vector -> preprocessor * np.matrix;
  transform : preprocessor -> Data -> np.matrix;
  (** [sklearn.model_selection.train_test_split] *)
  train_test_split : Data -> Target -> Q -> option Z -> Data * Data * Target * Target;
  (** [np.random.Generator] *)
  generator : Type;
  default_rng : option Z -> generator;
  random : generator -> nat -> np.vector * generator;
  (** [np.sqrt] *)
  sqrt : Q -> Q;
  (** what [np.empty] finds in memory *)
  uninitialised_int : nat -> nat;
  uninitialised_float : nat -> Q;
}.

Section Regressor.

Context `{Collaborators}.

(** ** Composite feature functions *)

(** Modelled from the spec: [model_helpers.od_tree.sum_tree_regressors] and
    the methods [predict], [fix_bias] and [is_selected] of its result are not
    among the sources.  The composite of a feature is the sum of the feature's
    weak learners, selected iff that list is not empty; [fix_bias] recentres
    it to zero mean on the given values and returns the mean removed. *)
Record composite : Type := Composite {
  learners : list tree;
  removed_mean : Q;
  feature_name : string;
  composite_output : option string;
}.

Definition sum_tree_regressors (estimators : list tree) (name : string)
    (output : option string) : composite :=
  Composite estimators 0 name output.

Definition is_selected (c : composite) : bool :=
  match learners c with
  | [] => false
  | _ :: _ => true
  end.

Definition composite_at (c : composite) (x : Q) : Q :=
  (np.sum ((fun t => tree_predict t x) <$> learners c) - removed_mean c)%Q.

Definition composite_predict (c : composite) (xs : np.vector) : np.vector :=
  composite_at c <$> xs.

Definition fix_bias (c : composite) (xs : np.vector) : composite * Q :=
  let mu := np.mean (composite_predict c xs) in
  (Composite (learners c) (removed_mean c + mu) (feature_name c) (composite_output c), mu).

(** [ListTreeRegressor.predict] on a vector. *)
Definition predict_tree (t : tree) (xs : np.vector) : np.vector :=
  tree_predict t <$> xs.

(** ** The estimator object

    One field per attribute of the attrs class, in the order of the source.
    Attributes declared with [init=False] and no default do not exist before
    [fit] assigns them; they are given placeholder values at construction,
    which nothing reads before the assignment. *)
#[projections(primitive)]
Record SparseAdditiveBoostingRegressor : Type := Self {
  (* Boosting hyper-parameters *)
  n_estimators : nat;
  learning_rate : Q;
  random_state : option Z;
  row_subsample : Q;
  (* Validation hyper-parameters *)
  validation_fraction : Q;
  n_iter_no_change : nat;
  (* Preprocessor hyper-parameters *)
  fill_value : Q;
  max_bins : nat;
  (* Tree hyper-parameters *)
  max_depth : nat;
  l2_regularization : Q;
  min_samples_split : nat;
  min_samples_leaf : nat;
  (* Functions for scoring and selecting features *)
  relevancy_scorer : np.matrix -> np.vector -> np.vector;
  redundancy_matrix : np.matrix -> np.matrix;
  mrmr_scheme : np.vector -> np.array -> np.vector;
  (* Optional information arguments *)
  categorical_features : list nat;
  feature_names_in_ : option (list string);
  output_name : option string;
  (* Parameters learnt after fitting *)
  preprocessor_ : preprocessor;
  regressors_ : list composite;
  intercept_ : Q;
  selection_history_ : list nat;
  score_history_ : list (Q * Q);
  selection_count_ : list (string * nat);
  (* Private attributes *)
  _selected_count_matrix : np.matrix;
  _regressors : list (list tree);
  _random_generator : generator;
  _n : nat;
  _m : nat;
  _is_fitted : bool;
  _indexing_cache : list (option (list nat));
}.

Abbreviation self := SparseAdditiveBoostingRegressor.

(** Attribute assignment, [self.field = v]. *)
Definition set_n_estimators (v : nat) (s : self) : self :=
  Self v (learning_rate s) (random_state s) (row_subsample s)
    (validation_fraction s) (n_iter_no_change s) (fill_value s) (max_bins s)
    (max_depth s) (l2_regularization s) (min_samples_split s)
    (min_samples_leaf s) (relevancy_scorer s) (redundancy_matrix s)
    (mrmr_scheme s) (categorical_features s) (feature_names_in_ s)
    (output_name s) (preprocessor_ s) (regressors_ s) (intercept_ s)
    (selection_history_ s) (score_history_ s) (selection_count_ s)
    (_selected_count_matrix s) (_regressors s) (_random_generator s) (_n s)
    (_m s) (_is_fitted s) (_indexing_cache s).
Definition set_feature_names_in_ (v : option (list string)) (s : self) : self :=
  Self (n_estimators s) (learning_rate s) (random_state s) (row_subsample s)
    (validation_fraction s) (n_iter_no_change s) (fill_value s) (max_bins s)
    (max_depth s) (l2_regularization s) (min_samples_split s)
    (min_samples_leaf s) (relevancy_scorer s) (redundancy_matrix s)
    (mrmr_scheme s) (categorical_features s) v (output_name s) (preprocessor_
    s) (regressors_ s) (intercept_ s) (selection_history_ s) (score_history_
    s) (selection_count_ s) (_selected_count_matrix s) (_regressors s)
    (_random_generator s) (_n s) (_m s) (_is_fitted s) (_indexing_cache s).
Definition set_output_name (v : option string) (s : self) : self :=
  Self (n_estimators s) (learning_rate s) (random_state s) (row_subsample s)
    (validation_fraction s) (n_iter_no_change s) (fill_value s) (max_bins s)
    (max_depth s) (l2_regularization s) (min_samples_split s)
    (min_samples_leaf s) (relevancy_scorer s) (redundancy_matrix s)
    (mrmr_scheme s) (categorical_features s) (feature_names_in_ s) v
    (preprocessor_ s) (regressors_ s) (intercept_ s) (selection_history_ s)
    (score_history_ s) (selection_count_ s) (_selected_count_matrix s)
    (_regressors s) (_random_generator s) (_n s) (_m s) (_is_fitted s)
    (_indexing_cache s).
Definition set_preprocessor_ (v : preprocessor) (s : self) : self :=
  Self (n_estimators s) (learning_rate s) (random_state s) (row_subsample s)
    (validation_fraction s) (n_iter_no_change s) (fill_value s) (max_bins s)
    (max_depth s) (l2_regularization s) (min_samples_split s)
    (min_samples_leaf s) (relevancy_scorer s) (redundancy_matrix s)
    (mrmr_scheme s) (categorical_features s) (feature_names_in_ s)
    (output_name s) v (regressors_ s) (intercept_ s) (selection_history_ s)
    (score_history_ s) (selection_count_ s) (_selected_count_matrix s)
    (_regressors s) (_random_generator s) (_n s) (_m s) (_is_fitted s)
    (_indexing_cache s).
Definition set_regressors_ (v : list composite) (s : self) : self :=
  Self (n_estimators s) (learning_rate s) (random_state s) (row_subsample s)
    (validation_fraction s) (n_iter_no_change s) (fill_value s) (max_bins s)
    (max_depth s) (l2_regularization s) (min_samples_split s)
    (min_samples_leaf s) (relevancy_scorer s) (redundancy_matrix s)
    (mrmr_scheme s) (categorical_features s) (feature_names_in_ s)
    (output_name s) (preprocessor_ s) v (intercept_ s) (selection_history_ s)
    (score_history_ s) (selection_count_ s) (_selected_count_matrix s)
    (_regressors s) (_random_generator s) (_n s) (_m s) (_is_fitted s)
    (_indexing_cache s).
Definition set_intercept_ (v : Q) (s : self) : self :=
  Self (n_estimators s) (learning_rate s) (random_state s) (row_subsample s)
    (validation_fraction s) (n_iter_no_change s) (fill_value s) (max_bins s)
    (max_depth s) (l2_regularization s) (min_samples_split s)
    (min_samples_leaf s) (relevancy_scorer s) (redundancy_matrix s)
    (mrmr_scheme s) (categorical_features s) (feature_names_in_ s)
    (output_name s) (preprocessor_ s) (regressors_ s) v (selection_history_ s)
    (score_history_ s) (selection_count_ s) (_selected_count_matrix s)
    (_regressors s) (_random_generator s) (_n s) (_m s) (_is_fitted s)
    (_indexing_cache s).
Definition set_selection_history_ (v : list nat) (s : self) : self :=
  Self (n_estimators s) (learning_rate s) (random_state s) (row_subsample s)
    (validation_fraction s) (n_iter_no_change s) (fill_value s) (max_bins s)
    (max_depth s) (l2_regularization s) (min_samples_split s)
    (min_samples_leaf s) (relevancy_scorer s) (redundancy_matrix s)
    (mrmr_scheme s) (categorical_features s) (feature_names_in_ s)
    (output_name s) (preprocessor_ s) (regressors_ s) (intercept_ s) v
    (score_history_ s) (selection_count_ s) (_selected_count_matrix s)
    (_regressors s) (_random_generator s) (_n s) (_m s) (_is_fitted s)
    (_indexing_cache s).
Definition set_score_history_ (v : list (Q * Q)) (s : self) : self :=
  Self (n_estimators s) (learning_rate s) (random_state s) (row_subsample s)
    (validation_fraction s) (n_iter_no_change s) (fill_value s) (max_bins s)
    (max_depth s) (l2_regularization s) (min_samples_split s)
    (min_samples_leaf s) (relevancy_scorer s) (redundancy_matrix s)
    (mrmr_scheme s) (categorical_features s) (feature_names_in_ s)
    (output_name s) (preprocessor_ s) (regressors_ s) (intercept_ s)
    (selection_history_ s) v (selection_count_ s) (_selected_count_matrix s)
    (_regressors s) (_random_generator s) (_n s) (_m s) (_is_fitted s)
    (_indexing_cache s).
Definition set_selection_count_ (v : list (string * nat)) (s : self) : self :=
  Self (n_estimators s) (learning_rate s) (random_state s) (row_subsample s)
    (validation_fraction s) (n_iter_no_change s) (fill_value s) (max_bins s)
    (max_depth s) (l2_regularization s) (min_samples_split s)
    (min_samples_leaf s) (relevancy_scorer s) (redundancy_matrix s)
    (mrmr_scheme s) (categorical_features s) (feature_names_in_ s)
    (output_name s) (preprocessor_ s) (regressors_ s) (intercept_ s)
    (selection_history_ s) (score_history_ s) v (_selected_count_matrix s)
    (_regressors s) (_random_generator s) (_n s) (_m s) (_is_fitted s)
    (_indexing_cache s).
Definition set__selected_count_matrix (v : np.matrix) (s : self) : self :=
  Self (n_estimators s) (learning_rate s) (random_state s) (row_subsample s)
    (validation_fraction s) (n_iter_no_change s) (fill_value s) (max_bins s)
    (max_depth s) (l2_regularization s) (min_samples_split s)
    (min_samples_leaf s) (relevancy_scorer s) (redundancy_matrix s)
    (mrmr_scheme s) (categorical_features s) (feature_names_in_ s)
    (output_name s) (preprocessor_ s) (regressors_ s) (intercept_ s)
    (selection_history_ s) (score_history_ s) (selection_count_ s) v
    (_regressors s) (_random_generator s) (_n s) (_m s) (_is_fitted s)
    (_indexing_cache s).
Definition set__regressors (v : list (list tree)) (s : self) : self :=
  Self (n_estimators s) (learning_rate s) (random_state s) (row_subsample s)
    (validation_fraction s) (n_iter_no_change s) (fill_value s) (max_bins s)
    (max_depth s) (l2_regularization s) (min_samples_split s)
    (min_samples_leaf s) (relevancy_scorer s) (redundancy_matrix s)
    (mrmr_scheme s) (categorical_features s) (feature_names_in_ s)
    (output_name s) (preprocessor_ s) (regressors_ s) (intercept_ s)
    (selection_history_ s) (score_history_ s) (selection_count_ s)
    (_selected_count_matrix s) v (_random_generator s) (_n s) (_m s)
    (_is_fitted s) (_indexing_cache s).
Definition set__random_generator (v : generator) (s : self) : self :=
  Self (n_estimators s) (learning_rate s) (random_state s) (row_subsample s)
    (validation_fraction s) (n_iter_no_change s) (fill_value s) (max_bins s)
    (max_depth s) (l2_regularization s) (min_samples_split s)
    (min_samples_leaf s) (relevancy_scorer s) (redundancy_matrix s)
    (mrmr_scheme s) (categorical_features s) (feature_names_in_ s)
    (output_name s) (preprocessor_ s) (regressors_ s) (intercept_ s)
    (selection_history_ s) (score_history_ s) (selection_count_ s)
    (_selected_count_matrix s) (_regressors s) v (_n s) (_m s) (_is_fitted s)
    (_indexing_cache s).
Definition set__n (v : nat) (s : self) : self :=
  Self (n_estimators s) (learning_rate s) (random_state s) (row_subsample s)
    (validation_fraction s) (n_iter_no_change s) (fill_value s) (max_bins s)
    (max_depth s) (l2_regularization s) (min_samples_split s)
    (min_samples_leaf s) (relevancy_scorer s) (redundancy_matrix s)
    (mrmr_scheme s) (categorical_features s) (feature_names_in_ s)
    (output_name s) (preprocessor_ s) (regressors_ s) (intercept_ s)
    (selection_history_ s) (score_history_ s) (selection_count_ s)
    (_selected_count_matrix s) (_regressors s) (_random_generator s) v (_m s)
    (_is_fitted s) (_indexing_cache s).
Definition set__m (v : nat) (s : self) : self :=
  Self (n_estimators s) (learning_rate s) (random_state s) (row_subsample s)
    (validation_fraction s) (n_iter_no_change s) (fill_value s) (max_bins s)
    (max_depth s) (l2_regularization s) (min_samples_split s)
    (min_samples_leaf s) (relevancy_scorer s) (redundancy_matrix s)
    (mrmr_scheme s) (categorical_features s) (feature_names_in_ s)
    (output_name s) (preprocessor_ s) (regressors_ s) (intercept_ s)
    (selection_history_ s) (score_history_ s) (selection_count_ s)
    (_selected_count_matrix s) (_regressors s) (_random_generator s) (_n s) v
    (_is_fitted s) (_indexing_cache s).
Definition set__is_fitted (v : bool) (s : self) : self :=
  Self (n_estimators s) (learning_rate s) (random_state s) (row_subsample s)
    (validation_fraction s) (n_iter_no_change s) (fill_value s) (max_bins s)
    (max_depth s) (l2_regularization s) (min_samples_split s)
    (min_samples_leaf s) (relevancy_scorer s) (redundancy_matrix s)
    (mrmr_scheme s) (categorical_features s) (feature_names_in_ s)
    (output_name s) (preprocessor_ s) (regressors_ s) (intercept_ s)
    (selection_history_ s) (score_history_ s) (selection_count_ s)
    (_selected_count_matrix s) (_regressors s) (_random_generator s) (_n s)
    (_m s) v (_indexing_cache s).
Definition set__indexing_cache (v : list (option (list nat))) (s : self) : self :=
  Self (n_estimators s) (learning_rate s) (random_state s) (row_subsample s)
    (validation_fraction s) (n_iter_no_change s) (fill_value s) (max_bins s)
    (max_depth s) (l2_regularization s) (min_samples_split s)
    (min_samples_leaf s) (relevancy_scorer s) (redundancy_matrix s)
    (mrmr_scheme s) (categorical_features s) (feature_names_in_ s)
    (output_name s) (preprocessor_ s) (regressors_ s) (intercept_ s)
    (selection_history_ s) (score_history_ s) (selection_count_ s)
    (_selected_count_matrix s) (_regressors s) (_random_generator s) (_n s)
    (_m s) (_is_fitted s) v.

(** *** Construction *)

(** The attribute assignments of the attrs-generated [__init__].  Both
    histories are allocated with [np.empty]. *)
Definition assign (a : Args.t) : self :=
  let n := Z.to_nat (Args.n_estimators a) in
  Self n (Args.learning_rate a) (Args.random_state a) (Args.row_subsample a)
    (Args.validation_fraction a) (Z.to_nat (Args.n_iter_no_change a))
    (Args.fill_value a) (Z.to_nat (Args.max_bins a))
    (Z.to_nat (Args.max_depth a)) (Args.l2_regularization a)
    (Z.to_nat (Args.min_samples_split a)) (Z.to_nat (Args.min_samples_leaf a))
    (Args.relevancy_scorer a) (Args.redundancy_matrix a) (Args.mrmr_scheme a)
    (Args.categorical_features a) (Args.feature_names_in_ a) (Args.output_name a)
    (TreePreprocessor (Args.categorical_features a) (Args.fill_value a)
       (Z.to_nat (Args.max_bins a)) (Args.random_state a))
    [] 0
    (np.empty uninitialised_int n)
    (np.empty (fun t => (uninitialised_float (2 * t), uninitialised_float (2 * t + 1))) n)
    []
    (np.zeros2 0 0) [] (default_rng (Args.random_state a))
    0 0 false [].

(** [__init__]: the object exists only if the validators accept it. *)
Definition __init__ (a : Args.t) : result self :=
  if Args.validators a then Ok (assign a) else Raise ValueError.

(** *** [_initialize_fit_params] *)

Definition enumerate {A} (l : list A) : list (nat * A) := zip (seq 0 (length l)) l.

Definition _initialize_fit_params (X : Data) (y : Target) (s : self) : self :=
  let '(m, n) := np.shape (values X) in
  let s := set__n n (set__m m s) in
  let s :=
    match feature_names_in_ s with
    | None =>
        set_feature_names_in_
          (Some match columns X with
                | Some labels => labels
                | None => (fun i => "feature_" +:+ pretty i) <$> seq 0 n
                end) s
    | Some _ => s
    end in
  let s :=
    match output_name s with
    | None =>
        set_output_name
          match y with
          | Series name _ => name
          | Array _ => Some "output"
          end s
    | Some _ => s
    end in
  let s := set__regressors (replicate n []) s in
  let s := set__selected_count_matrix (np.zeros2 n n) s in
  set__indexing_cache (replicate n None) s.

(** *** [_get_index] *)

Definition _get_index (X : np.matrix) (feature : nat) (s : self)
    : result (list nat * self) :=
  cached ← getitem (_indexing_cache s) feature;
  match cached with
  | Some index => Ok (index, s)
  | None =>
      col ← np.column X feature;
      let index := np.argsort col in
      cache ← setitem (_indexing_cache s) feature (Some index);
      Ok (index, set__indexing_cache cache s)
  end.

(** *** [_boost]

    The residual arrays [y] and [y_val] are updated in place by the source;
    here the updated arrays are returned with the object. *)

Definition tree_parameters_of (s : self) : tree_parameters :=
  {| tree_max_depth := max_depth s;
     tree_min_samples_leaf := min_samples_leaf s;
     tree_min_samples_split := min_samples_split s;
     tree_l2_regularization := l2_regularization s;
     tree_learning_rate := learning_rate s |}.

Definition _boost (X : np.matrix) (y : np.vector) (redundancy : np.array)
    (model_count : nat) (X_val : np.matrix) (y_val : np.vector) (s : self)
    : result (self * np.vector * np.vector) :=
  (* Select the best feature *)
  let relevancy := relevancy_scorer s X y in
  let score := mrmr_scheme s relevancy redundancy in
  selected_feature ← np.argmax score;
  history ← setitem (selection_history_ s) model_count selected_feature;
  let s := set_selection_history_ history s in
  (* Update the count matrix *)
  C ← np.add_at_row (_selected_count_matrix s) selected_feature 1;
  C ← np.add_at_column C selected_feature 1;
  C ← np.setitem2 C selected_feature selected_feature 0;
  let s := set__selected_count_matrix C s in
  (* Finding the selected feature *)
  X_selected ← np.column X selected_feature;
  '(index, s) ← _get_index X selected_feature s;
  X_sorted ← np.take_index X_selected index;
  y_sorted ← np.take_index y index;
  (* Subsampling of rows *)
  let '(draws, g) := random (_random_generator s) (_m s) in
  let s := set__random_generator g s in
  let selected_rows := (fun d => Qle_bool d (row_subsample s)) <$> draws in
  (* Fit the model on the selected feature and sampled rows *)
  X_fit ← np.take_mask X_sorted selected_rows;
  y_fit ← np.take_mask y_sorted selected_rows;
  let new_model := tree_fit (tree_parameters_of s) X_fit y_fit in
  (* Update the residual *)
  y ← np.isub y (predict_tree new_model X_selected);
  (* Score the model on the validation set *)
  X_val_selected ← np.column X_val selected_feature;
  y_val ← np.isub y_val (predict_tree new_model X_val_selected);
  scores ← setitem (score_history_ s) model_count
             (np.mean (np.square y), np.mean (np.square y_val));
  let s := set_score_history_ scores s in
  (* Update the ensemble *)
  estimators ← getitem (_regressors s) selected_feature;
  regressors ← setitem (_regressors s) selected_feature (estimators ++ [new_model]);
  Ok (set__regressors regressors s, y, y_val).

(** *** [_fit] *)

(** The stopping test made after round [model_count]:
    [model_count >= n_iter_no_change] and
    [np.all(np.diff(score_history_[model_count - n_iter_no_change : model_count, 1]) >= 0.0)]. *)
Definition last_iterations (model_count : nat) (s : self) : np.vector :=
  snd <$> np.slice (score_history_ s) (model_count - n_iter_no_change s) model_count.

Definition no_improvement (model_count : nat) (s : self) : bool :=
  bool_decide (n_iter_no_change s <= model_count)
  && np.all_ge0 (np.diff (last_iterations model_count s)).

(** The redundancy vector of a round, computed into the buffers [product]
    and [redundancy] of the source. *)
Definition redundancy_of (redundancy_matrix : np.matrix) (buffer : np.vector)
    (model_count : nat) (s : self) : result np.vector :=
  product ← np.multiply redundancy_matrix (_selected_count_matrix s);
  redundancy ← np.sum_axis1 product buffer;
  Ok (np.idiv redundancy (inject_Z (Z.of_nat model_count))).

(** One iteration of the [for] loop, up to the stopping test. *)
Definition round (X : np.matrix) (redundancy_matrix : np.matrix)
    (buffer : np.vector) (X_val : np.matrix) (model_count : nat)
    (st : self * np.vector * np.vector) : result (self * np.vector * np.vector) :=
  let '(s, residual, residual_valid) := st in
  redundancy ← redundancy_of redundancy_matrix buffer model_count s;
  _boost X residual (np.Vector redundancy) model_count X_val residual_valid s.

(** [for model_count in range(1, self.n_estimators): ... break] over the
    rounds still to run.  The range is evaluated once, before the loop. *)
Fixpoint rounds (X : np.matrix) (redundancy_matrix : np.matrix)
    (buffer : np.vector) (X_val : np.matrix) (range : list nat)
    (st : self * np.vector * np.vector) : result (self * np.vector * np.vector) :=
  match range with
  | [] => Ok st
  | model_count :: range' =>
      '(s, residual, residual_valid) ←
        round X redundancy_matrix buffer X_val model_count st;
      if no_improvement model_count s
      then Ok (set_n_estimators (model_count + 1) s, residual, residual_valid)
      else rounds X redundancy_matrix buffer X_val range' (s, residual, residual_valid)
  end.

Definition _fit (X : np.matrix) (y : np.vector) (X_val : np.matrix)
    (y_val : np.vector) (s : self) : result (self * np.vector * np.vector) :=
  let s := set_intercept_ (np.mean y) s in
  let residual := np.sub_scalar y (intercept_ s) in
  let residual_valid := np.sub_scalar y_val (intercept_ s) in
  (* First round *)
  '(s, residual, residual_valid) ←
    _boost X residual (np.Scalar 0) 0 X_val residual_valid s;
  (* Initialize redundancy for the next rounds *)
  let redundancy_matrix := redundancy_matrix s X in
  buffer ← np.row0 X;
  rounds X redundancy_matrix buffer X_val (seq 1 (n_estimators s - 1))
    (s, residual, residual_valid).

(** *** [fit] *)

(** [collections.Counter], in order of first occurrence. *)
Fixpoint count_key (k : string) (c : list (string * nat)) : list (string * nat) :=
  match c with
  | [] => [(k, 1)]
  | (k', n) :: c' =>
      if decide (k = k') then (k', S n) :: c' else (k', n) :: count_key k c'
  end.

Definition Counter (keys : list string) : list (string * nat) :=
  foldl (fun c k => count_key k c) [] keys.

Definition names (s : self) : list string := default [] (feature_names_in_ s).

Definition fit (X : Data) (y : Target) (validation_set : option (Data * Target))
    (s : self) : result self :=
  let '(X, X_val, y, y_val) :=
    match validation_set with
    | None => train_test_split X y (validation_fraction s) (random_state s)
    | Some (X_val, y_val) => (X, X_val, y, y_val)
    end in
  let s := _initialize_fit_params X y s in
  (* Convert the data to numpy arrays *)
  let y_train := target_values y in
  let '(p, X_train) := fit_transform (preprocessor_ s) X y_train in
  let s := set_preprocessor_ p s in
  let X_val := transform (preprocessor_ s) X_val in
  let y_val := target_values y_val in
  (* Fit the model and correct the bias *)
  '(s, _, _) ← _fit X_train y_train X_val y_val s;
  let summed :=
    (fun en => sum_tree_regressors en.1 en.2 (output_name s))
      <$> zip (_regressors s) (names s) in
  fixed ← mapM (fun ir => col ← np.column X_train ir.1; Ok (fix_bias ir.2 col))
             (enumerate summed);
  let s := set_regressors_ (fst <$> fixed) s in
  let s := set_intercept_ (intercept_ s + np.sum (snd <$> fixed)) s in
  (* Get the history *)
  let s := set_selection_history_ (take (n_estimators s) (selection_history_ s)) s in
  let s := set_score_history_ (prod_map sqrt sqrt <$> score_history_ s) s in
  selected_names ← mapM (getitem (names s)) (selection_history_ s);
  let s := set_selection_count_ (Counter selected_names) s in
  Ok (set__is_fitted true s).

(** *** [contribution_frame] and [predict] *)

(** [pd.DataFrame(values, columns=labels)] *)
Definition DataFrame (values : np.matrix) (labels : list string) : result Data :=
  if decide (length labels = np.ncols values)
  then Ok {| columns := Some labels; values := values |}
  else Raise ValueError.

(** The array [contribution] that [contribution_frame] fills before it
    builds the frame: the intercept in column [0], then one column per
    regressor.  Broadcasting of one-element axes is not modelled. *)
Definition contribution_array (X : Data) (s : self) : result np.matrix :=
  let X_arr := transform (preprocessor_ s) X in
  predictions ← mapM (fun ir => col ← np.column X_arr ir.1;
                                Ok (composite_predict ir.2 col))
                  (enumerate (regressors_ s));
  if decide (length predictions = _n s /\ np.nrows X_arr = np.nrows (values X))
  then Ok (np.Matrix (_n s + 1)
             ((fun r => intercept_ s :: r)
                <$> np.transpose (np.nrows (values X)) predictions))
  else Raise ValueError.

Definition contribution_frame (X : Data) (s : self) : result Data :=
  if negb (_is_fitted s) then Raise NotFittedError else
  contribution ← contribution_array X s;
  labels ← np.add_strings ["intercept"] (names s);
  DataFrame contribution labels.

Definition predict (X : Data) (s : self) : result np.array :=
  if negb (_is_fitted s) then Raise NotFittedError else
  let X_arr := transform (preprocessor_ s) X in
  predictions ← mapM (fun ir => col ← np.column X_arr ir.1;
                                Ok (composite_predict ir.2 col))
                  (filter (fun ir => is_selected ir.2 = true) (enumerate (regressors_ s)));
  total ← np.sum_axis0 predictions;
  Ok (np.add_scalar (intercept_ s) total).

(** *** [plot_model_information] and [explain]

    Both check the fitted flag and then only draw figures; the drawing is
    delegated to plotly and is not modelled. *)
Definition plot_model_information (s : self) : result unit :=
  if negb (_is_fitted s) then Raise NotFittedError else Ok tt.

Definition explain (X : Data) (s : self) : result unit :=
  if negb (_is_fitted s) then Raise NotFittedError else Ok tt.

(** The list that [plot_model_information] prints after "The following
    features were not selected:", the comprehension
    [[model.feature_name for model in self.regressors_ if model.is_selected]]. *)
Definition non_selected (s : self) : list string :=
  feature_name <$> filter (fun model => is_selected model = true) (regressors_ s).

End Regressor.

Abbreviation self := SparseAdditiveBoostingRegressor.

(** ** Vocabulary of the properties *)

Section Vocabulary.

Context `{Collaborators}.

(** The hyper-parameters and scoring functions agree on two states of the
    object. *)
Definition same_hyper_parameters (s s' : self) : Prop :=
  learning_rate s' = learning_rate s
  /\ random_state s' = random_state s
  /\ row_subsample s' = row_subsample s
  /\ validation_fraction s' = validation_fraction s
  /\ n_iter_no_change s' = n_iter_no_change s
  /\ fill_value s' = fill_value s
  /\ max_bins s' = max_bins s
  /\ max_depth s' = max_depth s
  /\ l2_regularization s' = l2_regularization s
  /\ min_samples_split s' = min_samples_split s
  /\ min_samples_leaf s' = min_samples_leaf s
  /\ relevancy_scorer s' = relevancy_scorer s
  /\ redundancy_matrix s' = redundancy_matrix s
  /\ mrmr_scheme s' = mrmr_scheme s
  /\ categorical_features s' = categorical_features s.

(** What a boosting round leaves alone besides the hyper-parameters. *)
Definition same_outside_round (s s' : self) : Prop :=
  same_hyper_parameters s s'
  /\ n_estimators s' = n_estimators s
  /\ feature_names_in_ s' = feature_names_in_ s
  /\ output_name s' = output_name s
  /\ preprocessor_ s' = preprocessor_ s
  /\ regressors_ s' = regressors_ s
  /\ intercept_ s' = intercept_ s
  /\ selection_count_ s' = selection_count_ s
  /\ _n s' = _n s
  /\ _m s' = _m s
  /\ _is_fitted s' = _is_fitted s.

(** [f] is the first index at which [v] is maximal. *)
Definition first_maximum (v : np.vector) (f : nat) : Prop :=
  exists top, v !! f = Some top
    /\ (forall j x, v !! j = Some x -> (x <= top)%Q)
    /\ (forall j x, j < f -> v !! j = Some x -> (x < top)%Q).



(** An [n] by [n] array. *)
Definition square (n : nat) (M : np.matrix) : Prop :=
  np.ncols M = n /\ np.nrows M = n /\ np.wf M.

(** The raw validation score recorded for round [i]. *)
Definition validation_score (s : self) (i : nat) : option Q :=
  snd <$> score_history_ s !! i.

(** The validation scores of the rounds [first], ..., [last - 1] never
    decrease from one round to the next. *)
Definition window_nondecreasing (s : self) (first last : nat) : Prop :=
  forall i a b, first <= i -> S i < last ->
    validation_score s i = Some a -> validation_score s (S i) = Some b ->
    (a <= b)%Q.

(** The state [(self, residual, residual_valid)] right after round [t] of
    [_fit], as long as the loop has not been left: the round-by-round run
    without the stopping test. *)
Fixpoint after_round (X : np.matrix) (y : np.vector) (X_val : np.matrix)
    (y_val : np.vector) (s : self) (t : nat)
    : result (self * np.vector * np.vector) :=
  match t with
  | 0 =>
      let s := set_intercept_ (np.mean y) s in
      _boost X (np.sub_scalar y (intercept_ s)) (np.Scalar 0) 0 X_val
        (np.sub_scalar y_val (intercept_ s)) s
  | S t' =>
      st ← after_round X y X_val y_val s t';
      buffer ← np.row0 X;
      round X (redundancy_matrix s X) buffer X_val t st
  end.


(** The arguments and the object with which [fit] calls [_fit]: the head of
    [fit], up to the conversion of the data. *)
Definition _fit_arguments (X : Data) (y : Target)
    (validation_set : option (Data * Target)) (s : self)
    : np.matrix * np.vector * np.matrix * np.vector * self :=
  let '(X, X_val, y, y_val) :=
    match validation_set with
    | None => train_test_split X y (validation_fraction s) (random_state s)
    | Some (X_val, y_val) => (X, X_val, y, y_val)
    end in
  let s := _initialize_fit_params X y s in
  let '(p, X_train) := fit_transform (preprocessor_ s) X (target_values y) in
  let s := set_preprocessor_ p s in
  (X_train, target_values y, transform (preprocessor_ s) X_val, target_values y_val, s).

(** The training part of the data given to [fit]. *)
Definition training_data (X : Data) (y : Target)
    (validation_set : option (Data * Target)) (s : self) : Data :=
  match validation_set with
  | None => (train_test_split X y (validation_fraction s) (random_state s)).1.1.1
  | Some _ => X
  end.

(** A DataFrame has one label per column. *)
Definition well_labelled (X : Data) : Prop :=
  match columns X with
  | Some labels => length labels = np.ncols (values X)
  | None => True
  end.

(** The entries of a row of the contribution array that belong to selected
    features: the row without its intercept cell, filtered by the flags. *)
Definition selected_entries (s : self) (row : np.vector) : np.vector :=
  omap (fun cx : composite * Q => if is_selected cx.1 then Some cx.2 else None)
    (zip (regressors_ s) (tail row)).


(** The entries of [sorted] kept by the draws: position [j] is kept iff
    [draws[j] <= p]. *)
Definition kept (p : Q) (draws sorted : np.vector) : np.vector :=
  omap (fun j => match draws !! j with
                 | Some d => if Qle_bool d p then sorted !! j else None
                 | None => None
                 end) (seq 0 (length sorted)).

(** *** Vocabulary of the further properties *)

(** How many of the recorded rounds selected feature [f]. *)
Definition selections (history : list nat) (f : nat) : nat :=
  length (filter (fun g => g = f) history).

(** The training part of the targets given to [fit]. *)
Definition training_target (X : Data) (y : Target)
    (validation_set : option (Data * Target)) (s : self) : Target :=
  match validation_set with
  | None => (train_test_split X y (validation_fraction s) (random_state s)).1.2
  | Some _ => y
  end.



(** A vector that never decreases. *)
Definition ascending (v : np.vector) : Prop :=
  forall j k a b, j <= k -> v !! j = Some a -> v !! k = Some b -> (a <= b)%Q.

(** The key by which [np.argsort] orders row [i]: its entry in the vector. *)
Definition key (v : np.vector) (i : nat) : Q := default 0%Q (v !! i).

(** The count a counter holds for the key [k]. *)
Definition counted (c : list (string * nat)) (k : string) : nat :=
  sum_list (snd <$> filter (fun kn : string * nat => kn.1 = k) c).


End Vocabulary.

(** ** A concrete set of collaborators

    Small executable stand-ins, used to run the estimator on examples. *)
Module Example.

(** A one-split regression stump that keeps its training sample: it cuts
    at the mean of the training values and predicts, on each side, the
    shrunken mean of the training targets of that side. *)
Record stump : Type := Stump { shrinkage : Q; train_x : np.vector; train_y : np.vector }.

Definition side (le : bool) (t : stump) : np.vector :=
  snd <$> filter (fun xy => Qle_bool xy.1 (np.mean (train_x t)) = le)
            (zip (train_x t) (train_y t)).

Definition stump_predict (t : stump) (x : Q) : Q :=
  (shrinkage t * np.mean (side (Qle_bool x (np.mean (train_x t))) t))%Q.

(** A generator that cycles through the three draws 1/10, 9/10, 9/10. *)
Definition draw (i : nat) : Q :=
  match i mod 3 with
  | O => 1 # 10
  | _ => 9 # 10
  end.

(** A rounded square root, exact on squares of rationals. *)
Definition rounded_sqrt (x : Q) : Q :=
  Z.sqrt (Qnum x * Z.pos (Qden x)) # Qden x.

#[local] Instance collaborators : Collaborators := {|
  tree := stump;
  tree_fit p xs ys := Stump (tree_learning_rate p) xs ys;
  tree_predict := stump_predict;
  preprocessor := unit;
  TreePreprocessor _ _ _ _ := tt;
  fit_transform _ X _ := (tt, values X);
  transform _ X := values X;
  train_test_split X y _ _ := (X, X, y, y);
  generator := nat;
  default_rng seed := Z.to_nat (default 0%Z seed);
  random g m := (draw <$> seq g m, g + m);
  sqrt := rounded_sqrt;
  uninitialised_int _ := 0;
  uninitialised_float _ := (-1)%Q;
|}.

(** [np.subtract], the default [mrmr_scheme]. *)
Definition subtract (a : np.vector) (b : np.array) : np.vector :=
  match b with
  | np.Scalar c => np.sub_scalar a c
  | np.Vector v => zip_with Qminus a v
  end.

(** Relevancy: the absolute inner product of each column with the residual. *)
Definition relevancy (X : np.matrix) (y : np.vector) : np.vector :=
  (fun j => Qabs (np.sum (zip_with Qmult ((fun r => default 0%Q (r !! j)) <$> np.rows X) y)))
    <$> seq 0 (np.ncols X).

(** Redundancy: every pair of distinct features is fully redundant. *)
Definition redundancy (X : np.matrix) : np.matrix :=
  np.Matrix (np.ncols X)
    ((fun i => (fun j => if decide (i = j) then 0%Q else 1%Q) <$> seq 0 (np.ncols X))
       <$> seq 0 (np.ncols X)).

Definition args (n k : Z) (rate subsample : Q) : Args.t := {|
  Args.n_estimators := n;
  Args.learning_rate := rate;
  Args.random_state := Some 0%Z;
  Args.row_subsample := subsample;
  Args.validation_fraction := 1 # 10;
  Args.n_iter_no_change := k;
  Args.fill_value := 10000;
  Args.max_bins := 256;
  Args.max_depth := 2;
  Args.l2_regularization := 1 # 10;
  Args.min_samples_split := 2;
  Args.min_samples_leaf := 1;
  Args.relevancy_scorer := relevancy;
  Args.redundancy_matrix := redundancy;
  Args.mrmr_scheme := subtract;
  Args.categorical_features := [];
  Args.feature_names_in_ := None;
  Args.output_name := None;
|}.

Definition array2 (c : nat) (rows : list np.vector) : Data :=
  {| columns := None; values := np.Matrix c rows |}.

(** One feature with the training rows [0, 1] and targets [-1, 1]; the
    validation targets are closer to zero, so that a stump with shrinkage
    [1/2] first improves the validation score and then overfits. *)
Definition overfit_X : Data := array2 1 [[0%Q]; [1%Q]].
Definition overfit_y : np.vector := [-1; 1]%Q.
Definition overfit_y_val : np.vector := [-(8 # 10); 8 # 10]%Q.
Definition overfit_args : Args.t := args 5 2 (1 # 2) 1.

(** Three rows whose feature values are not sorted; with the draws
    [1/10, 9/10, 9/10] and [row_subsample = 1/2] only the first draw
    passes. *)
Definition unsorted_X : Data := array2 1 [[3%Q]; [1%Q]; [2%Q]].
Definition unsorted_y : np.vector := [30; 10; 20]%Q.
Definition unsorted_args : Args.t := args 1 1 1 (1 # 2).

(** What an example reads off the object left by [_fit]. *)
Definition report (r : result (self * np.vector * np.vector))
    : option (nat * nat * list nat * list (Q * Q)) :=
  match r with
  | Ok (s, _, _) =>
      Some (n_estimators s, n_iter_no_change s, selection_history_ s, score_history_ s)
  | Raise _ => None
  end.

(** What an example reads off a fitted object. *)
Definition fitted (r : result self)
    : option (nat * option (list string) * option string * nat * nat * bool) :=
  match r with
  | Ok s =>
      Some (n_estimators s, feature_names_in_ s, output_name s,
            length (score_history_ s), _n s, _is_fitted s)
  | Raise _ => None
  end.

(** [fit] of the overfitting example on a freshly constructed object. *)
Definition overfit_fit : result self :=
  fit overfit_X (Array overfit_y) (Some (overfit_X, Array overfit_y_val))
    (assign overfit_args).

(** [fit] of the unsorted example: one round, validated on the training
    data. *)
Definition unsorted_fit : result self :=
  fit unsorted_X (Array unsorted_y) (Some (unsorted_X, Array unsorted_y))
    (assign unsorted_args).

(** The weak learners an example finds in an object. *)
Definition learners (r : result (self * np.vector * np.vector))
    : option (list (list stump)) :=
  match r with
  | Ok (s, _, _) => Some (_regressors s)
  | Raise _ => None
  end.

Definition fitted_learners (r : result self) : option (list (list stump)) :=
  match r with
  | Ok s => Some (_regressors s)
  | Raise _ => None
  end.

(** Construct, then fit on [(X, y)] with the validation set [(X_val, y_val)]. *)
Definition run (a : Args.t) (X : Data) (y : np.vector) (X_val : Data)
    (y_val : np.vector) : result self :=
  s ← __init__ a; fit X (Array y) (Some (X_val, Array y_val)) s.

(** Whether a call ran to its end. *)
Definition succeeded {A} (r : result A) : bool :=
  match r with
  | Ok _ => true
  | Raise _ => false
  end.

(** Two features and four rows; the target is [2 * x0 + x1].  Full
    shrinkage and no subsampling: round [0] selects feature [0], round [1]
    feature [1], and round [2], with nothing left to explain, feature [0]
    again. *)
Definition pair_X : Data := array2 2 [[0; 0]; [1; 0]; [0; 1]; [1; 1]]%Q.
Definition pair_y : np.vector := [0; 2; 1; 3]%Q.
Definition pair_args : Args.t := args 3 3 1 1.
Definition pair_fit : result self :=
  fit pair_X (Array pair_y) (Some (pair_X, Array pair_y)) (assign pair_args).



(** The overfitting example fitted twice on the same data. *)
Definition refit : result self :=
  s ← overfit_fit;
  fit overfit_X (Array overfit_y) (Some (overfit_X, Array overfit_y_val)) s.

(** The contribution array of the overfitting example on its own rows. *)
Definition overfit_contribution : result np.matrix :=
  s ← overfit_fit; contribution_array overfit_X s.

(** The first request for the sort order of the unsorted example. *)
Definition unsorted_index : result (list nat * self) :=
  _get_index (values unsorted_X) 0
    (_initialize_fit_params unsorted_X (Array unsorted_y) (assign unsorted_args)).

End Example.


(** * Properties *)

Section Properties.

Context `{Collaborators}.

(** ** Inversion of the error monad *)

Lemma bind_Ok {A B} (r : result A) (k : A -> result B) (b : B) :
  r ≫= k = Ok b -> exists a, r = Ok a /\ k a = Ok b.
Proof. destruct r as [a|e]; [eauto | discriminate]. Qed.

Lemma getitem_Ok {A} (l : list A) i a : getitem l i = Ok a <-> l !! i = Some a.
Proof. unfold getitem. destruct (l !! i); split; congruence. Qed.

Lemma setitem_Ok {A} (l : list A) i x l' :
  setitem l i x = Ok l' <-> i < length l /\ l' = <[i:=x]> l.
Proof. unfold setitem. case_decide; split; intros; destruct_and?; simplify_eq; eauto; lia. Qed.

(** Split the successful run of a sequence of binds into its steps. *)
Ltac inv_binds Hb :=
  repeat (match type of Hb with
          | context [mbind _ ?r] =>
              lazymatch r with
              | context [mbind] => fail
              | _ => let E := fresh "E" in
                     destruct r eqn:E; cbn [mbind result_bind] in Hb; [|discriminate]
              end
          | context [let '(_, _) := ?p in _] =>
              let E := fresh "E" in destruct p eqn:E
          end).

(** ** numpy facts *)

Example argmax_tie : np.argmax [1; 3; 3; 2]%Q = Ok 1.
Proof. reflexivity. Qed.

Example argmax_empty : np.argmax [] = Raise ValueError.
Proof. reflexivity. Qed.

Example sum_axis0_empty : np.sum_axis0 [] = Ok (np.Scalar 0).
Proof. reflexivity. Qed.

Example add_strings_broadcast :
  np.add_strings ["intercept"] ["feature_0"; "feature_1"]
  = Ok ["interceptfeature_0"; "interceptfeature_1"].
Proof. reflexivity. Qed.

Example argsort_unsorted : np.argsort [3; 1; 2]%Q = [1; 2; 0].
Proof. reflexivity. Qed.

Example diff_window : np.all_ge0 (np.diff [3; 3; 5]%Q) = true
                      /\ np.all_ge0 (np.diff [3; 2; 5]%Q) = false
                      /\ np.all_ge0 (np.diff [7%Q]) = true.
Proof. by split_and!. Qed.

(** Selecting feature [0] and then feature [1] of two. *)
Example count_matrix_two_rounds :
  (C ← np.add_at_row (np.zeros2 2 2) 0 1; C ← np.add_at_column C 0 1;
   C ← np.setitem2 C 0 0 0;
   C ← np.add_at_row C 1 1; C ← np.add_at_column C 1 1; np.setitem2 C 1 1 0)
  = Ok (np.Matrix 2 [[0; 0 + 1 + 1]; [0 + 1 + 1; 0]]%Q).
Proof. reflexivity. Qed.

Lemma ltb_lt x y : np.ltb x y = true <-> (x < y)%Q.
Proof.
  unfold np.ltb. rewrite negb_true_iff, <- not_true_iff_false, Qle_bool_iff.
  split; [apply Qnot_le_lt | apply Qlt_not_le].
Qed.

Lemma ltb_ge x y : np.ltb x y = false <-> (y <= x)%Q.
Proof. unfold np.ltb. by rewrite negb_false_iff, Qle_bool_iff. Qed.



Lemma first_maximum_unique v f g : first_maximum v f -> first_maximum v g -> f = g.
Proof.
  intros (a & Ha & Hmax & Hfirst) (b & Hb & Hmax' & Hfirst').
  destruct (Nat.lt_trichotomy f g) as [Hlt|[->|Hlt]]; [|done|].
  - specialize (Hfirst' _ _ Hlt Ha). specialize (Hmax _ _ Hb).
    destruct (Qlt_not_le _ _ Hfirst' Hmax).
  - specialize (Hfirst _ _ Hlt Hb). specialize (Hmax' _ _ Ha).
    destruct (Qlt_not_le _ _ Hfirst Hmax').
Qed.

Lemma mapM_Ok {A B} (f : A -> result B) l k :
  mapM f l = Ok k <-> Forall2 (fun x y => f x = Ok y) l k.
Proof.
  revert k. induction l as [|x l IH]; intros k; cbn.
  - split; [intros [= <-]; constructor | by inversion 1].
  - split.
    + intros Hm. apply bind_Ok in Hm as (y & Hy & Hm).
      apply bind_Ok in Hm as (k' & Hk & [= <-]).
      constructor; [done | by apply IH].
    + inversion 1 as [|? y ? k' Hy Hk]; subst. rewrite Hy; cbn.
      apply IH in Hk. by rewrite Hk.
Qed.

Lemma take_index_lookup a index r :
  np.take_index a index = Ok r ->
  length r = length index
  /\ forall j i, index !! j = Some i -> r !! j = a !! i /\ is_Some (a !! i).
Proof.
  unfold np.take_index. intros Hm%mapM_Ok. split.
  - symmetry. by eapply Forall2_length.
  - intros j i Hj.
    destruct (Forall2_lookup_l _ _ _ _ _ Hm Hj) as (x & Hx & Hg%getitem_Ok).
    rewrite Hx, Hg. eauto.
Qed.

(** A boolean mask keeps exactly the positions whose draw passes. *)
Lemma mask_kept (p : Q) : forall (a draws : np.vector),
  length draws = length a ->
  fst <$> filter (fun xb => xb.2 = true) (zip a ((fun d => Qle_bool d p) <$> draws))
  = kept p draws a.
Proof.
  unfold kept. induction a as [|x a IH]; intros [|d draws] Hlen; try done.
  cbn in Hlen. cbn [length seq]. rewrite <- fmap_S_seq.
  cbn [zip zip_with fmap list_fmap omap list_omap lookup list_lookup].
  specialize (IH draws ltac:(lia)). cbn in IH.
  assert (omap (fun j => match (d :: draws) !! j with
                         | Some d0 => if Qle_bool d0 p then (x :: a) !! j else None
                         | None => None
                         end) (S <$> seq 0 (length a))
          = omap (fun j => match draws !! j with
                           | Some d0 => if Qle_bool d0 p then a !! j else None
                           | None => None
                           end) (seq 0 (length a))) as ->.
  { generalize (seq 0 (length a)). intros l. induction l as [|j l IHl]; [done|].
    cbn. by rewrite IHl. }
  rewrite <- IH. rewrite filter_cons. cbn.
  destruct (Qle_bool d p); by case_decide.
Qed.

Lemma take_mask_kept p (a draws r : np.vector) :
  np.take_mask a ((fun d => Qle_bool d p) <$> draws) = Ok r ->
  length draws = length a /\ r = kept p draws a.
Proof.
  unfold np.take_mask. rewrite length_fmap. case_decide as Hlen; [|done].
  intros [= <-]. split; [done|]. symmetry. rewrite <- (mask_kept p a draws Hlen). done.
Qed.

(** [np.all(np.diff(v) >= 0.0)] says that [v] never decreases. *)
Lemma all_ge0_diff v :
  np.all_ge0 (np.diff v) = true <->
  forall i a b, v !! i = Some a -> v !! S i = Some b -> (a <= b)%Q.
Proof.
  induction v as [|x [|y v] IH].
  - split; [intros _ i a b [=]|done].
  - split; [intros _ [|i] a b; cbn; intros; simplify_eq|done].
  - change (np.diff (x :: y :: v)) with ((y - x)%Q :: np.diff (y :: v)).
    unfold np.all_ge0 in *. cbn [forallb]. rewrite andb_true_iff, IH, Qle_bool_iff.
    split.
    + intros [Hxy Hrest] [|i] a b Ha Hb; simplify_eq/=; [lra|]. by eapply Hrest.
    + intros Hall. split.
      * specialize (Hall 0 x y eq_refl eq_refl). lra.
      * intros i a b Ha Hb. by apply (Hall (S i)).
Qed.

Lemma last_iterations_lookup t s i :
  n_iter_no_change s <= t ->
  last_iterations t s !! i =
    if decide (i < n_iter_no_change s)
    then validation_score s (t - n_iter_no_change s + i) else None.
Proof.
  intros Hk. unfold last_iterations, np.slice, validation_score.
  rewrite list_lookup_fmap, lookup_take, lookup_drop.
  replace (t - (t - n_iter_no_change s)) with (n_iter_no_change s) by lia.
  by case_decide.
Qed.

(** The stopping test of the source, in words: it is made from round
    [n_iter_no_change] on and looks at the validation scores of the
    [n_iter_no_change] rounds before the current one. *)
Lemma no_improvement_window t s :
  no_improvement t s = true <->
  n_iter_no_change s <= t
  /\ window_nondecreasing s (t - n_iter_no_change s) t.
Proof.
  unfold no_improvement. rewrite andb_true_iff, bool_decide_eq_true, all_ge0_diff.
  unfold window_nondecreasing. split; intros [Hk Hall]; (split; [done|]).
  - intros i a b Hlo Hhi Ha Hb.
    apply (Hall (i - (t - n_iter_no_change s)) a b);
      rewrite last_iterations_lookup by done.
    + rewrite decide_True by lia. rewrite <- Ha. f_equal. lia.
    + rewrite decide_True by lia. rewrite <- Hb. f_equal. lia.
  - intros i a b. rewrite !last_iterations_lookup by done.
    repeat case_decide; try done. intros Ha Hb.
    apply (Hall (t - n_iter_no_change s + i) a b); try done; try lia.
    rewrite <- Hb. f_equal. lia.
Qed.

(** Before round [n_iter_no_change] no test is made. *)
Lemma no_improvement_before t s :
  t < n_iter_no_change s -> no_improvement t s = false.
Proof.
  intros Hlt. unfold no_improvement. rewrite bool_decide_eq_false_2 by lia. done.
Qed.




(** ** The count matrix *)

Lemma square_zeros2 n : square n (np.zeros2 n n).
Proof.
  unfold square, np.zeros2, np.nrows, np.wf, np.zeros; cbn.
  rewrite length_replicate. repeat split.
  apply Forall_replicate, length_replicate.
Qed.

Lemma entry_zeros2 n i j : np.entry (np.zeros2 n n) i j = 0%Q.
Proof.
  unfold np.entry, np.zeros2, np.zeros; cbn.
  destruct (replicate n (replicate n 0%Q) !! i) as [r|] eqn:Hr; cbn; [|done].
  apply lookup_replicate in Hr as [-> _].
  destruct (replicate n 0%Q !! j) as [x|] eqn:Hx; cbn; [|done].
  by apply lookup_replicate in Hx as [-> _].
Qed.


Lemma entry_inside n M i j :
  square n M -> i < n -> j < n ->
  exists r x, np.rows M !! i = Some r /\ length r = n /\ r !! j = Some x
    /\ np.entry M i j = x.
Proof.
  intros (Hc & Hrows & Hwf) Hi Hj. unfold np.nrows in Hrows.
  destruct (lookup_lt_is_Some_2 (np.rows M) i) as [r Hr]; [lia|].
  assert (length r = n) as Hlen by (eapply Forall_lookup_1 in Hwf; [|done]; lia).
  destruct (lookup_lt_is_Some_2 r j) as [x Hx]; [lia|].
  exists r, x. unfold np.entry. by rewrite Hr; cbn; rewrite Hx.
Qed.

Lemma add_at_row_entry n M f C :
  square n M -> np.add_at_row M f 1 = Ok C ->
  f < n /\ square n C
  /\ forall i j, i < n -> j < n ->
       np.entry C i j = if decide (i = f) then (np.entry M i j + 1)%Q else np.entry M i j.
Proof.
  intros HM. unfold np.add_at_row. case_decide as Hf; [|done]. intros [= <-].
  pose proof HM as (Hc & Hrows & Hwf). split; [lia|]. split.
  - repeat split; cbn; [done|by unfold np.nrows; cbn; rewrite length_alter|].
    unfold np.wf; cbn. apply Forall_alter; [done|].
    intros r Hr. rewrite length_fmap. by eapply Forall_lookup_1 in Hwf.
  - intros i j Hi Hj.
    destruct (entry_inside n M i j) as (r & x & Hr & Hlen & Hx & ->); [done..|].
    unfold np.entry; cbn. case_decide as Hif.
    + subst i. rewrite list_lookup_alter_eq, Hr; cbn.
      by rewrite list_lookup_fmap, Hx.
    + rewrite list_lookup_alter_ne, Hr by done; cbn. by rewrite Hx.
Qed.

Lemma add_at_column_entry n M f C :
  square n M -> np.add_at_column M f 1 = Ok C ->
  f < n /\ square n C
  /\ forall i j, i < n -> j < n ->
       np.entry C i j = if decide (j = f) then (np.entry M i j + 1)%Q else np.entry M i j.
Proof.
  intros HM. unfold np.add_at_column. case_decide as Hf; [|done]. intros [= <-].
  pose proof HM as (Hc & Hrows & Hwf). split; [lia|]. split.
  - repeat split; cbn; [done|by unfold np.nrows; cbn; rewrite length_fmap|].
    unfold np.wf; cbn. apply Forall_fmap. eapply Forall_impl; [done|].
    intros r Hr; cbn. by rewrite length_alter.
  - intros i j Hi Hj.
    destruct (entry_inside n M i j) as (r & x & Hr & Hlen & Hx & ->); [done..|].
    unfold np.entry; cbn. rewrite list_lookup_fmap, Hr; cbn. case_decide as Hjf.
    + subst j. by rewrite list_lookup_alter_eq, Hx.
    + by rewrite list_lookup_alter_ne, Hx.
Qed.

Lemma setitem2_entry n M f c C :
  square n M -> np.setitem2 M f f c = Ok C ->
  f < n /\ square n C
  /\ forall i j, i < n -> j < n ->
       np.entry C i j = if decide (i = f /\ j = f) then c else np.entry M i j.
Proof.
  intros HM. unfold np.setitem2. case_decide as Hf; [|done]. intros [= <-].
  pose proof HM as (Hc & Hrows & Hwf). split; [lia|]. split.
  - repeat split; cbn; [done|by unfold np.nrows; cbn; rewrite length_alter|].
    unfold np.wf; cbn. apply Forall_alter; [done|].
    intros r Hr. rewrite length_insert. by eapply Forall_lookup_1 in Hwf.
  - intros i j Hi Hj.
    destruct (entry_inside n M i j) as (r & x & Hr & Hlen & Hx & ->); [done..|].
    unfold np.entry; cbn. destruct (decide (i = f)) as [->|Hif].
    + rewrite list_lookup_alter_eq, Hr; cbn.
      destruct (decide (j = f)) as [->|Hjf].
      * rewrite list_lookup_insert_eq by lia. by rewrite decide_True.
      * rewrite list_lookup_insert_ne, Hx by done. by rewrite decide_False by naive_solver.
    + rewrite list_lookup_alter_ne, Hr by done; cbn. rewrite Hx.
      case_decide; naive_solver.
Qed.

(** The three statements that update the count matrix in [_boost]. *)
Lemma count_update_entry n M f C1 C2 C3 :
  square n M ->
  np.add_at_row M f 1 = Ok C1 ->
  np.add_at_column C1 f 1 = Ok C2 ->
  np.setitem2 C2 f f 0 = Ok C3 ->
  f < n /\ square n C3
  /\ np.entry C2 f f = (np.entry M f f + 1 + 1)%Q
  /\ forall i j, i < n -> j < n ->
       np.entry C3 i j =
         if decide (i = f /\ j = f) then 0%Q
         else if decide (i = f \/ j = f) then (np.entry M i j + 1)%Q
         else np.entry M i j.
Proof.
  intros HM H1 H2 H3.
  destruct (add_at_row_entry _ _ _ _ HM H1) as (Hf & HC1 & E1).
  destruct (add_at_column_entry _ _ _ _ HC1 H2) as (_ & HC2 & E2).
  destruct (setitem2_entry _ _ _ _ _ HC2 H3) as (_ & HC3 & E3).
  split; [done|]. split; [done|]. split.
  - rewrite E2, E1 by done. by rewrite !decide_True.
  - intros i j Hi Hj. rewrite E3, E2, E1 by done.
    repeat case_decide; naive_solver.
Qed.


(** ** [_get_index] *)

Lemma _get_index_inv X f s index s' :
  _get_index X f s = Ok (index, s') ->
  (_indexing_cache s !! f = Some (Some index) /\ s' = s)
  \/ (exists col, _indexing_cache s !! f = Some None /\ np.column X f = Ok col
        /\ index = np.argsort col
        /\ s' = set__indexing_cache (<[f:=Some index]> (_indexing_cache s)) s).
Proof.
  unfold _get_index. intros Hg.
  apply bind_Ok in Hg as ([index'|] & Hc%getitem_Ok & Hg).
  - left. by simplify_eq.
  - right. apply bind_Ok in Hg as (col & Hcol & Hg).
    apply bind_Ok in Hg as (cache & [_ ->]%setitem_Ok & Hg).
    simplify_eq. eauto.
Qed.

(** ** [_boost]: what one round does to the object *)

Lemma _boost_inv X y redundancy t X_val y_val s s' y' y_val' :
  _boost X y redundancy t X_val y_val s = Ok (s', y', y_val') ->
  exists f C1 C2 X_selected index draws X_sorted y_sorted X_fit y_fit X_val_selected estimators,
    let selected_rows := (fun d => Qle_bool d (row_subsample s)) <$> draws in
    let new_model := tree_fit (tree_parameters_of s) X_fit y_fit in
    np.argmax (mrmr_scheme s (relevancy_scorer s X y) redundancy) = Ok f
    /\ t < length (selection_history_ s)
    /\ selection_history_ s' = <[t:=f]> (selection_history_ s)
    /\ np.add_at_row (_selected_count_matrix s) f 1 = Ok C1
    /\ np.add_at_column C1 f 1 = Ok C2
    /\ np.setitem2 C2 f f 0 = Ok (_selected_count_matrix s')
    /\ np.column X f = Ok X_selected
    /\ ((_indexing_cache s !! f = Some (Some index)
         /\ _indexing_cache s' = _indexing_cache s)
        \/ (_indexing_cache s !! f = Some None /\ index = np.argsort X_selected
            /\ _indexing_cache s' = <[f:=Some index]> (_indexing_cache s)))
    /\ np.take_index X_selected index = Ok X_sorted
    /\ np.take_index y index = Ok y_sorted
    /\ random (_random_generator s) (_m s) = (draws, _random_generator s')
    /\ np.take_mask X_sorted selected_rows = Ok X_fit
    /\ np.take_mask y_sorted selected_rows = Ok y_fit
    /\ np.isub y (predict_tree new_model X_selected) = Ok y'
    /\ np.column X_val f = Ok X_val_selected
    /\ np.isub y_val (predict_tree new_model X_val_selected) = Ok y_val'
    /\ t < length (score_history_ s)
    /\ score_history_ s' = <[t:=(np.mean (np.square y'), np.mean (np.square y_val'))]> (score_history_ s)
    /\ _regressors s !! f = Some estimators
    /\ _regressors s' = <[f:=estimators ++ [new_model]]> (_regressors s)
    /\ same_outside_round s s'.
Proof.
  unfold _boost. intros Hb. inv_binds Hb.
  match goal with E : _get_index _ _ _ = _ |- _ => apply _get_index_inv in E as Hi end.
  repeat match goal with
         | E : setitem _ _ _ = Ok _ |- _ => apply setitem_Ok in E as [? ?]
         | E : getitem _ _ = Ok _ |- _ => apply getitem_Ok in E
         end.
  simplify_eq.
  unfold tree_parameters_of in *.
  destruct Hi as [[Hc Hs]|(col & Hc & Hcol & -> & Hs)];
    rewrite Hs in *; clear Hs; cbn in *; simplify_eq;
    match goal with
    | Ef : np.argmax _ = Ok ?f,
      E1 : np.add_at_row _ _ _ = Ok ?C1,
      E2 : np.add_at_column _ _ _ = Ok ?C2,
      E4 : np.column X _ = Ok ?Xsel,
      E9 : random _ _ = (?draws, _),
      E7 : np.take_index ?Xsel ?index = Ok ?Xs,
      E8 : np.take_index y _ = Ok ?ys,
      E10 : np.take_mask ?Xs _ = Ok ?Xfit,
      E11 : np.take_mask ?ys _ = Ok ?yfit,
      E13 : np.column X_val _ = Ok ?Xv,
      E16 : _regressors _ !! _ = Some ?est |- _ =>
        exists f, C1, C2, Xsel, index, draws, Xs, ys, Xfit, yfit, Xv, est
    end;
    cbn; unfold same_outside_round, same_hyper_parameters; cbn;
    repeat match goal with |- _ /\ _ => split end;
    try eassumption; try reflexivity; auto;
    first [left; split; congruence | right; repeat split; congruence].
Qed.

(** ** Frames *)

Lemma same_hyper_parameters_refl s : same_hyper_parameters s s.
Proof. by repeat split. Qed.

Lemma same_hyper_parameters_trans s1 s2 s3 :
  same_hyper_parameters s1 s2 -> same_hyper_parameters s2 s3 ->
  same_hyper_parameters s1 s3.
Proof. unfold same_hyper_parameters. intros. destruct_and!. repeat split; congruence. Qed.


Lemma same_outside_round_trans s1 s2 s3 :
  same_outside_round s1 s2 -> same_outside_round s2 s3 -> same_outside_round s1 s3.
Proof.
  unfold same_outside_round. intros [H1 ?] [H2 ?]. destruct_and!.
  split; [by eapply same_hyper_parameters_trans|]. repeat split; congruence.
Qed.

(** A round writes position [model_count] of both histories and no other. *)
Lemma _boost_histories X y redundancy t X_val y_val s s' y' y_val' :
  _boost X y redundancy t X_val y_val s = Ok (s', y', y_val') ->
  same_outside_round s s'
  /\ length (score_history_ s') = length (score_history_ s)
  /\ length (selection_history_ s') = length (selection_history_ s)
  /\ score_history_ s' !! t = Some (np.mean (np.square y'), np.mean (np.square y_val'))
  /\ (exists f, np.argmax (mrmr_scheme s (relevancy_scorer s X y) redundancy) = Ok f
        /\ selection_history_ s' !! t = Some f)
  /\ t < length (selection_history_ s)
  /\ forall i, i <> t ->
       score_history_ s' !! i = score_history_ s !! i
       /\ selection_history_ s' !! i = selection_history_ s !! i.
Proof.
  intros Hb. apply _boost_inv in Hb
    as (f & C1 & C2 & Xs & ix & dr & Xso & yso & Xf & yf & Xvs & est & Hb).
  cbn zeta in Hb. destruct_and!.
  repeat match goal with E : _ = <[_:=_]> _ |- _ => rewrite E; clear E end.
  rewrite !length_insert, !list_lookup_insert_eq by done.
  split_and!; try done.
  - eauto.
  - intros i Hi. by rewrite !list_lookup_insert_ne.
Qed.

Lemma round_inv X R buffer X_val t s residual residual_valid out :
  round X R buffer X_val t (s, residual, residual_valid) = Ok out ->
  exists redundancy,
    redundancy_of R buffer t s = Ok redundancy
    /\ _boost X residual (np.Vector redundancy) t X_val residual_valid s = Ok out.
Proof. unfold round. intros (red & ? & ?)%bind_Ok. eauto. Qed.

(** ** The run of the loop, round by round *)

Section Run.

Variables (X : np.matrix) (y : np.vector) (X_val : np.matrix) (y_val : np.vector).
Variable s : self.

Abbreviation state_after := (after_round X y X_val y_val s).

Lemma after_round_S t out :
  state_after (S t) = Ok out ->
  exists st buffer, state_after t = Ok st /\ np.row0 X = Ok buffer
    /\ round X (redundancy_matrix s X) buffer X_val (S t) st = Ok out.
Proof.
  cbn. intros (st & ? & (buffer & ? & ?)%bind_Ok)%bind_Ok. eauto.
Qed.

(** The object after round [t]: nothing but the intercept has changed outside
    the rounds, the histories keep their lengths, and the positions after
    [t] still hold what they held before the fit. *)
Lemma after_round_frame t st residual residual_valid :
  state_after t = Ok (st, residual, residual_valid) ->
  same_outside_round (set_intercept_ (np.mean y) s) st
  /\ length (score_history_ st) = length (score_history_ s)
  /\ length (selection_history_ st) = length (selection_history_ s)
  /\ t < length (selection_history_ s)
  /\ forall i, t < i ->
       score_history_ st !! i = score_history_ s !! i
       /\ selection_history_ st !! i = selection_history_ s !! i.
Proof.
  revert st residual residual_valid.
  induction t as [|t IH]; intros st residual residual_valid Ht.
  - cbn in Ht. apply _boost_histories in Ht as (Hf & Hl1 & Hl2 & _ & _ & Hlt & Hi).
    cbn in *. split_and!; try done. intros i Hlt'. apply Hi. lia.
  - apply after_round_S in Ht as ([[s1 r1] rv1] & buffer & Ht & _ & Hr).
    apply round_inv in Hr as (red & _ & Hb).
    apply _boost_histories in Hb as (Hf & Hl1 & Hl2 & _ & _ & Hlt & Hi).
    destruct (IH _ _ _ Ht) as (Hf' & Hl1' & Hl2' & _ & Hi').
    split; [by eapply same_outside_round_trans|].
    split_and!; try congruence; try lia.
    intros i Hlt'. destruct (Hi i) as [-> ->]; [lia|]. apply Hi'. lia.
Qed.


(** Later rounds do not touch the records of earlier ones. *)
Lemma after_round_earlier d : forall t st' r' rv',
  state_after (t + d) = Ok (st', r', rv') ->
  exists st r rv, state_after t = Ok (st, r, rv)
    /\ forall i, i <= t ->
         score_history_ st' !! i = score_history_ st !! i
         /\ selection_history_ st' !! i = selection_history_ st !! i.
Proof.
  induction d as [|d IH]; intros t st' r' rv' Ht.
  - rewrite Nat.add_0_r in Ht. by exists st', r', rv'.
  - rewrite Nat.add_succ_r in Ht.
    apply after_round_S in Ht as ([[s1 r1] rv1] & buffer & Ht & _ & Hr).
    apply round_inv in Hr as (red & _ & Hb).
    apply _boost_histories in Hb as (_ & _ & _ & _ & _ & _ & Hi).
    destruct (IH _ _ _ _ Ht) as (st & r & rv & Hst & Hpre).
    exists st, r, rv. split; [done|]. intros i Hle.
    destruct (Hi i) as [-> ->]; [lia|]. by apply Hpre.
Qed.

Lemma after_round_le t T sT rT rvT :
  state_after T = Ok (sT, rT, rvT) -> t <= T ->
  exists st r rv, state_after t = Ok (st, r, rv)
    /\ forall i, i <= t ->
         score_history_ sT !! i = score_history_ st !! i
         /\ selection_history_ sT !! i = selection_history_ st !! i.
Proof.
  intros HT Hle. apply (after_round_earlier (T - t) t sT rT rvT).
  by replace (t + (T - t)) with T by lia.
Qed.

(** The stopping test reads the window size and the records of earlier
    rounds only. *)
Lemma no_improvement_agree t s1 s2 :
  n_iter_no_change s1 = n_iter_no_change s2 ->
  (forall i, i < t -> score_history_ s1 !! i = score_history_ s2 !! i) ->
  no_improvement t s1 = no_improvement t s2.
Proof.
  intros Hk Hpre. unfold no_improvement, last_iterations, np.slice. rewrite Hk.
  set (lo := t - n_iter_no_change s2).
  assert (take (t - lo) (drop lo (score_history_ s1))
          = take (t - lo) (drop lo (score_history_ s2))) as ->; [|done].
  apply list_eq. intros i.
  rewrite !lookup_take, !lookup_drop. case_decide; [|done]. apply Hpre. lia.
Qed.

(** The loop with its stopping test follows the round-by-round run up to
    the first round [T] at which the test succeeds, or to the last round. *)
Lemma rounds_run buffer :
  np.row0 X = Ok buffer ->
  forall n a st out,
    state_after a = Ok st ->
    rounds X (redundancy_matrix s X) buffer X_val (seq (S a) n) st = Ok out ->
    exists T sT,
      a <= T <= a + n
      /\ state_after T = Ok (sT, out.1.2, out.2)
      /\ (forall t st_t r rv, a < t < T ->
            state_after t = Ok (st_t, r, rv) -> no_improvement t st_t = false)
      /\ ((T = a + n /\ (a < T -> no_improvement T sT = false) /\ out.1.1 = sT)
          \/ (a < T /\ no_improvement T sT = true
              /\ out.1.1 = set_n_estimators (T + 1) sT)).
Proof.
  intros Hbuf. induction n as [|n IH]; intros a st out Ha Hr.
  - cbn in Hr. simplify_eq. destruct out as [[sT r] rv].
    exists a, sT. split_and!; try done; try lia.
    left. split_and!; try done; lia.
  - cbn [seq rounds] in Hr.
    apply bind_Ok in Hr as ([[s1 r1] rv1] & Hround & Hr).
    assert (state_after (S a) = Ok (s1, r1, rv1)) as HSa.
    { cbn. rewrite Ha; cbn. rewrite Hbuf; cbn. done. }
    destruct (no_improvement (S a) s1) eqn:Hstop.
    + simplify_eq. exists (S a), s1. split_and!; try done; try lia.
      right. split_and!; try done; lia.
    + destruct (IH _ _ _ HSa Hr) as (T & sT & HT & HsT & Hbefore & Hend).
      exists T, sT. split_and!; try done; try lia.
      * intros t st_t r rv Ht Hst. destruct (decide (t = S a)) as [->|Hne].
        -- rewrite HSa in Hst. by injection Hst as <- _ _.
        -- eapply Hbefore; [|done]. lia.
      * destruct Hend as [(-> & Hlast & Hout)|(Hlt & Hlast & Hout)].
        -- left. split_and!; try done; try lia. intros _.
           destruct n as [|n]; [|apply Hlast; lia].
           rewrite Nat.add_0_r in *. rewrite HSa in HsT. by injection HsT as <- _ _.
        -- right. split_and!; try done; lia.
Qed.

End Run.


(** ** [_fit] as a run of rounds *)

(** A successful [_fit] ran the rounds [0], ..., [T] of the round-by-round
    run; [T] is the first round from [1] on whose stopping test succeeded,
    or the last configured round.  Tests are read on the final history. *)
Lemma _fit_run X y X_val y_val s s' residual residual_valid :
  _fit X y X_val y_val s = Ok (s', residual, residual_valid) ->
  exists T sT,
    T + 1 <= max 1 (n_estimators s)
    /\ after_round X y X_val y_val s T = Ok (sT, residual, residual_valid)
    /\ (forall t, 1 <= t < T -> no_improvement t s' = false)
    /\ ((T + 1 = max 1 (n_estimators s)
         /\ (1 <= T -> no_improvement T s' = false) /\ s' = sT)
        \/ (1 <= T /\ no_improvement T s' = true
            /\ s' = set_n_estimators (T + 1) sT)).
Proof.
  unfold _fit. intros Hfit.
  apply bind_Ok in Hfit as ([[s1 r1] rv1] & Hfirst & Hfit).
  apply bind_Ok in Hfit as (buffer & Hbuf & Hloop).
  assert (after_round X y X_val y_val s 0 = Ok (s1, r1, rv1)) as H0 by done.
  destruct (after_round_frame _ _ _ _ _ _ _ _ _ H0) as ((Hhyper & Hn & _) & _).
  destruct Hhyper as (_ & _ & _ & _ & _ & _ & _ & _ & _ & _ & _ & _ & HR & _).
  cbn in HR, Hn. rewrite HR, Hn in Hloop.
  destruct (rounds_run X y X_val y_val s buffer Hbuf _ _ _ _ H0 Hloop)
    as (T & sT & HT & HsT & Hbefore & Hend). cbn in HsT, Hend.
  assert (forall t st r rv, t <= T ->
            after_round X y X_val y_val s t = Ok (st, r, rv) ->
            no_improvement t s' = no_improvement t st) as Hagree.
  { intros t st r rv Hle Hst.
    destruct (after_round_le _ _ _ _ _ t T _ _ _ HsT Hle) as (st' & r' & rv' & Hst' & Hpre).
    rewrite Hst in Hst'. injection Hst' as <- <- <-.
    destruct (after_round_frame _ _ _ _ _ _ _ _ _ Hst) as ((Hh & _) & _).
    destruct (after_round_frame _ _ _ _ _ _ _ _ _ HsT) as ((HhT & _) & _).
    destruct Hh as (_ & _ & _ & _ & Hk & _). destruct HhT as (_ & _ & _ & _ & HkT & _).
    apply no_improvement_agree.
    - destruct Hend as [(_ & _ & ->)|(_ & _ & ->)]; cbn; congruence.
    - intros i Hi. transitivity (score_history_ sT !! i).
      + by destruct Hend as [(_ & _ & ->)|(_ & _ & ->)].
      + apply Hpre. lia. }
  exists T, sT. split_and!; try done.
  - lia.
  - intros t Ht.
    destruct (after_round_le _ _ _ _ _ t T _ _ _ HsT ltac:(lia)) as (st & r & rv & Hst & _).
    rewrite (Hagree t st r rv ltac:(lia) Hst). eapply Hbefore; [|done]. lia.
  - rewrite (Hagree _ _ _ _ (Nat.le_refl T) HsT).
    destruct Hend as [(-> & Hlast & Hout)|(Hlt & Hlast & Hout)].
    + left. split_and!; try done; lia.
    + right. split_and!; try done; lia.
Qed.


(** ** [fit] around [_fit] *)

(** The tail of [fit]: what it makes of the object [s1] left by [_fit]. *)
Lemma fit_inv X y validation_set s s'' :
  fit X y validation_set s = Ok s'' ->
  exists X_train y_train X_val y_val s0 s1 residual residual_valid fixed selected_names,
    _fit_arguments X y validation_set s = (X_train, y_train, X_val, y_val, s0)
    /\ _fit X_train y_train X_val y_val s0 = Ok (s1, residual, residual_valid)
    /\ mapM (fun ir => col ← np.column X_train ir.1; Ok (fix_bias ir.2 col))
         (enumerate ((fun en => sum_tree_regressors en.1 en.2 (output_name s1))
                       <$> zip (_regressors s1) (names s1))) = Ok fixed
    /\ mapM (getitem (names s1)) (take (n_estimators s1) (selection_history_ s1))
       = Ok selected_names
    /\ s'' = set__is_fitted true
               (set_selection_count_ (Counter selected_names)
                  (set_score_history_ (prod_map sqrt sqrt <$> score_history_ s1)
                     (set_selection_history_
                        (take (n_estimators s1) (selection_history_ s1))
                        (set_intercept_ (intercept_ s1 + np.sum (snd <$> fixed))
                           (set_regressors_ (fst <$> fixed) s1))))).
Proof.
  unfold fit, _fit_arguments. intros Hfit.
  destruct (match validation_set with
            | Some (X_val, y_val) => (X, X_val, y, y_val)
            | None => train_test_split X y (validation_fraction s) (random_state s)
            end) as [[[X1 Xv1] y1] yv1].
  destruct (fit_transform _ X1 _) as [p X_train].
  apply bind_Ok in Hfit as ([[s1 r] rv] & Hf & Hfit).
  apply bind_Ok in Hfit as (fixed & Hfixed & Hfit).
  apply bind_Ok in Hfit as (selected_names & Hnames & [= <-]).
  cbn in *. eauto 15.
Qed.

Lemma _initialize_fit_params_frame X y s :
  let s' := _initialize_fit_params X y s in
  same_hyper_parameters s s'
  /\ n_estimators s' = n_estimators s
  /\ selection_history_ s' = selection_history_ s
  /\ score_history_ s' = score_history_ s
  /\ preprocessor_ s' = preprocessor_ s
  /\ _random_generator s' = _random_generator s
  /\ _is_fitted s' = _is_fitted s
  /\ _n s' = np.ncols (values X)
  /\ _m s' = np.nrows (values X)
  /\ _selected_count_matrix s' = np.zeros2 (np.ncols (values X)) (np.ncols (values X))
  /\ _regressors s' = replicate (np.ncols (values X)) []
  /\ (feature_names_in_ s <> None -> feature_names_in_ s' = feature_names_in_ s)
  /\ (output_name s <> None -> output_name s' = output_name s)
  /\ (feature_names_in_ s = None ->
      feature_names_in_ s' =
        Some match columns X with
             | Some labels => labels
             | None => (fun i => "feature_" +:+ pretty i) <$> seq 0 (np.ncols (values X))
             end).
Proof.
  unfold _initialize_fit_params, np.shape. cbn.
  destruct (feature_names_in_ s) eqn:Hn; cbn;
    destruct (output_name s) eqn:Ho; cbn; rewrite ?Hn, ?Ho; by split_and!.
Qed.


Lemma _fit_arguments_inv X y validation_set s X_train y_train X_val y_val s0 :
  _fit_arguments X y validation_set s = (X_train, y_train, X_val, y_val, s0) ->
  exists X1 y1 p,
    s0 = set_preprocessor_ p (_initialize_fit_params X1 y1 s)
    /\ (forall Xv yv, validation_set = Some (Xv, yv) -> X1 = X /\ y1 = y).
Proof.
  unfold _fit_arguments. intros Hargs.
  destruct (match validation_set with
            | Some (X_val, y_val) => (X, X_val, y, y_val)
            | None => train_test_split X y (validation_fraction s) (random_state s)
            end) as [[[X1 Xv1] y1] yv1] eqn:Hsplit.
  destruct (fit_transform _ X1 _) as [p Xt]. simplify_eq.
  exists X1, y1, p. split; [done|]. intros Xv yv ->. by simplify_eq.
Qed.

(** ** C3: the count matrix *)




(** ** C1: early stopping *)

(** What [_fit] leaves alone: everything outside the rounds but the intercept
    and the round count. *)
Lemma _fit_frame X y X_val y_val s s' residual residual_valid :
  _fit X y X_val y_val s = Ok (s', residual, residual_valid) ->
  same_hyper_parameters s s'
  /\ feature_names_in_ s' = feature_names_in_ s
  /\ output_name s' = output_name s
  /\ preprocessor_ s' = preprocessor_ s
  /\ _n s' = _n s /\ _m s' = _m s
  /\ _is_fitted s' = _is_fitted s
  /\ length (score_history_ s') = length (score_history_ s)
  /\ length (selection_history_ s') = length (selection_history_ s).
Proof.
  intros Hfit. apply _fit_run in Hfit as (T & sT & _ & HT & _ & Hend).
  apply after_round_frame in HT as ((Hh & Hrest) & Hl1 & Hl2 & _).
  destruct_and!.
  destruct Hend as [(_ & _ & ->)|(_ & _ & ->)]; cbn in *; by split_and!.
Qed.

(** The first round from [1] on whose test succeeds is the last round run. *)
Lemma _fit_stops X y X_val y_val s s' residual residual_valid t :
  _fit X y X_val y_val s = Ok (s', residual, residual_valid) ->
  1 <= t < n_estimators s ->
  (forall t', 1 <= t' < t -> no_improvement t' s' = false) ->
  (no_improvement t s' = true ->
     n_estimators s' = t + 1
     /\ forall i, t < i ->
          score_history_ s' !! i = score_history_ s !! i
          /\ selection_history_ s' !! i = selection_history_ s !! i)
  /\ (no_improvement t s' = false ->
      t + 1 < n_estimators s -> t + 1 < n_estimators s').
Proof.
  intros Hfit Ht Hbefore'.
  apply _fit_run in Hfit as (T & sT & HT & HsT & Hbefore & Hend).
  pose proof (after_round_frame _ _ _ _ _ _ _ _ _ HsT)
    as ((_ & Hn & _) & _ & _ & _ & Hafter). cbn in Hn.
  destruct Hend as [(HN & Hlast & ->)|(HT1 & Hlast & ->)]; cbn.
  - assert (t <= T) as Hle by lia. split.
    + intros Hstop. destruct (decide (t = T)) as [->|Hne].
      * rewrite Hlast in Hstop by lia. done.
      * rewrite Hbefore in Hstop by lia. done.
    + lia.
  - destruct (Nat.lt_trichotomy t T) as [Hlt|[->|Hgt]].
    + split; [|lia]. intros Hstop. rewrite Hbefore in Hstop by lia. done.
    + split; [|congruence]. intros _. split; [done|]. by apply Hafter.
    + rewrite Hbefore' in Hlast by lia. done.
Qed.


(** C1, amended.  The stopping test is made after round [t] only when
    [t >= n_iter_no_change], and it reads the validation scores of the
    [n_iter_no_change] rounds before round [t] (rounds [t - k], ..., [t - 1]),
    not the score of round [t] itself.  In a fit that reaches round [t]: if
    those scores never decrease from one round to the next, the loop is left
    with [n_estimators = t + 1] and no later round is recorded; otherwise the
    loop goes on to round [t + 1].  [fit] then cuts the selection history to
    [n_estimators] entries. *)
Theorem early_stopping_law :
  (forall X y X_val y_val s s' residual residual_valid t,
     _fit X y X_val y_val s = Ok (s', residual, residual_valid) ->
     1 <= t < n_estimators s ->
     (forall t', 1 <= t' < t ->
        ~ (n_iter_no_change s <= t'
           /\ window_nondecreasing s' (t' - n_iter_no_change s) t')) ->
     (n_iter_no_change s <= t /\ window_nondecreasing s' (t - n_iter_no_change s) t ->
        n_estimators s' = t + 1
        /\ forall i, t < i ->
             score_history_ s' !! i = score_history_ s !! i
             /\ selection_history_ s' !! i = selection_history_ s !! i)
     /\ (~ (n_iter_no_change s <= t
            /\ window_nondecreasing s' (t - n_iter_no_change s) t) ->
         t + 1 < n_estimators s -> t + 1 < n_estimators s'))
  /\ (forall X y validation_set s s'',
        fit X y validation_set s = Ok s'' ->
        exists X_train y_train X_val y_val s0 s' residual residual_valid,
          _fit_arguments X y validation_set s = (X_train, y_train, X_val, y_val, s0)
          /\ _fit X_train y_train X_val y_val s0 = Ok (s', residual, residual_valid)
          /\ n_estimators s0 = n_estimators s
          /\ n_iter_no_change s0 = n_iter_no_change s
          /\ n_estimators s'' = n_estimators s'
          /\ selection_history_ s'' = take (n_estimators s') (selection_history_ s')).
Proof.
  split.
  - intros X y X_val y_val s s' residual residual_valid t Hfit Ht Hbefore.
    destruct (_fit_frame _ _ _ _ _ _ _ _ Hfit) as (Hh & _).
    destruct Hh as (_ & _ & _ & _ & Hk & _).
    assert (forall u, no_improvement u s' = true <->
              n_iter_no_change s <= u
              /\ window_nondecreasing s' (u - n_iter_no_change s) u) as Htest.
    { intros u. by rewrite no_improvement_window, Hk. }
    destruct (_fit_stops _ _ _ _ _ _ _ _ t Hfit Ht) as [Hstop Hgo].
    { intros t' Ht'. apply not_true_is_false. rewrite Htest. by apply Hbefore. }
    split.
    + intros Hw. apply Hstop. by apply Htest.
    + intros Hw. apply Hgo. apply not_true_is_false. by rewrite Htest.
  - intros X y validation_set s s'' Hfit.
    apply fit_inv in Hfit as (Xt & yt & Xv & yv & s0 & s1 & r & rv & fixed & sn
                              & Hargs & Hfit & _ & _ & ->).
    exists Xt, yt, Xv, yv, s0, s1, r, rv. split_and!; try done.
    + apply _fit_arguments_inv in Hargs as (X1 & y1 & p & -> & _).
      by destruct (_initialize_fit_params_frame X1 y1 s) as (_ & ? & _).
    + apply _fit_arguments_inv in Hargs as (X1 & y1 & p & -> & _).
      by destruct (_initialize_fit_params_frame X1 y1 s)
        as ((_ & _ & _ & _ & ? & _) & _).
Qed.


(** ** C8 and C4: the selection rule and the redundancy term *)







(** ** C2: row subsampling *)

(** C2, amended.  A round asks the generator of the object once, for [_m]
    draws, and keeps the new generator state.  The mask made of the draws is
    applied to the feature column and the residual after both were
    reordered by the (cached) sort order of the selected feature: the sample
    at sorted position [j], which is row [index[j]] of the data, is given to
    the weak learner iff [draws[j] <= row_subsample]. *)
Theorem row_subsampling X y redundancy t X_val y_val s s' y' y_val' :
  _boost X y redundancy t X_val y_val s = Ok (s', y', y_val') ->
  exists f draws X_selected index X_sorted y_sorted estimators,
    selection_history_ s' !! t = Some f
    /\ random (_random_generator s) (_m s) = (draws, _random_generator s')
    /\ length draws = length index
    /\ np.column X f = Ok X_selected
    /\ (_indexing_cache s !! f = Some (Some index)
        \/ (_indexing_cache s !! f = Some None /\ index = np.argsort X_selected))
    /\ length X_sorted = length index /\ length y_sorted = length index
    /\ (forall j i, index !! j = Some i ->
          X_sorted !! j = X_selected !! i /\ y_sorted !! j = y !! i)
    /\ _regressors s !! f = Some estimators
    /\ _regressors s' !! f
       = Some (estimators
                 ++ [tree_fit (tree_parameters_of s)
                       (kept (row_subsample s) draws X_sorted)
                       (kept (row_subsample s) draws y_sorted)]).
Proof.
  intros Hb. apply _boost_inv in Hb
    as (f & C1 & C2 & Xs & ix & dr & Xso & yso & Xf & yf & Xvs & est & Hb).
  cbn zeta in Hb.
  destruct Hb as (_ & Hlt & Hsel & _ & _ & _ & Hcol & Hcache & HXs & Hys & Hdraw
                  & HXf & Hyf & _ & _ & _ & _ & _ & Hest & Hreg & _).
  apply take_mask_kept in HXf as [HlenX ->]. apply take_mask_kept in Hyf as [_ ->].
  apply take_index_lookup in HXs as [HlX HX]. apply take_index_lookup in Hys as [Hly Hy].
  exists f, dr, Xs, ix, Xso, yso, est. split_and!; try done.
  - by rewrite Hsel, list_lookup_insert_eq.
  - congruence.
  - destruct Hcache as [[? _]|(? & ? & _)]; eauto.
  - intros j i Hj. split; [by apply HX | by apply Hy].
  - rewrite Hreg, list_lookup_insert_eq; [done|]. by eapply lookup_lt_Some.
Qed.


(** ** C7: the score history *)

Lemma _fit_arguments_frame X y validation_set s X_train y_train X_val y_val s0 :
  _fit_arguments X y validation_set s = (X_train, y_train, X_val, y_val, s0) ->
  same_hyper_parameters s s0
  /\ n_estimators s0 = n_estimators s
  /\ selection_history_ s0 = selection_history_ s
  /\ score_history_ s0 = score_history_ s
  /\ _is_fitted s0 = _is_fitted s
  /\ (feature_names_in_ s <> None -> feature_names_in_ s0 = feature_names_in_ s)
  /\ (feature_names_in_ s = None -> feature_names_in_ s0 <> None)
  /\ (output_name s <> None -> output_name s0 = output_name s).
Proof.
  intros Hargs. apply _fit_arguments_inv in Hargs as (X1 & y1 & p & -> & _).
  destruct (_initialize_fit_params_frame X1 y1 s)
    as (? & ? & ? & ? & _ & _ & ? & _ & _ & _ & _ & ? & ? & Hfill).
  split_and!; try done. intros Hunset.
  change (feature_names_in_ (_initialize_fit_params X1 y1 s) <> None).
  by rewrite (Hfill Hunset).
Qed.


(** X14.  [fit] cuts the selection history to the rounds that were run but
    not the score history: it keeps its allocated length, and from position
    [n_estimators] on it holds what was there before the fit (for a fresh
    object, what [np.empty] left there), square-rooted with the rest. *)
Lemma score_history_tail X y validation_set s s'' i :
  fit X y validation_set s = Ok s'' ->
  1 <= n_estimators s ->
  n_estimators s'' <= i ->
  length (score_history_ s'') = length (score_history_ s)
  /\ score_history_ s'' !! i = prod_map sqrt sqrt <$> score_history_ s !! i.
Proof.
  intros Hfit HN Hi.
  apply fit_inv in Hfit as (Xt & yt & Xv & yv & s0 & s1 & r & rv & fixed & sn
                            & Hargs & Hfit & _ & _ & ->).
  destruct (_fit_arguments_frame _ _ _ _ _ _ _ _ _ Hargs) as (_ & Hn0 & _ & Hs0 & _).
  cbn in *. rewrite length_fmap, list_lookup_fmap, <- Hs0.
  pose proof (_fit_run _ _ _ _ _ _ _ _ Hfit) as (T & sT & HT & HsT & _ & Hend).
  pose proof (after_round_frame _ _ _ _ _ _ _ _ _ HsT)
    as ((_ & Hn & _) & Hl & _ & _ & Hafter). cbn in Hn.
  assert (score_history_ s1 = score_history_ sT /\ T < i) as [-> Hlt].
  { destruct Hend as [(? & _ & ->)|(_ & _ & ->)]; cbn in *; split; try done; lia. }
  split; [done|]. by destruct (Hafter i Hlt) as [-> _].
Qed.


(** ** C10: what [fit] does to the configuration *)



(** ** C9: the not-fitted guard *)

Lemma mapM_cons {A B} (f : A -> result B) x l :
  mapM f (x :: l) = y ← f x; k ← mapM f l; Ok (y :: k).
Proof. done. Qed.

Lemma mapM_Raise {A B} (f : A -> result B) l e :
  mapM f l = Raise e -> exists x, x ∈ l /\ f x = Raise e.
Proof.
  induction l as [|x l IH]; cbn; [done|].
  destruct (f x) as [b|e'] eqn:Hx; cbn.
  - destruct (mapM f l) as [k|e'] eqn:Hl; cbn; [done|]. intros [= ->].
    destruct IH as (x' & ? & ?); [done|]. exists x'. split; [by right|done].
  - intros [= ->]. exists x. split; [by left|done].
Qed.

Lemma column_step_Raise (M : np.matrix) (ic : nat * composite) e :
  (col ← np.column M ic.1; Ok (composite_predict ic.2 col)) = Raise e ->
  e = IndexError.
Proof. unfold np.column. case_decide; cbn; congruence. Qed.

(** C9.  [predict], [contribution_frame], [explain] and
    [plot_model_information] raise the not-fitted error exactly when the
    flag [_is_fitted] is not set; it is not set on a constructed object,
    the rounds of a fit do not touch it, and a completed [fit] sets it. *)
Theorem not_fitted_guard :
  (forall X s, predict X s = Raise NotFittedError <-> _is_fitted s = false)
  /\ (forall X s, contribution_frame X s = Raise NotFittedError <-> _is_fitted s = false)
  /\ (forall X s, explain X s = Raise NotFittedError <-> _is_fitted s = false)
  /\ (forall s, plot_model_information s = Raise NotFittedError <-> _is_fitted s = false)
  /\ (forall a s, __init__ a = Ok s -> _is_fitted s = false)
  /\ (forall X y X_val y_val s t st r rv,
        after_round X y X_val y_val s t = Ok (st, r, rv) -> _is_fitted st = _is_fitted s)
  /\ (forall X y validation_set s s'',
        fit X y validation_set s = Ok s'' -> _is_fitted s'' = true).
Proof.
  split_and!.
  - intros X s. unfold predict. destruct (_is_fitted s); cbn; [|done].
    split; [|done].
    destruct (mapM _ _) as [predictions|e] eqn:Hm; cbn.
    + unfold np.sum_axis0. destruct predictions as [|v vs]; [done|].
      by destruct (forallb _ _).
    + apply mapM_Raise in Hm as ([i c] & _ & He). apply column_step_Raise in He.
      congruence.
  - intros X s. unfold contribution_frame. destruct (_is_fitted s); cbn; [|done].
    split; [|done]. unfold contribution_array.
    destruct (mapM _ _) as [predictions|e] eqn:Hm; cbn.
    + case_decide; cbn; [|done].
      unfold np.add_strings. case_decide; cbn.
      * unfold DataFrame. by case_decide.
      * destruct (names s) as [|? [|? ?]]; cbn; unfold DataFrame; by case_decide.
    + apply mapM_Raise in Hm as ([i c] & _ & He). apply column_step_Raise in He.
      congruence.
  - intros X s. unfold explain. by destruct (_is_fitted s).
  - intros s. unfold plot_model_information. by destruct (_is_fitted s).
  - intros a s. unfold __init__. destruct (Args.validators a); [|done].
    by intros [= <-].
  - intros X y X_val y_val s t st r rv Ht.
    by apply after_round_frame in Ht as ((_ & _ & _ & _ & _ & _ & _ & _ & _ & _ & ?) & _).
  - intros X y validation_set s s'' Hfit.
    by apply fit_inv in Hfit as (Xt & yt & Xv & yv & s0 & s1 & r & rv & fixed & sn
                                 & _ & _ & _ & _ & ->).
Qed.


(** ** C6: the shape of a prediction *)

Lemma enumerate_lookup {A} (l : list A) i :
  enumerate l !! i = (fun x => (i, x)) <$> l !! i.
Proof.
  unfold enumerate. rewrite lookup_zip_with.
  destruct (l !! i) as [x|] eqn:Hx; cbn.
  - rewrite lookup_seq_lt by (by eapply lookup_lt_Some). done.
  - by destruct (seq 0 (length l) !! i).
Qed.

Lemma elem_of_enumerate {A} (l : list A) i x :
  (i, x) ∈ enumerate l <-> l !! i = Some x.
Proof.
  rewrite list_elem_of_lookup. split.
  - intros [j Hj]. rewrite enumerate_lookup in Hj.
    destruct (l !! j) eqn:?; by simplify_eq/=.
  - intros Hx. exists i. by rewrite enumerate_lookup, Hx.
Qed.

Lemma mapM_Ok_Forall {A B} (f : A -> result B) (P : B -> Prop) l :
  (forall x, x ∈ l -> exists y, f x = Ok y /\ P y) ->
  exists k, mapM f l = Ok k /\ Forall P k /\ length k = length l.
Proof.
  induction l as [|x l IH]; intros Hall; cbn.
  - by exists [].
  - destruct (Hall x) as (y & Hy & HP); [by left|].
    destruct IH as (k & Hk & HPk & Hlen); [intros; apply Hall; by right|].
    exists (y :: k). rewrite Hy; cbn. rewrite Hk; cbn.
    split_and!; [done|by constructor|by rewrite Hlen].
Qed.

Lemma foldl_zip_with_length n (vs : list np.vector) (acc : np.vector) :
  length acc = n -> Forall (fun v => length v = n) vs ->
  length (foldl (zip_with Qplus) acc vs) = n.
Proof.
  revert acc. induction vs as [|v vs IH]; intros acc Hacc Hvs; cbn; [done|].
  inversion Hvs; subst. apply IH; [|done]. rewrite length_zip_with. lia.
Qed.

Lemma sum_axis0_vector n v (vs : list np.vector) :
  Forall (fun w => length w = n) (v :: vs) ->
  exists total, np.sum_axis0 (v :: vs) = Ok (np.Vector total) /\ length total = n.
Proof.
  intros Hall. inversion Hall as [|? ? Hv Hvs]; subst. unfold np.sum_axis0.
  assert (forallb (fun w => bool_decide (length w = length v)) vs = true) as ->.
  { apply forallb_forall. intros w Hw%list_elem_of_In. apply bool_decide_eq_true.
    rewrite Forall_forall in Hvs. by apply Hvs. }
  eexists. split; [done|]. apply foldl_zip_with_length; [|done].
  unfold np.zeros. by rewrite length_replicate.
Qed.

(** A round puts a learner in the list of the feature it selects and
    empties no list. *)
Lemma _boost_regressors X y redundancy t X_val y_val s s' y' y_val' :
  _boost X y redundancy t X_val y_val s = Ok (s', y', y_val') ->
  length (_regressors s') = length (_regressors s)
  /\ (exists f l, selection_history_ s' !! t = Some f
        /\ _regressors s' !! f = Some l /\ l <> [])
  /\ forall i l, _regressors s !! i = Some l -> l <> [] ->
       exists l', _regressors s' !! i = Some l' /\ l' <> [].
Proof.
  intros Hb. apply _boost_inv in Hb
    as (f & C1 & C2 & Xs & ix & dr & Xso & yso & Xf & yf & Xvs & est & Hb).
  cbn zeta in Hb.
  destruct Hb as (_ & Hlt & Hsel & _ & _ & _ & _ & _ & _ & _ & _
                  & _ & _ & _ & _ & _ & _ & _ & Hest & Hreg & _).
  pose proof (lookup_lt_Some _ _ _ Hest) as Hf.
  rewrite Hreg, Hsel, length_insert. split_and!; [done| |].
  - eexists f, _. rewrite !list_lookup_insert_eq by done.
    split_and!; [done..|]. by destruct est.
  - intros i l Hi Hl. destruct (decide (i = f)) as [->|Hne].
    + eexists. rewrite list_lookup_insert_eq by done. split; [done|]. by destruct est.
    + exists l. by rewrite list_lookup_insert_ne.
Qed.

Lemma after_round_regressors X y X_val y_val s t st r rv :
  after_round X y X_val y_val s t = Ok (st, r, rv) ->
  length (_regressors st) = length (_regressors s)
  /\ exists f l, selection_history_ st !! 0 = Some f
       /\ _regressors st !! f = Some l /\ l <> [].
Proof.
  revert st r rv. induction t as [|t IH]; intros st r rv Ht.
  - cbn in Ht. by apply _boost_regressors in Ht as (? & ? & _).
  - apply after_round_S in Ht as ([[s1 r1] rv1] & buffer & Ht & _ & Hr).
    apply round_inv in Hr as (red & _ & Hb).
    destruct (IH _ _ _ Ht) as (Hlen & f & l & Hf & Hl & Hne).
    pose proof (_boost_histories _ _ _ _ _ _ _ _ _ _ Hb)
      as (_ & _ & _ & _ & _ & _ & Hother).
    apply _boost_regressors in Hb as (Hlen' & _ & Hkeep).
    split; [congruence|]. destruct (Hkeep _ _ Hl Hne) as (l' & Hl' & Hne').
    exists f, l'. split_and!; try done.
    destruct (Hother 0) as [_ ->]; [lia|done].
Qed.

(** The composites of a fitted object: one per feature list (as far as
    there are names), with the learners of that list. *)
Lemma fit_regressors X y validation_set s s'' :
  fit X y validation_set s = Ok s'' ->
  1 <= n_estimators s ->
  length (regressors_ s'') <= _n s''
  /\ exists f c, regressors_ s'' !! f = Some c /\ is_selected c = true.
Proof.
  intros Hfit HN.
  apply fit_inv in Hfit as (Xt & yt & Xv & yv & s0 & s1 & r & rv & fixed & sn
                            & Hargs & Hfit & Hfixed & Hnames & ->).
  destruct (_fit_arguments_frame _ _ _ _ _ _ _ _ _ Hargs) as (_ & Hn0 & _).
  apply _fit_arguments_inv in Hargs as (X1 & y1 & p & -> & _).
  destruct (_initialize_fit_params_frame X1 y1 s)
    as (_ & _ & _ & _ & _ & _ & _ & Hn & _ & _ & Hregs & _).
  pose proof (_fit_frame _ _ _ _ _ _ _ _ Hfit) as (_ & _ & _ & _ & Hn1 & _).
  pose proof (_fit_run _ _ _ _ _ _ _ _ Hfit) as (T & sT & HT & HsT & _ & Hend).
  pose proof (after_round_regressors _ _ _ _ _ _ _ _ _ HsT)
    as (Hlen & f & l & Hf & Hl & Hne).
  pose proof (after_round_frame _ _ _ _ _ _ _ _ _ HsT) as ((_ & HnT & _) & _).
  assert (_regressors s1 = _regressors sT
          /\ selection_history_ s1 = selection_history_ sT
          /\ 1 <= n_estimators s1) as (HR & HS & HN1).
  { destruct Hend as [(? & _ & ->)|(_ & _ & ->)]; cbn in *;
      split_and!; try done; lia. }
  rewrite HR in Hfixed. rewrite HS in Hnames. clear HR HS.
  apply mapM_Ok in Hfixed. apply mapM_Ok in Hnames.
  pose proof (Forall2_length _ _ _ Hfixed) as Hlenf.
  unfold enumerate in Hlenf at 1.
  rewrite length_zip_with, length_seq, Nat.min_id, length_fmap, length_zip_with in Hlenf.
  cbn. rewrite length_fmap. split.
  - change (_regressors (set_preprocessor_ p (_initialize_fit_params X1 y1 s)))
      with (_regressors (_initialize_fit_params X1 y1 s)) in Hlen.
    rewrite Hregs, length_replicate in Hlen.
    change (_n (set_preprocessor_ p (_initialize_fit_params X1 y1 s)))
      with (_n (_initialize_fit_params X1 y1 s)) in Hn1. lia.
  - assert (take (n_estimators s1) (selection_history_ sT) !! 0 = Some f) as Hf0
      by (rewrite lookup_take_lt by lia; done).
    destruct (Forall2_lookup_l _ _ _ _ _ Hnames Hf0) as (name & _ & Hname%getitem_Ok).
    set (c0 := sum_tree_regressors l name (output_name s1)).
    assert (enumerate ((fun en => sum_tree_regressors en.1 en.2 (output_name s1))
                         <$> zip (_regressors sT) (names s1)) !! f = Some (f, c0)) as Hc0.
    { rewrite enumerate_lookup, list_lookup_fmap, lookup_zip_with, Hl; cbn.
      by rewrite Hname. }
    destruct (Forall2_lookup_l _ _ _ _ _ Hfixed Hc0) as ([c mu] & Hc & Hstep).
    apply bind_Ok in Hstep as (col & _ & [= <- _]).
    exists f, (fix_bias c0 col).1. rewrite list_lookup_fmap, Hc. split; [done|].
    unfold is_selected; cbn. by destruct l.
Qed.


Lemma fit_is_fitted X y validation_set s s'' :
  fit X y validation_set s = Ok s'' -> _is_fitted s'' = true.
Proof.
  intros Hfit.
  by apply fit_inv in Hfit as (Xt & yt & Xv & yv & s0 & s1 & r & rv & fixed & sn
                               & _ & _ & _ & _ & ->).
Qed.

(** C6.  For a fitted model and an input with the columns of the training
    data, [predict] returns a vector with one entry per row of the input.
    Some feature is always selected: round [0] of every fit puts a learner
    in the list of the feature it selects. *)
Theorem predict_length X y validation_set s s'' X' :
  fit X y validation_set s = Ok s'' ->
  1 <= n_estimators s ->
  _n s'' <= np.ncols (transform (preprocessor_ s'') X') ->
  np.nrows (transform (preprocessor_ s'') X') = np.nrows (values X') ->
  (exists f c, regressors_ s'' !! f = Some c /\ is_selected c = true)
  /\ exists v, predict X' s'' = Ok (np.Vector v) /\ length v = np.nrows (values X').
Proof.
  intros Hfit HN Hcols Hrows.
  destruct (fit_regressors _ _ _ _ _ Hfit HN) as (Hlen & f & c & Hc & Hsel).
  split; [eauto|].
  unfold predict. rewrite (fit_is_fitted _ _ _ _ _ Hfit). cbn [negb].
  set (X_arr := transform (preprocessor_ s'') X') in *.
  set (chosen := filter (fun ic : nat * composite => is_selected ic.2 = true)
                   (enumerate (regressors_ s''))).
  destruct (mapM_Ok_Forall
              (fun ic : nat * composite =>
                 col ← np.column X_arr ic.1; Ok (composite_predict ic.2 col))
              (fun v => length v = np.nrows X_arr) chosen)
    as (predictions & -> & Hall & Hlenp).
  { intros [i ci] [_ Hin%elem_of_enumerate]%list_elem_of_filter.
    apply lookup_lt_Some in Hin. unfold np.column. cbn.
    rewrite decide_True by lia. cbn. eexists. split; [done|].
    unfold composite_predict. by rewrite !length_fmap. }
  assert ((f, c) ∈ chosen) as Hin.
  { apply list_elem_of_filter. split; [done|]. by apply elem_of_enumerate. }
  destruct chosen as [|ic chosen']; [by apply elem_of_nil in Hin|].
  destruct predictions as [|v vs]; [done|]. cbn [mbind result_bind].
  destruct (sum_axis0_vector _ _ _ Hall) as (total & -> & Htotal).
  cbn [mbind result_bind np.add_scalar].
  eexists. split; [done|]. rewrite length_fmap. congruence.
Qed.


(** Without a selected regressor [np.sum([], axis=0)] is the scalar [0.0]
    and [predict] returns a scalar; by [predict_length] no completed fit
    leaves such an object. *)
Lemma predict_without_selection X' s :
  _is_fitted s = true ->
  Forall (fun c => is_selected c = false) (regressors_ s) ->
  predict X' s = Ok (np.Scalar (intercept_ s + 0)).
Proof.
  intros Hfitted Hnone. unfold predict. rewrite Hfitted. cbn [negb].
  assert (filter (fun ic : nat * composite => is_selected ic.2 = true)
            (enumerate (regressors_ s)) = []) as ->; [|done].
  apply elem_of_nil_inv. intros [i c] [Hsel Hin%elem_of_enumerate]%list_elem_of_filter.
  rewrite Forall_forall in Hnone. cbn in Hsel.
  rewrite (Hnone c (list_elem_of_lookup_2 _ _ _ Hin)) in Hsel. done.
Qed.

(** ** C5: the contribution frame *)

(** The frame can only be built when there is one more name than features:
    [["intercept"] + names] adds the strings elementwise, so it has as many
    labels as there are names, and the array has [_n + 1] columns. *)
Lemma contribution_frame_Ok_names X s frame :
  contribution_frame X s = Ok frame -> length (names s) = S (_n s).
Proof.
  unfold contribution_frame. destruct (_is_fitted s); cbn; [|done].
  intros (contribution & Hc & Hf)%bind_Ok.
  apply bind_Ok in Hf as (labels & Hl & Hf).
  unfold contribution_array in Hc.
  apply bind_Ok in Hc as (predictions & _ & Hc).
  case_decide; [|done]. injection Hc as <-.
  unfold DataFrame in Hf. case_decide as Hlen; [|done]. cbn [np.ncols] in Hlen.
  unfold np.add_strings in Hl. case_decide as H1.
  - injection Hl as <-. destruct (names s); cbn in *; lia.
  - injection Hl as <-. rewrite length_fmap in Hlen. lia.
Qed.

Lemma fit_names X y validation_set s s'' :
  fit X y validation_set s = Ok s'' ->
  feature_names_in_ s = None ->
  well_labelled (training_data X y validation_set s) ->
  length (names s'') = _n s''.
Proof.
  intros Hfit Hunset Hwf.
  apply fit_inv in Hfit as (Xt & yt & Xv & yv & s0 & s1 & r & rv & fixed & sn
                            & Hargs & Hfit & _ & _ & ->).
  destruct (_fit_frame _ _ _ _ _ _ _ _ Hfit) as (_ & Hnames & _ & _ & Hn & _).
  unfold names. cbn. rewrite Hnames, Hn. clear Hfit Hnames Hn.
  unfold _fit_arguments, training_data in *.
  destruct (match validation_set with
            | Some (X_val, y_val) => (X, X_val, y, y_val)
            | None => train_test_split X y (validation_fraction s) (random_state s)
            end) as [[[X1 Xv1] y1] yv1] eqn:Hsplit.
  assert (well_labelled X1) as Hwf1.
  { destruct validation_set as [[? ?]|]; simplify_eq; [done|]. by rewrite Hsplit in Hwf. }
  destruct (fit_transform _ X1 _) as [p X_train]. simplify_eq.
  destruct (_initialize_fit_params_frame X1 y1 s)
    as (_ & _ & _ & _ & _ & _ & _ & Hn & _ & _ & _ & _ & _ & Hfill).
  change (length (default [] (feature_names_in_ (_initialize_fit_params X1 y1 s)))
          = _n (_initialize_fit_params X1 y1 s)).
  rewrite (Hfill Hunset), Hn. cbn. unfold well_labelled in Hwf1.
  destruct (columns X1); [done|]. by rewrite length_fmap, length_seq.
Qed.

(** *** The numbers behind the frame

    The array that [contribution_frame] fills before it fails on the labels
    does satisfy the decomposition: each of its rows starts with the
    intercept, and the prediction for the row is the intercept plus the
    entries of the selected features. *)

Lemma foldl_Qplus_sum (l : np.vector) (a : Q) : (foldl Qplus a l == a + np.sum l)%Q.
Proof.
  revert a. induction l as [|x l IH]; intros a; cbn; [ring|].
  rewrite IH. change (foldr Qplus 0%Q l) with (np.sum l). ring.
Qed.

Lemma foldl_zip_with_lookup n r (vs : list np.vector) : forall acc : np.vector,
  length acc = n -> Forall (fun v => length v = n) vs -> r < n ->
  foldl (zip_with Qplus) acc vs !! r
  = Some (foldl Qplus (default 0%Q (acc !! r)) ((fun v => default 0%Q (v !! r)) <$> vs)).
Proof.
  induction vs as [|v vs IH]; intros acc Hacc Hvs Hr; cbn.
  - destruct (lookup_lt_is_Some_2 acc r) as [x Hx]; [lia|]. by rewrite Hx.
  - inversion Hvs as [|? ? Hv Hvs']; subst.
    rewrite IH; [|rewrite length_zip_with; lia|done|done].
    rewrite lookup_zip_with.
    destruct (lookup_lt_is_Some_2 acc r) as [x Hx]; [lia|].
    destruct (lookup_lt_is_Some_2 v r) as [z Hz]; [lia|].
    by rewrite Hx, Hz.
Qed.

(** The predictions of the selected regressors are those of all regressors,
    filtered by the flags. *)
Lemma mapM_selected (M : np.matrix) (regs : list composite) : forall k P,
  mapM (fun ic : nat * composite =>
          col ← np.column M ic.1; Ok (composite_predict ic.2 col))
    (zip (seq k (length regs)) regs) = Ok P ->
  length P = length regs
  /\ Forall (fun v => length v = np.nrows M) P
  /\ mapM (fun ic : nat * composite =>
             col ← np.column M ic.1; Ok (composite_predict ic.2 col))
       (filter (fun ic : nat * composite => is_selected ic.2 = true)
          (zip (seq k (length regs)) regs))
     = Ok (omap (fun cv : composite * np.vector =>
                   if is_selected cv.1 then Some cv.2 else None) (zip regs P)).
Proof.
  induction regs as [|c regs IH]; intros k P HP.
  - change (Ok [] = Ok P) in HP. injection HP as <-. by split_and!.
  - cbn [length seq zip_with] in HP |- *. rewrite mapM_cons in HP.
    apply bind_Ok in HP as (v & Hv & HP).
    apply bind_Ok in HP as (P' & HP' & [= <-]).
    destruct (IH _ _ HP') as (Hlen & Hall & Hsel).
    assert (length v = np.nrows M) as Hlv.
    { apply bind_Ok in Hv as (col & Hcol & [= <-]).
      unfold np.column in Hcol. case_decide; [|done]. injection Hcol as <-.
      unfold composite_predict. by rewrite !length_fmap. }
    split_and!; [cbn; lia | by constructor |].
    rewrite filter_cons. cbn [snd omap list_omap].
    destruct (is_selected c) eqn:Hc.
    + rewrite decide_True by done. rewrite mapM_cons, Hv.
      cbn [mbind result_bind]. rewrite Hsel. cbn [mbind result_bind fst].
      by rewrite Hc.
    + rewrite decide_False by done. rewrite Hsel. cbn [fst]. by rewrite Hc.
Qed.

Lemma omap_selected_fmap (f : np.vector -> Q) (regs : list composite) : forall P,
  omap (fun cx : composite * Q => if is_selected cx.1 then Some cx.2 else None)
    (zip regs (f <$> P))
  = f <$> omap (fun cv : composite * np.vector =>
                  if is_selected cv.1 then Some cv.2 else None) (zip regs P).
Proof.
  induction regs as [|c regs IH]; intros [|v P]; cbn; try done.
  rewrite IH. by destruct (is_selected c).
Qed.

(** X16.  The array that [contribution_frame] fills before it builds the
    frame: whenever it can be filled, [predict] returns a value for the same
    input, every row of the array starts with the intercept, and the
    prediction for a row is the intercept plus the entries of the row that
    belong to selected features. *)
Lemma contribution_array_decomposition X' s M :
  _is_fitted s = true ->
  contribution_array X' s = Ok M ->
  exists a, predict X' s = Ok a
    /\ forall r row, np.rows M !! r = Some row ->
         row !! 0 = Some (intercept_ s)
         /\ exists v,
              match a with
              | np.Vector p => p !! r = Some v
              | np.Scalar c => v = c
              end
              /\ (v == intercept_ s + np.sum (selected_entries s row))%Q.
Proof.
  intros Hfitted HM. unfold contribution_array in HM.
  apply bind_Ok in HM as (P & HP & HM). case_decide as Hshape; [|done].
  injection HM as <-. destruct Hshape as [HlenP Hrows].
  unfold enumerate in HP.
  destruct (mapM_selected _ _ _ _ HP) as (_ & Hall & Hsel).
  unfold predict. rewrite Hfitted. cbn [negb]. unfold enumerate. rewrite Hsel.
  cbn [mbind result_bind].
  set (chosen := omap _ (zip (regressors_ s) P)) in *.
  assert (Forall (fun v => length v = np.nrows (transform (preprocessor_ s) X')) chosen)
    as Hchosen.
  { apply Forall_forall. intros v (cv & Hin & Hv)%list_elem_of_omap.
    destruct (is_selected cv.1); [|done]. injection Hv as <-.
    rewrite Forall_forall in Hall. apply Hall.
    apply list_elem_of_lookup in Hin as [i Hi].
    apply lookup_zip_with_Some in Hi as (c & v & -> & _ & Hv).
    by eapply list_elem_of_lookup_2. }
  assert (forall r row,
            ((fun r0 => intercept_ s :: r0)
               <$> np.transpose (np.nrows (values X')) P) !! r = Some row ->
            r < np.nrows (values X')
            /\ row !! 0 = Some (intercept_ s)
            /\ selected_entries s row = (fun v => default 0%Q (v !! r)) <$> chosen)
    as Hrow.
  { intros r row Hr. rewrite list_lookup_fmap in Hr. unfold np.transpose in Hr.
    rewrite list_lookup_fmap in Hr.
    destruct (seq 0 (np.nrows (values X')) !! r) as [r'|] eqn:Hseq; [|done].
    apply lookup_seq in Hseq as [-> Hlt]. cbn in Hr. injection Hr as <-.
    split_and!; [done..|]. unfold selected_entries. cbn [tail].
    apply omap_selected_fmap. }
  destruct chosen as [|v0 vs] eqn:Hch.
  - eexists. split; [done|]. intros r row Hr. cbn in Hr.
    destruct (Hrow r row Hr) as (_ & H0 & ->). split; [done|].
    eexists. split; [done|]. cbn. ring.
  - destruct (sum_axis0_vector _ _ _ Hchosen) as (total & Htotal & Hlen).
    pose proof Htotal as Htotal'. unfold np.sum_axis0 in Htotal'.
    destruct (forallb _ vs); [|done]. injection Htotal' as Htot.
    rewrite Htotal. cbn [mbind result_bind np.add_scalar].
    eexists. split; [done|]. intros r row Hr. cbn in Hr.
    destruct (Hrow r row Hr) as (Hlt & H0 & ->). split; [done|].
    inversion Hchosen as [|? ? Hv0 _]; subst v0 vs.
    assert (total !! r
            = Some (foldl Qplus 0%Q ((fun v => default 0%Q (v !! r)) <$> (x :: l))))
      as Htr.
    { rewrite <- Htot.
      pose proof (foldl_zip_with_lookup (np.nrows (transform (preprocessor_ s) X')) r
                    (x :: l) (np.zeros (length x))) as Hlk.
      refine (eq_trans (Hlk _ _ _) _);
        [unfold np.zeros; rewrite length_replicate; lia|done|lia|].
      unfold np.zeros. rewrite lookup_replicate_2 by lia. done. }
    eexists. rewrite list_lookup_fmap, Htr. split; [done|].
    rewrite foldl_Qplus_sum. ring.
Qed.

(** The composites of a fitted object are recentred sums of learner lists. *)
Lemma fit_composites X y validation_set s s'' i c :
  fit X y validation_set s = Ok s'' ->
  regressors_ s'' !! i = Some c ->
  exists l name output col, c = (fix_bias (sum_tree_regressors l name output) col).1.
Proof.
  intros Hfit Hc.
  apply fit_inv in Hfit as (Xt & yt & Xv & yv & s0 & s1 & r & rv & fixed & sn
                            & _ & _ & Hfixed & _ & ->).
  cbn in Hc. rewrite list_lookup_fmap in Hc.
  destruct (fixed !! i) as [[c' mu]|] eqn:Hi; [|done]. injection Hc as <-.
  apply mapM_Ok in Hfixed.
  destruct (Forall2_lookup_r _ _ _ _ _ Hfixed Hi) as ([j c0] & Hj & Hstep).
  apply bind_Ok in Hstep as (col & _ & [= <- _]).
  rewrite enumerate_lookup, list_lookup_fmap in Hj.
  destruct (zip (_regressors s1) (names s1) !! i) as [[l name]|]; [|done].
  cbn in Hj. injection Hj as _ <-.
  by exists l, name, (output_name s1), col.
Qed.

Lemma sum_zero (l : np.vector) : Forall (fun x => x == 0)%Q l -> (np.sum l == 0)%Q.
Proof.
  induction 1 as [|x l Hx _ IH]; cbn; [done|].
  change (foldr Qplus 0%Q l) with (np.sum l). rewrite Hx, IH. ring.
Qed.

(** Spec-modelled: the composite of a feature that was never selected is the
    zero function. *)
Lemma unselected_composite_zero X y validation_set s s'' i c x :
  fit X y validation_set s = Ok s'' ->
  regressors_ s'' !! i = Some c ->
  is_selected c = false ->
  (composite_at c x == 0)%Q.
Proof.
  intros Hfit Hc Hsel.
  destruct (fit_composites _ _ _ _ _ _ _ Hfit Hc) as (l & name & out & col & ->).
  unfold is_selected in Hsel. cbn in Hsel. destruct l; [|done].
  unfold composite_at, fix_bias, np.mean; cbn.
  assert (np.sum (composite_predict (sum_tree_regressors [] name out) col) == 0)%Q
    as ->.
  { apply sum_zero. unfold composite_predict. apply Forall_fmap, Forall_true.
    intros z. unfold composite_at; cbn. ring. }
  unfold Qdiv. ring.
Qed.

(** Spec-modelled: in the contribution array of a fitted object the column of
    a feature that was never selected is zero. *)
Lemma unselected_column_zero X y validation_set s s'' X' M r row i c :
  fit X y validation_set s = Ok s'' ->
  contribution_array X' s'' = Ok M ->
  np.rows M !! r = Some row ->
  regressors_ s'' !! i = Some c ->
  is_selected c = false ->
  exists x, row !! S i = Some x /\ (x == 0)%Q.
Proof.
  intros Hfit HM Hrow Hc Hsel. unfold contribution_array in HM.
  apply bind_Ok in HM as (P & HP & HM). case_decide as Hshape; [|done].
  injection HM as <-. cbn in Hrow. apply mapM_Ok in HP.
  assert (enumerate (regressors_ s'') !! i = Some (i, c)) as Hi
    by (by rewrite enumerate_lookup, Hc).
  destruct (Forall2_lookup_l _ _ _ _ _ HP Hi) as (v & Hv & Hstep).
  apply bind_Ok in Hstep as (col & _ & [= <-]).
  rewrite list_lookup_fmap in Hrow. unfold np.transpose in Hrow.
  rewrite list_lookup_fmap in Hrow.
  destruct (seq 0 (np.nrows (values X')) !! r) as [r'|] eqn:Hseq; [|done].
  cbn in Hrow. injection Hrow as <-.
  change ((intercept_ s'' :: ?l) !! S i) with (l !! i).
  exists (default 0%Q (composite_predict c col !! r')). split.
  - by rewrite list_lookup_fmap, Hv.
  - unfold composite_predict. rewrite list_lookup_fmap.
    destruct (col !! r') as [z|]; cbn; [|done].
    by eapply unselected_composite_zero.
Qed.

(** C5: the code does not reach the law.  On a model fitted with the
    feature names left to [fit], [contribution_frame] raises for every
    input, after the fitted check: there is one label too few for the
    columns of the contribution array. *)
Theorem contribution_frame_raises X y validation_set s s'' X' :
  fit X y validation_set s = Ok s'' ->
  feature_names_in_ s = None ->
  well_labelled (training_data X y validation_set s) ->
  exists e, contribution_frame X' s'' = Raise e /\ e <> NotFittedError.
Proof.
  intros Hfit Hunset Hwf.
  pose proof (fit_names _ _ _ _ _ Hfit Hunset Hwf) as Hlen.
  pose proof (fit_is_fitted _ _ _ _ _ Hfit) as Hfitted.
  destruct (contribution_frame X' s'') as [frame|e] eqn:Hframe.
  - apply contribution_frame_Ok_names in Hframe. lia.
  - exists e. split; [done|]. intros ->.
    unfold contribution_frame in Hframe. rewrite Hfitted in Hframe. cbn in Hframe.
    destruct (contribution_array X' s'') as [M|e] eqn:HM; cbn in Hframe.
    + destruct (np.add_strings _ _) as [labels|e] eqn:Hl; cbn in Hframe.
      * unfold DataFrame in Hframe. by case_decide.
      * unfold np.add_strings in Hl. case_decide; [done|].
        by destruct (names s'') as [|? [|? ?]].
    + unfold contribution_array in HM.
      destruct (mapM _ _) as [predictions|e'] eqn:Hm; cbn [mbind result_bind] in HM.
      * case_decide; congruence.
      * apply mapM_Raise in Hm as ([i c] & _ & He). apply column_step_Raise in He.
        congruence.
Qed.


(** * Further properties of the code *)

(** ** Invariants of the loop and the two ends of [fit] *)

(** An invariant of the rounds: what holds before round [0] and is kept by
    every round holds after every round of the run. *)
Lemma after_round_invariant X y X_val y_val s
    (I : nat -> self * np.vector * np.vector -> Prop) :
  I 0 (set_intercept_ (np.mean y) s, np.sub_scalar y (np.mean y),
       np.sub_scalar y_val (np.mean y)) ->
  (forall t st r rv penalty out,
     I t (st, r, rv) -> _boost X r penalty t X_val rv st = Ok out -> I (S t) out) ->
  forall t out, after_round X y X_val y_val s t = Ok out -> I (S t) out.
Proof.
  intros Hbase Hstep. induction t as [|t IH]; intros out Ht.
  - cbn in Ht. by eapply Hstep.
  - apply after_round_S in Ht as ([[s1 r1] rv1] & buffer & Ht & _ & Hr).
    apply round_inv in Hr as (red & _ & Hb). eapply Hstep; [|done]. by apply IH.
Qed.

Lemma _fit_final X y X_val y_val s s' residual residual_valid :
  _fit X y X_val y_val s = Ok (s', residual, residual_valid) ->
  1 <= n_estimators s ->
  exists sT,
    after_round X y X_val y_val s (n_estimators s' - 1) = Ok (sT, residual, residual_valid)
    /\ 1 <= n_estimators s' <= n_estimators s
    /\ s' = set_n_estimators (n_estimators s') sT.
Proof.
  intros Hfit HN.
  apply _fit_run in Hfit as (T & sT & HT & HsT & _ & Hend).
  pose proof (after_round_frame _ _ _ _ _ _ _ _ _ HsT) as ((_ & Hn & _) & _).
  cbn in Hn. exists sT.
  destruct Hend as [(HTN & _ & ->)|(HT1 & _ & ->)]; cbn.
  - replace (n_estimators sT - 1) with T by lia. split_and!; try done; lia.
  - replace (T + 1 - 1) with T by lia. split_and!; try done; lia.
Qed.

(** The start of a fit. *)
Lemma _fit_arguments_start X y validation_set s X_train y_train X_val y_val s0 :
  _fit_arguments X y validation_set s = (X_train, y_train, X_val, y_val, s0) ->
  let X1 := training_data X y validation_set s in
  _n s0 = np.ncols (values X1)
  /\ _m s0 = np.nrows (values X1)
  /\ _selected_count_matrix s0 = np.zeros2 (_n s0) (_n s0)
  /\ _regressors s0 = replicate (_n s0) []
  /\ _indexing_cache s0 = replicate (_n s0) None
  /\ _random_generator s0 = _random_generator s
  /\ y_train = target_values (training_target X y validation_set s)
  /\ X_train = (fit_transform (preprocessor_ s) X1 y_train).2.
Proof.
  unfold _fit_arguments, training_data, training_target. intros Hargs.
  destruct (match validation_set with
            | Some (X_val, y_val) => (X, X_val, y, y_val)
            | None => train_test_split X y (validation_fraction s) (random_state s)
            end) as [[[X1 Xv1] y1] yv1] eqn:Hsplit.
  assert (match validation_set with
          | Some _ => X
          | None => (train_test_split X y (validation_fraction s) (random_state s)).1.1.1
          end = X1
          /\ match validation_set with
             | Some _ => y
             | None => (train_test_split X y (validation_fraction s) (random_state s)).1.2
             end = y1) as [-> ->].
  { destruct validation_set as [[? ?]|]; simplify_eq; [done|]. by rewrite Hsplit. }
  destruct (_initialize_fit_params_frame X1 y1 s)
    as (_ & _ & _ & _ & Hp & Hg & _ & Hn & Hm & HC & HR & _).
  destruct (fit_transform _ X1 _) as [p Xt] eqn:Hft. simplify_eq. cbn zeta.
  change (_n (set_preprocessor_ p ?s)) with (_n s).
  rewrite Hp in Hft. rewrite Hft. rewrite Hn. split_and!; try done.
Qed.

(** The labels [_initialize_fit_params] gives an object that has none. *)
Lemma _fit_arguments_labels X y validation_set s X_train y_train X_val y_val s0 :
  _fit_arguments X y validation_set s = (X_train, y_train, X_val, y_val, s0) ->
  let X1 := training_data X y validation_set s in
  let y1 := training_target X y validation_set s in
  (feature_names_in_ s = None ->
   feature_names_in_ s0
   = Some match columns X1 with
          | Some labels => labels
          | None => (fun i => "feature_" +:+ pretty i) <$> seq 0 (np.ncols (values X1))
          end)
  /\ (output_name s = None ->
      output_name s0 = match y1 with
                       | Series name _ => name
                       | Array _ => Some "output"
                       end).
Proof.
  unfold _fit_arguments, training_data, training_target. intros Hargs.
  destruct (match validation_set with
            | Some (X_val, y_val) => (X, X_val, y, y_val)
            | None => train_test_split X y (validation_fraction s) (random_state s)
            end) as [[[X1 Xv1] y1] yv1] eqn:Hsplit.
  assert (match validation_set with
          | Some _ => X
          | None => (train_test_split X y (validation_fraction s) (random_state s)).1.1.1
          end = X1
          /\ match validation_set with
             | Some _ => y
             | None => (train_test_split X y (validation_fraction s) (random_state s)).1.2
             end = y1) as [-> ->].
  { destruct validation_set as [[? ?]|]; simplify_eq; [done|]. by rewrite Hsplit. }
  destruct (fit_transform _ X1 _) as [p Xt]. simplify_eq. cbn zeta.
  unfold _initialize_fit_params, np.shape. cbn.
  destruct (feature_names_in_ s) eqn:Hn; cbn;
    destruct (output_name s) eqn:Ho; cbn; rewrite ?Hn, ?Ho; by split.
Qed.

(** The end of a fit: the rounds that were run and what the tail of [fit]
    keeps of the object they leave. *)
Lemma fit_final X y validation_set s s'' :
  fit X y validation_set s = Ok s'' ->
  1 <= n_estimators s ->
  exists X_train y_train X_val y_val s0 sT residual residual_valid,
    _fit_arguments X y validation_set s = (X_train, y_train, X_val, y_val, s0)
    /\ after_round X_train y_train X_val y_val s0 (n_estimators s'' - 1)
       = Ok (sT, residual, residual_valid)
    /\ 1 <= n_estimators s'' <= n_estimators s
    /\ selection_history_ s'' = take (n_estimators s'') (selection_history_ sT)
    /\ _regressors s'' = _regressors sT
    /\ _selected_count_matrix s'' = _selected_count_matrix sT
    /\ _random_generator s'' = _random_generator sT
    /\ _indexing_cache s'' = _indexing_cache sT
    /\ _n s'' = _n s0 /\ _m s'' = _m s0
    /\ feature_names_in_ s'' = feature_names_in_ s0
    /\ output_name s'' = output_name s0.
Proof.
  intros Hfit HN.
  apply fit_inv in Hfit as (Xt & yt & Xv & yv & s0 & s1 & r & rv & fixed & sn
                            & Hargs & Hfit & _ & _ & ->).
  destruct (_fit_arguments_frame _ _ _ _ _ _ _ _ _ Hargs) as (_ & Hn0 & _).
  destruct (_fit_frame _ _ _ _ _ _ _ _ Hfit) as (_ & Hnames & Hout & _ & Hn & Hm & _).
  destruct (_fit_final _ _ _ _ _ _ _ _ Hfit ltac:(lia)) as (sT & HsT & Hbound & Hs1).
  exists Xt, yt, Xv, yv, s0, sT, r, rv. cbn.
  split_and!; try done; try lia; by rewrite Hs1.
Qed.

(** What [fit] leaves of the configuration, whatever the round count. *)
Lemma fit_frame X y validation_set s s'' :
  fit X y validation_set s = Ok s'' ->
  same_hyper_parameters s s''
  /\ n_estimators s'' <= n_estimators s
  /\ length (score_history_ s'') = length (score_history_ s)
  /\ feature_names_in_ s'' <> None
  /\ (feature_names_in_ s <> None -> feature_names_in_ s'' = feature_names_in_ s)
  /\ (output_name s <> None -> output_name s'' = output_name s).
Proof.
  intros Hfit.
  apply fit_inv in Hfit as (Xt & yt & Xv & yv & s0 & s1 & r & rv & fixed & sn
                            & Hargs & Hfit & _ & _ & ->).
  destruct (_fit_frame _ _ _ _ _ _ _ _ Hfit)
    as (Hh1 & Hnames & Hout & _ & _ & _ & _ & Hlen & _).
  destruct (_fit_arguments_frame _ _ _ _ _ _ _ _ _ Hargs)
    as (Hh0 & Hn0 & _ & Hs0 & _ & Hkeep & Hfill & Hkeep').
  apply _fit_run in Hfit as (T & sT & HT & HsT & _ & Hend).
  pose proof (after_round_frame _ _ _ _ _ _ _ _ _ HsT) as ((_ & HnT & _) & _).
  cbn in HnT. cbn. split_and!.
  - by eapply same_hyper_parameters_trans.
  - destruct Hend as [(_ & _ & ->)|(? & _ & ->)]; cbn; lia.
  - rewrite length_fmap. congruence.
  - rewrite Hnames. destruct (feature_names_in_ s) eqn:Hs.
    + rewrite Hkeep; done.
    + by apply Hfill.
  - intros Hset. rewrite Hnames. by apply Hkeep.
  - intros Hset. rewrite Hout. by apply Hkeep'.
Qed.

Lemma selections_snoc history g f :
  selections (history ++ [g]) f
  = selections history f + (if decide (g = f) then 1 else 0).
Proof.
  unfold selections. rewrite filter_app, length_app, filter_cons, filter_nil.
  by case_decide.
Qed.

Lemma selections_cons g history f :
  selections (g :: history) f
  = (if decide (g = f) then 1 else 0) + selections history f.
Proof. unfold selections. rewrite filter_cons. by case_decide. Qed.

Lemma take_S_insert {A} (l : list A) t x :
  t < length l -> take (S t) (<[t:=x]> l) = take t l ++ [x].
Proof.
  intros Hlt. rewrite (take_S_r _ _ x) by (by rewrite list_lookup_insert_eq).
  by rewrite take_insert_ge.
Qed.

(** What the invariants of the loop need to know of a round. *)
Lemma _boost_step X y redundancy t X_val y_val s s' y' y_val' :
  _boost X y redundancy t X_val y_val s = Ok (s', y', y_val') ->
  exists f C1 C2 estimators new_model X_selected X_val_selected,
    take (S t) (selection_history_ s') = take t (selection_history_ s) ++ [f]
    /\ np.add_at_row (_selected_count_matrix s) f 1 = Ok C1
    /\ np.add_at_column C1 f 1 = Ok C2
    /\ np.setitem2 C2 f f 0 = Ok (_selected_count_matrix s')
    /\ _regressors s !! f = Some estimators
    /\ _regressors s' = <[f:=estimators ++ [new_model]]> (_regressors s)
    /\ np.column X f = Ok X_selected
    /\ np.isub y (predict_tree new_model X_selected) = Ok y'
    /\ np.column X_val f = Ok X_val_selected
    /\ np.isub y_val (predict_tree new_model X_val_selected) = Ok y_val'
    /\ _random_generator s' = (random (_random_generator s) (_m s)).2
    /\ (_indexing_cache s' = _indexing_cache s
        \/ _indexing_cache s' = <[f:=Some (np.argsort X_selected)]> (_indexing_cache s))
    /\ same_outside_round s s'.
Proof.
  intros Hb. apply _boost_inv in Hb
    as (f & C1 & C2 & Xs & ix & dr & Xso & yso & Xf & yf & Xvs & est & Hb).
  cbn zeta in Hb.
  destruct Hb as (_ & Hlt & Hsel & H1 & H2 & H3 & Hcol & Hcache & _ & _ & Hdraw
                  & _ & _ & Hy & Hcolv & Hyv & _ & _ & Hest & Hreg & Hframe).
  eexists f, C1, C2, est, _, Xs, Xvs. split_and!; try done.
  - rewrite Hsel. by apply take_S_insert.
  - by rewrite Hdraw.
  - destruct Hcache as [[_ ?]|(_ & -> & ?)]; eauto.
Qed.

Lemma fit_history_length X y validation_set s s'' :
  fit X y validation_set s = Ok s'' ->
  1 <= n_estimators s ->
  length (selection_history_ s'') = n_estimators s''.
Proof.
  intros Hfit HN.
  destruct (fit_final _ _ _ _ _ Hfit HN)
    as (Xt & yt & Xv & yv & s0 & sT & r & rv & _ & HsT & Hbound & -> & _).
  apply after_round_frame in HsT as (_ & _ & Hlen & Hlt & _).
  rewrite length_take. lia.
Qed.

(** ** The constructor *)



(** ** Labels, refitting and empty data *)

(** The shape [fit] records is that of the training data. *)
Lemma fit_shape X y validation_set s s'' :
  fit X y validation_set s = Ok s'' ->
  _n s'' = np.ncols (values (training_data X y validation_set s))
  /\ _m s'' = np.nrows (values (training_data X y validation_set s)).
Proof.
  intros Hfit.
  apply fit_inv in Hfit as (Xt & yt & Xv & yv & s0 & s1 & r & rv & fixed & sn
                            & Hargs & Hfit & _ & _ & ->).
  destruct (_fit_frame _ _ _ _ _ _ _ _ Hfit) as (_ & _ & _ & _ & Hn & Hm & _).
  destruct (_fit_arguments_start _ _ _ _ _ _ _ _ _ Hargs) as (Hn0 & Hm0 & _).
  cbn. by rewrite Hn, Hm.
Qed.

(** X2.  The labels [fit] fills in when the constructor was given none:
    the feature names are the column labels of the training frame or, for a
    plain array, [feature_0], [feature_1], ...; the output name is the name
    of the training series (none, for a series without a name) or, for a
    plain array, [output].  [_n] and [_m] are the shape of the training
    data. *)
Theorem fitted_labels X y validation_set s s'' :
  fit X y validation_set s = Ok s'' ->
  let X1 := training_data X y validation_set s in
  let y1 := training_target X y validation_set s in
  _n s'' = np.ncols (values X1)
  /\ _m s'' = np.nrows (values X1)
  /\ (feature_names_in_ s = None ->
      feature_names_in_ s''
      = Some match columns X1 with
             | Some labels => labels
             | None => (fun i => "feature_" +:+ pretty i) <$> seq 0 (np.ncols (values X1))
             end)
  /\ (output_name s = None ->
      output_name s'' = match y1 with
                        | Series name _ => name
                        | Array _ => Some "output"
                        end).
Proof.
  intros Hfit.
  apply fit_inv in Hfit as (Xt & yt & Xv & yv & s0 & s1 & r & rv & fixed & sn
                            & Hargs & Hfit & _ & _ & ->).
  destruct (_fit_frame _ _ _ _ _ _ _ _ Hfit) as (_ & Hnames & Hout & _ & Hn & Hm & _).
  destruct (_fit_arguments_start _ _ _ _ _ _ _ _ _ Hargs) as (Hn0 & Hm0 & _).
  destruct (_fit_arguments_labels _ _ _ _ _ _ _ _ _ Hargs) as (Hfill & Hfill').
  cbn. rewrite Hnames, Hout, Hn, Hm. by split_and!.
Qed.

(** X3.  Fitting a fitted object again: the feature names of the first
    fit are kept whatever the new data is labelled, a set output name is
    kept, the round count can only shrink from fit to fit, the score
    history keeps the length it was allocated with, and the
    hyper-parameters stay. *)
Theorem refit_keeps_labels X y validation_set s s1 X2 y2 validation_set2 s2 :
  fit X y validation_set s = Ok s1 ->
  fit X2 y2 validation_set2 s1 = Ok s2 ->
  feature_names_in_ s2 = feature_names_in_ s1
  /\ (output_name s1 <> None -> output_name s2 = output_name s1)
  /\ n_estimators s2 <= n_estimators s1 <= n_estimators s
  /\ length (score_history_ s2) = length (score_history_ s)
  /\ same_hyper_parameters s s2.
Proof.
  intros Hfit1 Hfit2.
  destruct (fit_frame _ _ _ _ _ Hfit1) as (Hh1 & Hn1 & Hl1 & Hset & _).
  destruct (fit_frame _ _ _ _ _ Hfit2) as (Hh2 & Hn2 & Hl2 & _ & Hkeep & Hkeep').
  split_and!; try done; try congruence.
  - by apply Hkeep.
  - by eapply same_hyper_parameters_trans.
Qed.

(** X4.  No model is fitted on a training matrix without rows: [_fit]
    raises, at the latest when it reads row [0] to allocate the redundancy
    buffer (an [IndexError] if round [0] got through), and so does [fit]
    when the preprocessed training matrix has no rows. *)
Theorem fit_needs_rows :
  (forall X y X_val y_val s,
     np.rows X = [] ->
     exists e, _fit X y X_val y_val s = Raise e
       /\ ((exists out, after_round X y X_val y_val s 0 = Ok out) -> e = IndexError))
  /\ (forall X y validation_set s X_train y_train X_val y_val s0,
        _fit_arguments X y validation_set s = (X_train, y_train, X_val, y_val, s0) ->
        np.rows X_train = [] ->
        exists e, fit X y validation_set s = Raise e).
Proof.
  assert (forall X y X_val y_val s,
            np.rows X = [] ->
            exists e, _fit X y X_val y_val s = Raise e
              /\ ((exists out, after_round X y X_val y_val s 0 = Ok out) ->
                  e = IndexError)) as Hloop.
  { intros X y X_val y_val s Hrows. unfold _fit. cbn [after_round].
    destruct (_boost X _ _ 0 X_val _ _) as [[[s1 r] rv]|e]; cbn [mbind result_bind].
    - unfold np.row0. rewrite Hrows. cbn. eauto.
    - exists e. split; [done|]. by intros [out [=]]. }
  split; [done|].
  intros X y validation_set s Xt yt Xv yv s0 Hargs Hrows.
  destruct (Hloop Xt yt Xv yv s0 Hrows) as (e & He & _). exists e.
  unfold fit. unfold _fit_arguments in Hargs.
  destruct (match validation_set with
            | Some (X_val, y_val) => (X, X_val, y, y_val)
            | None => train_test_split X y (validation_fraction s) (random_state s)
            end) as [[[X1 Xv1] y1] yv1].
  destruct (fit_transform _ X1 _) as [p X_train]. simplify_eq.
  by rewrite He.
Qed.

(** ** Rounds, selections and learners *)

(** After round [t] every feature list holds one learner per round that
    selected the feature, and the recorded features are columns of the data. *)
Lemma after_round_learners n X y X_val y_val s t st r rv :
  _regressors s = replicate n [] ->
  after_round X y X_val y_val s t = Ok (st, r, rv) ->
  length (_regressors st) = n
  /\ Forall (fun f => f < n) (take (S t) (selection_history_ st))
  /\ forall f l, _regressors st !! f = Some l ->
       length l = selections (take (S t) (selection_history_ st)) f.
Proof.
  intros Hregs Ht.
  apply (after_round_invariant X y X_val y_val s
           (fun t '(st, _, _) =>
              length (_regressors st) = n
              /\ Forall (fun f => f < n) (take t (selection_history_ st))
              /\ forall f l, _regressors st !! f = Some l ->
                   length l = selections (take t (selection_history_ st)) f)) in Ht;
    [done| |].
  - cbn. rewrite Hregs, length_replicate. split_and!; [done|by constructor|].
    by intros f l [-> _]%lookup_replicate.
  - clear. intros t st r rv penalty [[st' r'] rv'] (Hlen & Hvalid & Hcount) Hb.
    apply _boost_step in Hb
      as (f & C1 & C2 & est & new & Xs & Xvs & Hhist & _ & _ & _ & Hest & Hreg & _).
    pose proof (lookup_lt_Some _ _ _ Hest) as Hf.
    rewrite Hhist, Hreg, length_insert. split_and!; [done| |].
    + apply Forall_app. split; [done|]. constructor; [lia|constructor].
    + intros g l Hl. rewrite selections_snoc.
      destruct (decide (f = g)) as [->|Hne].
      * rewrite list_lookup_insert_eq in Hl by done. injection Hl as <-.
        rewrite length_app, (Hcount _ _ Hest). done.
      * rewrite list_lookup_insert_ne in Hl by done. rewrite (Hcount _ _ Hl). lia.
Qed.

(** The learner lists and the selection history of a fitted object. *)
Lemma fit_learners X y validation_set s s'' :
  fit X y validation_set s = Ok s'' ->
  1 <= n_estimators s ->
  length (_regressors s'') = _n s''
  /\ Forall (fun f => f < _n s'') (selection_history_ s'')
  /\ forall f l, _regressors s'' !! f = Some l ->
       length l = selections (selection_history_ s'') f.
Proof.
  intros Hfit HN.
  destruct (fit_final _ _ _ _ _ Hfit HN)
    as (Xt & yt & Xv & yv & s0 & sT & r & rv & Hargs & HsT & Hbound & Hhist & Hregs
        & _ & _ & _ & Hn & _).
  destruct (_fit_arguments_start _ _ _ _ _ _ _ _ _ Hargs) as (_ & _ & _ & Hregs0 & _).
  destruct (after_round_learners _ _ _ _ _ _ _ _ _ _ Hregs0 HsT)
    as (Hlen' & Hvalid & Hcount).
  replace (S (n_estimators s'' - 1)) with (n_estimators s'') in * by lia.
  rewrite <- Hhist in *. rewrite Hregs, Hn. by split_and!.
Qed.

(** X5.  A fit runs at least [min(n_estimators, n_iter_no_change + 1)]
    rounds and at most [n_estimators] rounds; the [n_estimators] it leaves
    is the number of rounds run, the selection history has exactly that
    many entries, and each entry is the index of a column of the training
    data. *)
Theorem rounds_run_bounds X y validation_set s s'' :
  fit X y validation_set s = Ok s'' ->
  1 <= n_estimators s ->
  Nat.min (n_estimators s) (n_iter_no_change s + 1) <= n_estimators s''
  /\ n_estimators s'' <= n_estimators s
  /\ length (selection_history_ s'') = n_estimators s''
  /\ Forall (fun f => f < _n s'') (selection_history_ s'').
Proof.
  intros Hfit HN.
  pose proof (fit_history_length _ _ _ _ _ Hfit HN) as Hlen.
  destruct (fit_learners _ _ _ _ _ Hfit HN) as (_ & Hvalid & _).
  destruct (fit_frame _ _ _ _ _ Hfit) as (_ & Hle & _).
  split_and!; [|done..].
  apply fit_inv in Hfit as (Xt & yt & Xv & yv & s0 & s1 & r & rv & fixed & sn
                            & Hargs & Hfit & _ & _ & ->).
  cbn in *.
  destruct (_fit_arguments_frame _ _ _ _ _ _ _ _ _ Hargs)
    as ((_ & _ & _ & _ & Hk0 & _) & Hn0 & _).
  destruct (_fit_frame _ _ _ _ _ _ _ _ Hfit) as ((_ & _ & _ & _ & Hk & _) & _).
  apply _fit_run in Hfit as (T & sT & HT & HsT & _ & Hend).
  pose proof (after_round_frame _ _ _ _ _ _ _ _ _ HsT) as ((_ & HnT & _) & _).
  cbn in HnT.
  destruct Hend as [(_ & _ & ->)|(_ & Hstop & ->)]; cbn; [lia|].
  unfold no_improvement in Hstop. apply andb_true_iff in Hstop as [Hge _].
  apply bool_decide_eq_true in Hge. cbn in Hge, Hk. lia.
Qed.



Lemma sum_list_indicator g n :
  sum_list ((fun f => if decide (g = f) then 1 else 0) <$> seq 0 n)
  = if decide (g < n) then 1 else 0.
Proof.
  induction n as [|n IH]; [done|].
  rewrite seq_S, fmap_app, sum_list_with_app.
  change (sum_list_with id ?l) with (sum_list l). rewrite IH. cbn.
  repeat case_decide; lia.
Qed.

Lemma selections_total n history :
  Forall (fun f => f < n) history ->
  sum_list (selections history <$> seq 0 n) = length history.
Proof.
  induction 1 as [|g history Hg _ IH].
  - induction (seq 0 n) as [|? ? IHl]; [done|]. cbn. by rewrite IHl.
  - cbn [length]. rewrite <- IH. pose proof (sum_list_indicator g n) as Hind.
    rewrite decide_True in Hind by done.
    assert (forall l, sum_list (selections (g :: history) <$> l)
                      = sum_list ((fun f => if decide (g = f) then 1 else 0) <$> l)
                        + sum_list (selections history <$> l)) as ->; [|lia].
    intros l. induction l as [|f l IHl]; [done|].
    cbn [fmap list_fmap sum_list sum_list_with]. rewrite selections_cons.
    change (sum_list_with id ?l) with (sum_list l). 
    change (list_fmap _ _ ?f l) with (f <$> l). rewrite IHl. cbn. lia.
Qed.

(** X7.  After a fit the object keeps one list of weak learners per column
    of the training data, the list of feature [f] holds exactly one learner
    per round that selected [f], and all lists together hold
    [n_estimators] learners: every round that was run, the rounds without
    improvement before an early stop included, left its learner in the
    model. *)
Theorem learners_match_selections X y validation_set s s'' :
  fit X y validation_set s = Ok s'' ->
  1 <= n_estimators s ->
  length (_regressors s'') = _n s''
  /\ (forall f l, _regressors s'' !! f = Some l ->
        length l = selections (selection_history_ s'') f)
  /\ sum_list (length <$> _regressors s'') = n_estimators s''.
Proof.
  intros Hfit HN.
  pose proof (fit_history_length _ _ _ _ _ Hfit HN) as Hlen.
  destruct (fit_learners _ _ _ _ _ Hfit HN) as (Hregs & Hvalid & Hcount).
  split_and!; [done..|].
  rewrite <- Hlen, <- (selections_total (_n s'')) by done. f_equal.
  apply list_eq. intros f. rewrite !list_lookup_fmap.
  destruct (_regressors s'' !! f) as [l|] eqn:Hl; cbn.
  - rewrite lookup_seq_lt by (apply lookup_lt_Some in Hl; lia). cbn.
    by rewrite (Hcount _ _ Hl).
  - rewrite lookup_seq_ge; [done|]. apply lookup_ge_None in Hl. lia.
Qed.

(** ** The count matrix in closed form *)

(** After round [t] the count matrix holds, off the diagonal, the number of
    rounds that selected the row feature plus the number of rounds that
    selected the column feature. *)
Lemma after_round_count_entries n X y X_val y_val s t st r rv :
  _selected_count_matrix s = np.zeros2 n n ->
  after_round X y X_val y_val s t = Ok (st, r, rv) ->
  forall i j, i < n -> j < n -> i <> j ->
    (np.entry (_selected_count_matrix st) i j
     == inject_Z (Z.of_nat (selections (take (S t) (selection_history_ st)) i
                            + selections (take (S t) (selection_history_ st)) j)))%Q.
Proof.
  intros HC Ht.
  apply (after_round_invariant X y X_val y_val s
           (fun t '(st, _, _) =>
              square n (_selected_count_matrix st)
              /\ forall i j, i < n -> j < n -> i <> j ->
                   (np.entry (_selected_count_matrix st) i j
                    == inject_Z (Z.of_nat (selections (take t (selection_history_ st)) i
                         + selections (take t (selection_history_ st)) j)))%Q)) in Ht;
    [by destruct Ht| |].
  - cbn. rewrite HC. split; [apply square_zeros2|].
    intros i j _ _ _. by rewrite entry_zeros2.
  - clear. intros t st r rv penalty [[st' r'] rv'] (Hsq & Hentry) Hb.
    apply _boost_step in Hb
      as (f & C1 & C2 & est & new & Xs & Xvs & Hhist & H1 & H2 & H3 & _).
    destruct (count_update_entry _ _ _ _ _ _ Hsq H1 H2 H3) as (Hf & Hsq' & _ & E).
    split; [done|]. intros i j Hi Hj Hij.
    rewrite E, Hhist, !selections_snoc by done.
    rewrite decide_False by naive_solver.
    set (a := selections (take t (selection_history_ st)) i) in *.
    set (b := selections (take t (selection_history_ st)) j) in *.
    assert (forall c d, (inject_Z (Z.of_nat (a + c + (b + d)))
                         == np.entry (_selected_count_matrix st) i j
                            + inject_Z (Z.of_nat (c + d)))%Q) as ->.
    { intros c d. rewrite (Hentry i j Hi Hj Hij), <- inject_Z_plus, <- Nat2Z.inj_add.
      by replace (a + c + (b + d)) with (a + b + (c + d)) by lia. }
    destruct (decide (f = i)) as [Hfi|Hfi]; destruct (decide (f = j)) as [Hfj|Hfj];
      [congruence| | |].
    + rewrite decide_True by (by left). reflexivity.
    + rewrite decide_True by (by right). reflexivity.
    + rewrite decide_False by (intros [?|?]; congruence).
      change (inject_Z (Z.of_nat (0 + 0))) with 0%Q. ring.
Qed.

(** X8.  After a fit the count matrix holds, in every cell off the
    diagonal, the number of rounds that selected the row feature plus the
    number of rounds that selected the column feature. *)
Theorem count_matrix_closed_form X y validation_set s s'' i j :
  fit X y validation_set s = Ok s'' ->
  1 <= n_estimators s ->
  i < _n s'' -> j < _n s'' -> i <> j ->
  (np.entry (_selected_count_matrix s'') i j
   == inject_Z (Z.of_nat (selections (selection_history_ s'') i
                          + selections (selection_history_ s'') j)))%Q.
Proof.
  intros Hfit HN Hi Hj Hij.
  destruct (fit_final _ _ _ _ _ Hfit HN)
    as (Xt & yt & Xv & yv & s0 & sT & r & rv & Hargs & HsT & Hbound & Hhist & _
        & HC & _ & _ & Hn & _).
  destruct (_fit_arguments_start _ _ _ _ _ _ _ _ _ Hargs) as (_ & _ & HC0 & _).
  pose proof (after_round_count_entries _ _ _ _ _ _ _ _ _ _ HC0 HsT i j) as Hentry.
  replace (S (n_estimators s'' - 1)) with (n_estimators s'') in * by lia.
  rewrite HC, Hhist. apply Hentry; congruence.
Qed.

(** ** The random generator *)


(** ** Residuals and the ensemble *)









(** ** The index cache *)

(** X11.  [_get_index] answers from its cache: once it has returned the
    index of a feature, a second call returns the same index and leaves the
    object as it is, whatever matrix the second call is given; the first
    call changes no cache entry of another feature. *)
Theorem get_index_cached X X' f s index s' :
  _get_index X f s = Ok (index, s') ->
  _get_index X' f s' = Ok (index, s')
  /\ length (_indexing_cache s') = length (_indexing_cache s)
  /\ forall g, g <> f -> _indexing_cache s' !! g = _indexing_cache s !! g.
Proof.
  intros Hg. pose proof Hg as Hinv. apply _get_index_inv in Hinv
    as [[Hc ->]|(col & Hc & Hcol & -> & ->)].
  - split_and!; [|done..]. unfold _get_index, getitem. by rewrite Hc.
  - pose proof (lookup_lt_Some _ _ _ Hc) as Hf. cbn. split_and!.
    + unfold _get_index, getitem. cbn. by rewrite list_lookup_insert_eq.
    + by rewrite length_insert.
    + intros g Hne. by rewrite list_lookup_insert_ne.
Qed.

Lemma insert_sorted_perm v i l : np.insert_sorted v i l ≡ₚ i :: l.
Proof.
  induction l as [|j l IH]; cbn; [done|].
  destruct (np.ltb _ _); [done|]. rewrite IH. apply Permutation_swap.
Qed.

Lemma insert_sorted_sorted v i l :
  StronglySorted (fun a b => (key v a <= key v b)%Q) l ->
  StronglySorted (fun a b => (key v a <= key v b)%Q) (np.insert_sorted v i l).
Proof.
  induction 1 as [|j l Hl IH Hj]; cbn.
  - repeat constructor.
  - fold (key v i) (key v j). destruct (np.ltb (key v i) (key v j)) eqn:Hlt.
    + apply ltb_lt in Hlt. constructor; [by constructor|].
      constructor; [lra|]. eapply Forall_impl; [done|]. cbn. intros; lra.
    + apply ltb_ge in Hlt. constructor; [done|].
      rewrite insert_sorted_perm. by constructor.
Qed.

Lemma argsort_perm v : np.argsort v ≡ₚ seq 0 (length v).
Proof.
  unfold np.argsort.
  assert (forall l acc, foldl (fun acc i => np.insert_sorted v i acc) acc l ≡ₚ acc ++ l)
    as Hfold; [|by rewrite Hfold].
  induction l as [|i l IH]; intros acc; cbn; [by rewrite app_nil_r|].
  rewrite IH, insert_sorted_perm. cbn. apply Permutation_middle.
Qed.

Lemma argsort_sorted v :
  StronglySorted (fun a b => (key v a <= key v b)%Q) (np.argsort v).
Proof.
  unfold np.argsort.
  assert (forall l acc,
            StronglySorted (fun a b => (key v a <= key v b)%Q) acc ->
            StronglySorted (fun a b => (key v a <= key v b)%Q)
              (foldl (fun acc i => np.insert_sorted v i acc) acc l)) as Hfold.
  { induction l as [|i l IH]; intros acc Hacc; cbn; [done|].
    by apply IH, insert_sorted_sorted. }
  apply Hfold. constructor.
Qed.

Lemma StronglySorted_lookup {A} (R : A -> A -> Prop) l :
  StronglySorted R l ->
  forall j k a b, j < k -> l !! j = Some a -> l !! k = Some b -> R a b.
Proof.
  induction 1 as [|x l Hl IH Hx]; intros j k a b Hjk Ha Hb; [done|].
  destruct k as [|k]; [lia|]. cbn in Hb. destruct j as [|j]; cbn in Ha.
  - injection Ha as <-. rewrite Forall_forall in Hx. apply Hx.
    by eapply list_elem_of_lookup_2.
  - apply (IH j k); [lia|done..].
Qed.

(** Sorting a column by its [argsort]. *)
Lemma argsort_take_index col :
  np.argsort col ≡ₚ seq 0 (length col)
  /\ exists sorted, np.take_index col (np.argsort col) = Ok sorted /\ ascending sorted.
Proof.
  split; [apply argsort_perm|].
  exists (key col <$> np.argsort col). split.
  - unfold np.take_index.
    assert (Forall (fun i => i < length col) (np.argsort col)) as Hall.
    { rewrite argsort_perm. apply Forall_forall. intros i Hi%elem_of_seq. lia. }
    induction Hall as [|i l Hi _ IH]; [done|].
    rewrite mapM_cons, IH. unfold getitem, key.
    destruct (lookup_lt_is_Some_2 col i Hi) as [x Hx]. by rewrite fmap_cons, Hx.
  - intros j k a b Hjk Ha Hb. rewrite list_lookup_fmap in Ha, Hb.
    destruct (np.argsort col !! j) as [ij|] eqn:Hj; [|done].
    destruct (np.argsort col !! k) as [ik|] eqn:Hk; [|done].
    cbn in Ha, Hb. simplify_eq. destruct (decide (j = k)) as [->|Hne].
    + simplify_eq. lra.
    + eapply (StronglySorted_lookup _ _ (argsort_sorted col) j k); [lia|done..].
Qed.

Lemma _boost_cache X y redundancy t X_val y_val s s' y' y_val' :
  _boost X y redundancy t X_val y_val s = Ok (s', y', y_val') ->
  exists f col index,
    take (S t) (selection_history_ s') = take t (selection_history_ s) ++ [f]
    /\ np.column X f = Ok col
    /\ _indexing_cache s' !! f = Some (Some index)
    /\ (_indexing_cache s !! f = Some (Some index)
        \/ (_indexing_cache s !! f = Some None /\ index = np.argsort col))
    /\ length (_indexing_cache s') = length (_indexing_cache s)
    /\ forall g, g <> f -> _indexing_cache s' !! g = _indexing_cache s !! g.
Proof.
  intros Hb. apply _boost_inv in Hb
    as (f & C1 & C2 & Xs & ix & dr & Xso & yso & Xf & yf & Xvs & est & Hb).
  cbn zeta in Hb.
  destruct Hb as (_ & Hlt & Hsel & _ & _ & _ & Hcol & Hcache & _).
  exists f, Xs, ix. split_and!; try done.
  - rewrite Hsel. by apply take_S_insert.
  - destruct Hcache as [[? ->]|(Hc & ? & ->)]; [done|].
    rewrite list_lookup_insert_eq; [done|]. by eapply lookup_lt_Some.
  - destruct Hcache as [[? _]|(? & ? & _)]; eauto.
  - destruct Hcache as [[? ->]|(Hc & ? & ->)]; [done|]. by rewrite length_insert.
  - intros g Hne. destruct Hcache as [[? ->]|(Hc & ? & ->)]; [done|].
    by rewrite list_lookup_insert_ne.
Qed.

Lemma after_round_cache n X y X_val y_val s t st r rv :
  _indexing_cache s = replicate n None ->
  after_round X y X_val y_val s t = Ok (st, r, rv) ->
  length (_indexing_cache st) = n
  /\ forall f, f < n ->
       (selections (take (S t) (selection_history_ st)) f = 0
        /\ _indexing_cache st !! f = Some None)
       \/ (1 <= selections (take (S t) (selection_history_ st)) f
           /\ exists col, np.column X f = Ok col
                /\ _indexing_cache st !! f = Some (Some (np.argsort col))).
Proof.
  intros Hcache Ht.
  apply (after_round_invariant X y X_val y_val s
           (fun t '(st, _, _) =>
              length (_indexing_cache st) = n
              /\ forall f, f < n ->
                   (selections (take t (selection_history_ st)) f = 0
                    /\ _indexing_cache st !! f = Some None)
                   \/ (1 <= selections (take t (selection_history_ st)) f
                       /\ exists col, np.column X f = Ok col
                            /\ _indexing_cache st !! f = Some (Some (np.argsort col))))) in Ht;
    [done| |].
  - cbn. rewrite Hcache, length_replicate. split; [done|]. intros f Hf. left.
    split; [done|]. by rewrite lookup_replicate_2.
  - clear. intros t st r rv penalty [[st' r'] rv'] (Hlen & Hinv) Hb.
    apply _boost_cache in Hb as (f & col & index & Hhist & Hcol & Hnew & Hold & Hlen' & Hother).
    split; [congruence|]. intros g Hg. rewrite Hhist, selections_snoc.
    destruct (decide (f = g)) as [->|Hne].
    + right. split; [lia|]. exists col. split; [done|]. rewrite Hnew.
      destruct Hold as [Hhit|[_ ->]]; [|done].
      destruct (Hinv g Hg) as [[_ Hmiss]|(_ & col' & Hcol' & Hc)]; [congruence|].
      congruence.
    + rewrite Hother by done. destruct (Hinv g Hg) as [[? ?]|[? ?]]; [left|right];
        (split; [lia|done]).
Qed.

(** X12.  After a fit the index cache has one entry per column of the
    training data.  The entry of a feature that was never selected is still
    empty; the entry of a selected feature is a permutation of the row
    numbers of the training matrix that puts the feature's column in
    ascending order. *)
Theorem index_cache_sorts X y validation_set s s'' :
  fit X y validation_set s = Ok s'' ->
  1 <= n_estimators s ->
  exists X_train y_train X_val y_val s0,
    _fit_arguments X y validation_set s = (X_train, y_train, X_val, y_val, s0)
    /\ length (_indexing_cache s'') = _n s''
    /\ forall f, f < _n s'' ->
         (selections (selection_history_ s'') f = 0
          /\ _indexing_cache s'' !! f = Some None)
         \/ (1 <= selections (selection_history_ s'') f
             /\ exists col index sorted,
                  np.column X_train f = Ok col
                  /\ _indexing_cache s'' !! f = Some (Some index)
                  /\ index ≡ₚ seq 0 (length col)
                  /\ np.take_index col index = Ok sorted
                  /\ ascending sorted).
Proof.
  intros Hfit HN.
  destruct (fit_final _ _ _ _ _ Hfit HN)
    as (Xt & yt & Xv & yv & s0 & sT & r & rv & Hargs & HsT & Hbound & Hhist & _
        & _ & _ & Hcache & Hn & _).
  destruct (_fit_arguments_start _ _ _ _ _ _ _ _ _ Hargs)
    as (_ & _ & _ & _ & Hcache0 & _).
  destruct (after_round_cache _ _ _ _ _ _ _ _ _ _ Hcache0 HsT) as (Hlen & Hinv).
  replace (S (n_estimators s'' - 1)) with (n_estimators s'') in * by lia.
  rewrite <- Hhist in Hinv. rewrite Hcache, Hn.
  exists Xt, yt, Xv, yv, s0. split_and!; [done..|].
  intros f Hf. destruct (Hinv f Hf) as [?|(Hsel & col & Hcol & Hc)]; [by left|right].
  split; [done|]. destruct (argsort_take_index col) as (Hperm & sorted & Hsorted & Hasc).
  by exists col, (np.argsort col), sorted.
Qed.

(** ** The selection counter *)

Lemma counted_cons k0 m c k :
  counted ((k0, m) :: c) k = (if decide (k0 = k) then m else 0) + counted c k.
Proof. unfold counted. rewrite filter_cons. cbn. by case_decide. Qed.

Lemma count_key_keys k c :
  (count_key k c).*1 = if decide (k ∈ c.*1) then c.*1 else c.*1 ++ [k].
Proof.
  induction c as [|[k' n] c IH]; cbn.
  - rewrite decide_False; [done|]. apply not_elem_of_nil.
  - destruct (decide (k = k')) as [->|Hne]; cbn.
    + rewrite decide_True; [done|]. by left.
    + rewrite IH. destruct (decide (k ∈ c.*1)) as [Hin|Hout].
      * rewrite decide_True; [done|]. by right.
      * rewrite decide_False; [done|]. by intros [?|?]%elem_of_cons.
Qed.

Lemma count_key_counted k c k' :
  counted (count_key k c) k' = counted c k' + (if decide (k = k') then 1 else 0).
Proof.
  induction c as [|[k0 m] c IH]; cbn [count_key].
  - rewrite counted_cons. unfold counted. cbn. lia.
  - destruct (decide (k = k0)) as [->|Hne]; rewrite !counted_cons.
    + repeat case_decide; lia.
    + rewrite IH. lia.
Qed.

Lemma count_key_positive k c :
  Forall (fun kn : string * nat => 1 <= kn.2) c ->
  Forall (fun kn : string * nat => 1 <= kn.2) (count_key k c).
Proof.
  induction 1 as [|[k0 m] c Hm Hc IH]; cbn.
  - repeat constructor.
  - case_decide; constructor; cbn in *; try done; lia.
Qed.

Lemma count_key_total k c : sum_list (count_key k c).*2 = S (sum_list c.*2).
Proof.
  induction c as [|[k0 m] c IH]; cbn; [done|].
  case_decide; cbn; [done|].
  change (sum_list_with id ?l) with (sum_list l).
  change (list_fmap _ _ snd ?l) with (l.*2). rewrite IH. lia.
Qed.

Lemma counted_absent c k : k ∉ c.*1 -> counted c k = 0.
Proof.
  induction c as [|[k0 m] c IH]; [done|].
  rewrite fmap_cons. intros [Hne Hout]%not_elem_of_cons.
  rewrite counted_cons, IH by done. by rewrite decide_False.
Qed.

Lemma counted_elem c k n : NoDup c.*1 -> (k, n) ∈ c -> counted c k = n.
Proof.
  induction c as [|[k0 m] c IH]; [by intros _ ?%elem_of_nil|]. rewrite fmap_cons.
  intros [Hout Hnd]%NoDup_cons [[= -> ->]|Hin]%elem_of_cons; rewrite counted_cons.
  - rewrite decide_True, counted_absent by done. lia.
  - rewrite IH by done. rewrite decide_False; [done|]. intros ->. apply Hout.
    by apply (list_elem_of_fmap_2 fst) in Hin.
Qed.

(** What [Counter] makes of a list of keys. *)
Lemma Counter_spec keys :
  NoDup (Counter keys).*1
  /\ Forall (fun kn : string * nat => 1 <= kn.2) (Counter keys)
  /\ sum_list (Counter keys).*2 = length keys
  /\ (forall k, k ∈ (Counter keys).*1 <-> k ∈ keys)
  /\ forall k, counted (Counter keys) k = length (filter (fun k' => k' = k) keys).
Proof.
  unfold Counter.
  assert (forall c,
            NoDup c.*1 -> Forall (fun kn : string * nat => 1 <= kn.2) c ->
            let C := foldl (fun c k => count_key k c) c keys in
            NoDup C.*1
            /\ Forall (fun kn : string * nat => 1 <= kn.2) C
            /\ sum_list C.*2 = sum_list c.*2 + length keys
            /\ (forall k, k ∈ C.*1 <-> k ∈ c.*1 \/ k ∈ keys)
            /\ forall k, counted C k
                         = counted c k + length (filter (fun k' => k' = k) keys))
    as Hacc.
  { induction keys as [|k0 keys IH]; intros c Hnd Hpos; cbn zeta; cbn [foldl].
    - split_and!; try done; try (cbn; lia).
      intros k. split; [by left|]. by intros [?|?%elem_of_nil].
    - destruct (IH (count_key k0 c)) as (Hnd' & Hpos' & Hsum & Hkeys & Hcount).
      { rewrite count_key_keys. case_decide; [done|].
        apply NoDup_app. split_and!; [done| |apply NoDup_singleton].
        by intros k Hin ->%list_elem_of_singleton. }
      { by apply count_key_positive. }
      split_and!; try done.
      + rewrite Hsum, count_key_total. cbn. lia.
      + intros k. rewrite Hkeys, count_key_keys, elem_of_cons.
        case_decide as Hin.
        * split; [tauto|]. intros [?|[->|?]]; tauto.
        * rewrite elem_of_app, list_elem_of_singleton. tauto.
      + intros k. rewrite Hcount, count_key_counted, filter_cons.
        case_decide; cbn; lia. }
  destruct (Hacc []) as (? & ? & ? & Hkeys & Hcount); [constructor..|].
  split_and!; try done.
  intros k. rewrite Hkeys. split; [|by right]. by intros [?%elem_of_nil|?].
Qed.

Lemma selected_names_count (labels : list string) k :
  forall history selected,
    Forall2 (fun f name => getitem labels f = Ok name) history selected ->
    length (filter (fun k' => k' = k) selected)
    = length (filter (fun f => labels !! f = Some k) history).
Proof.
  induction 1 as [|f name history selected Hf%getitem_Ok _ IH]; [done|].
  rewrite !filter_cons, Hf. repeat case_decide; simplify_eq; cbn; by rewrite ?IH.
Qed.

(** X13.  [selection_count_] of a fitted object holds every label once;
    a label is in it iff some round selected a feature with that label, its
    count is the number of such rounds, and the counts add up to
    [n_estimators]. *)
Theorem selection_count_law X y validation_set s s'' :
  fit X y validation_set s = Ok s'' ->
  1 <= n_estimators s ->
  NoDup (selection_count_ s'').*1
  /\ sum_list (selection_count_ s'').*2 = n_estimators s''
  /\ forall k n,
       (k, n) ∈ selection_count_ s'' <->
       1 <= n
       /\ n = length (filter (fun f => names s'' !! f = Some k) (selection_history_ s'')).
Proof.
  intros Hfit HN.
  pose proof (fit_history_length _ _ _ _ _ Hfit HN) as Hlen.
  apply fit_inv in Hfit as (Xt & yt & Xv & yv & s0 & s1 & r & rv & fixed & sn
                            & _ & _ & _ & Hnames & ->).
  unfold names in *. cbn in *. apply mapM_Ok in Hnames.
  destruct (Counter_spec sn) as (Hnd & Hpos & Hsum & Hkeys & Hcount).
  pose proof (Forall2_length _ _ _ Hnames) as Hlen'.
  split_and!; [done|congruence|].
  intros k n. rewrite <- (selected_names_count _ k _ _ Hnames), <- Hcount.
  split.
  - intros Hin. split; [|by rewrite (counted_elem _ _ _ Hnd Hin)].
    rewrite Forall_forall in Hpos. apply (Hpos _ Hin).
  - intros [Hn ->].
    assert (k ∈ (Counter sn).*1) as Hk.
    { apply Hkeys. rewrite Hcount in Hn.
      destruct (filter (fun k' => k' = k) sn) as [|k' l] eqn:Hf; [cbn in Hn; lia|].
      assert (k' ∈ filter (fun k' => k' = k) sn) as [-> ?]%list_elem_of_filter
        by (rewrite Hf; by left).
      done. }
    apply list_elem_of_fmap in Hk as ([k' m] & -> & Hin). cbn.
    by rewrite (counted_elem _ _ _ Hnd Hin).
Qed.

(** ** [predict] and the plot of the model information *)

(** X15.  On a fitted object [predict] reads the columns of the selected
    features only: the one error it can raise is [IndexError], and it
    raises it iff the transformed input has no column for some selected
    feature. *)
Theorem predict_reads_selected_columns X' s :
  _is_fitted s = true ->
  (forall e, predict X' s = Raise e -> e = IndexError)
  /\ (predict X' s = Raise IndexError <->
      exists f c, regressors_ s !! f = Some c /\ is_selected c = true
        /\ np.ncols (transform (preprocessor_ s) X') <= f).
Proof.
  intros Hfitted. unfold predict. rewrite Hfitted. cbn [negb].
  set (X_arr := transform (preprocessor_ s) X').
  set (step := fun ir : nat * composite =>
                 col ← np.column X_arr ir.1; Ok (composite_predict ir.2 col)).
  set (chosen := filter (fun ir : nat * composite => is_selected ir.2 = true)
                   (enumerate (regressors_ s))).
  assert (forall ir e, step ir = Raise e ->
                       e = IndexError /\ np.ncols X_arr <= ir.1) as Hstep.
  { intros [f c] e. unfold step, np.column. cbn. case_decide; cbn; [done|].
    intros [= <-]. split; [done|lia]. }
  destruct (mapM step chosen) as [predictions|e] eqn:Hm; cbn [mbind result_bind].
  - assert (exists a, np.sum_axis0 predictions = Ok a) as [a ->].
    { apply mapM_Ok in Hm.
      assert (Forall (fun v => length v = np.nrows X_arr) predictions) as Hall.
      { apply Forall_forall. intros v [i Hi]%list_elem_of_lookup.
        destruct (Forall2_lookup_r _ _ _ _ _ Hm Hi) as (ir & _ & Hv).
        unfold step in Hv. apply bind_Ok in Hv as (col & Hcol & [= <-]).
        unfold np.column in Hcol. case_decide; [|done]. injection Hcol as <-.
        unfold composite_predict. by rewrite !length_fmap. }
      destruct predictions as [|v vs]; [by eexists|].
      destruct (sum_axis0_vector _ _ _ Hall) as (total & -> & _). by eexists. }
    cbn. split; [done|]. split; [done|].
    intros (f & c & Hc & Hsel & Hcols). exfalso.
    assert ((f, c) ∈ chosen) as Hin.
    { apply list_elem_of_filter. split; [done|]. by apply elem_of_enumerate. }
    apply mapM_Ok in Hm. apply list_elem_of_lookup in Hin as [i Hi].
    destruct (Forall2_lookup_l _ _ _ _ _ Hm Hi) as (v & _ & Hv).
    unfold step, np.column in Hv. cbn in Hv. rewrite decide_False in Hv by lia. done.
  - apply mapM_Raise in Hm as ([f c] & Hin & He).
    destruct (Hstep _ _ He) as [-> Hcols]. split; [by intros ? [= <-]|].
    split; [|done]. intros _.
    apply list_elem_of_filter in Hin as [Hsel Hin%elem_of_enumerate]. eauto.
Qed.

Lemma selections_pos history f : 1 <= selections history f <-> f ∈ history.
Proof.
  unfold selections. split.
  - intros Hpos. destruct (filter (fun g => g = f) history) as [|g l] eqn:Hf;
      [cbn in Hpos; lia|].
    assert (g ∈ filter (fun g => g = f) history) as [-> ?]%list_elem_of_filter
      by (rewrite Hf; by left).
    done.
  - intros Hin.
    assert (f ∈ filter (fun g => g = f) history) as Hin'
      by (by apply list_elem_of_filter).
    destruct (filter (fun g => g = f) history); [by apply elem_of_nil in Hin'|cbn; lia].
Qed.

(** The composite of feature [f] in a fitted object holds the learners of
    the feature under the feature's name. *)
Lemma fit_regressors_lookup X y validation_set s s'' f :
  fit X y validation_set s = Ok s'' ->
  (forall c, regressors_ s'' !! f = Some c ->
     exists name, _regressors s'' !! f = Some (learners c)
       /\ names s'' !! f = Some name /\ feature_name c = name)
  /\ (forall l name, _regressors s'' !! f = Some l -> names s'' !! f = Some name ->
        exists c, regressors_ s'' !! f = Some c
          /\ learners c = l /\ feature_name c = name).
Proof.
  intros Hfit.
  apply fit_inv in Hfit as (Xt & yt & Xv & yv & s0 & s1 & r & rv & fixed & sn
                            & _ & _ & Hfixed & _ & ->).
  unfold names. cbn. apply mapM_Ok in Hfixed. split.
  - intros c Hc. rewrite list_lookup_fmap in Hc.
    destruct (fixed !! f) as [[c' mu]|] eqn:Hi; [|done]. injection Hc as <-.
    destruct (Forall2_lookup_r _ _ _ _ _ Hfixed Hi) as ([j c0] & Hj & Hstep).
    apply bind_Ok in Hstep as (col & _ & [= <- _]).
    rewrite enumerate_lookup, list_lookup_fmap in Hj.
    destruct (zip (_regressors s1) (names s1) !! f) as [[l name]|] eqn:Hz; [|done].
    cbn in Hj. injection Hj as _ <-.
    apply lookup_zip_with_Some in Hz as (l' & name' & [= <- <-] & Hl & Hname).
    exists name. by split_and!.
  - intros l name Hl Hname.
    assert (enumerate ((fun en => sum_tree_regressors en.1 en.2 (output_name s1))
                         <$> zip (_regressors s1) (names s1)) !! f
            = Some (f, sum_tree_regressors l name (output_name s1))) as Hc0.
    { rewrite enumerate_lookup, list_lookup_fmap, lookup_zip_with, Hl; cbn.
      unfold names. by rewrite Hname. }
    destruct (Forall2_lookup_l _ _ _ _ _ Hfixed Hc0) as ([c mu] & Hc & Hstep).
    apply bind_Ok in Hstep as (col & _ & [= <- _]).
    eexists. rewrite list_lookup_fmap, Hc. by split_and!.
Qed.

(** X17.  The list that [plot_model_information] prints as the features
    that were not selected holds the labels of the regressors whose
    [is_selected] flag is set: after a fit a label is in it iff some round
    selected a feature with that label. *)
Theorem non_selected_lists_selected X y validation_set s s'' name :
  fit X y validation_set s = Ok s'' ->
  1 <= n_estimators s ->
  name ∈ non_selected s'' <->
  exists f, f ∈ selection_history_ s'' /\ names s'' !! f = Some name.
Proof.
  intros Hfit HN.
  destruct (fit_learners _ _ _ _ _ Hfit HN) as (Hlen & Hvalid & Hcount).
  unfold non_selected. rewrite list_elem_of_fmap. split.
  - intros (c & -> & [Hsel Hin]%list_elem_of_filter).
    apply list_elem_of_lookup in Hin as [f Hf].
    destruct (proj1 (fit_regressors_lookup _ _ _ _ _ f Hfit) c Hf)
      as (name & Hl & Hname & <-).
    exists f. split; [|done]. apply selections_pos. rewrite <- (Hcount _ _ Hl).
    unfold is_selected in Hsel. destruct (learners c); [done|cbn; lia].
  - intros (f & Hin & Hname).
    rewrite Forall_forall in Hvalid. pose proof (Hvalid f Hin) as Hf.
    destruct (lookup_lt_is_Some_2 (_regressors s'') f) as [l Hl]; [lia|].
    destruct (proj2 (fit_regressors_lookup _ _ _ _ _ f Hfit) l name Hl Hname)
      as (c & Hc & <- & <-).
    exists c. split; [done|]. apply list_elem_of_filter. split.
    + apply selections_pos in Hin. rewrite <- (Hcount _ _ Hl) in Hin.
      unfold is_selected. destruct (learners c); [cbn in Hin; lia|done].
    + by eapply list_elem_of_lookup_2.
Qed.

(** X18.  A fit succeeds only if every feature it selected has a label:
    each selected feature then has its composite regressor in [regressors_],
    under its label, holding all learners of the feature, with the
    [is_selected] flag set; no learner of the model is left out of
    [regressors_]. *)
Theorem selected_features_are_labelled X y validation_set s s'' f :
  fit X y validation_set s = Ok s'' ->
  1 <= n_estimators s ->
  f ∈ selection_history_ s'' ->
  exists name l c,
    names s'' !! f = Some name
    /\ _regressors s'' !! f = Some l
    /\ regressors_ s'' !! f = Some c
    /\ feature_name c = name /\ learners c = l /\ is_selected c = true.
Proof.
  intros Hfit HN Hin.
  destruct (fit_learners _ _ _ _ _ Hfit HN) as (Hlen & Hvalid & Hcount).
  rewrite Forall_forall in Hvalid. pose proof (Hvalid f Hin) as Hf.
  destruct (lookup_lt_is_Some_2 (_regressors s'') f) as [l Hl]; [lia|].
  assert (exists name, names s'' !! f = Some name) as [name Hname].
  { pose proof Hfit as Hinv.
    apply fit_inv in Hinv as (Xt & yt & Xv & yv & s0 & s1 & r & rv & fixed & sn
                              & _ & _ & _ & Hnames & ->).
    unfold names in *. cbn in *. apply mapM_Ok in Hnames.
    apply list_elem_of_lookup in Hin as [t Ht].
    destruct (Forall2_lookup_l _ _ _ _ _ Hnames Ht) as (name & _ & Hname%getitem_Ok).
    eauto. }
  destruct (proj2 (fit_regressors_lookup _ _ _ _ _ f Hfit) l name Hl Hname)
    as (c & Hc & Hlc & Hnc).
  exists name, l, c. split_and!; try done.
  apply selections_pos in Hin. rewrite <- (Hcount _ _ Hl), <- Hlc in Hin.
  unfold is_selected. destruct (learners c); [cbn in Hin; lia|done].
Qed.

End Properties.

(** * The estimator on examples *)

#[local] Existing Instance Example.collaborators.

(** Run a round or a whole [_fit] on a closed example: name the object it
    leaves and read the report off it. *)
Ltac run_call call s' r rv Hcall Hrep :=
  eassert (Example.report call = Some _) as Hrep by (vm_compute; reflexivity);
  destruct call as [[[s' r] rv]|?] eqn:Hcall;
  [cbn [Example.report] in Hrep | discriminate Hrep].

Ltac run_round call s' r rv Hcall Hrep :=
  eassert (Example.learners call = Some _) as Hrep by (vm_compute; reflexivity);
  destruct call as [[[s' r] rv]|?] eqn:Hcall;
  [cbn [Example.learners] in Hrep | discriminate Hrep].

Ltac run_fitted s'' Hfit Hrep :=
  eassert (Example.fitted Example.overfit_fit = Some _) as Hrep
    by (vm_compute; reflexivity);
  unfold Example.overfit_fit in *;
  match type of Hrep with
  | Example.fitted ?call = _ =>
      destruct call as [s''|?] eqn:Hfit;
      [cbn [Example.fitted] in Hrep | discriminate Hrep]
  end.

Ltac run_fit s' r rv Hfit Hrep :=
  match goal with
  | |- context [_fit ?X ?y ?Xv ?yv ?s] =>
      run_call (_fit X y Xv yv s) s' r rv Hfit Hrep
  end.


(** C1 as stated fails.  With [n_iter_no_change = 2], the validation scores
    of rounds [1] and [2], the window of size [2] ending at round [2], do
    not decrease, yet the fit does not stop with [3] rounds: the test made
    after round [2] reads rounds [0] and [1], a fourth round is run and
    recorded, and the fit ends with [n_estimators = 4]. *)
Lemma early_stopping_window_counterexample :
  let s := _initialize_fit_params Example.overfit_X (Array Example.overfit_y)
             (assign Example.overfit_args) in
  let X := values Example.overfit_X in
  exists s' residual residual_valid a b,
    _fit X Example.overfit_y X Example.overfit_y_val s
    = Ok (s', residual, residual_valid)
    /\ n_iter_no_change s = 2
    /\ validation_score s' 1 = Some a /\ validation_score s' 2 = Some b
    /\ (a <= b)%Q
    /\ window_nondecreasing s' (2 + 1 - 2) (2 + 1)
    /\ n_estimators s' = 4
    /\ selection_history_ s' !! 3 = Some 0
    /\ n_estimators s' <> 2 + 1.
Proof.
  cbv zeta. run_fit s' r rv Hfit Hrep.
  injection Hrep as Hn Hk Hsel Hscore.
  exists s', r, rv. eexists _, _. split; [done|].
  assert (no_improvement 3 s' = true) as Hw.
  { unfold no_improvement, last_iterations. rewrite Hk, Hscore. reflexivity. }
  apply no_improvement_window in Hw as [_ Hw]. rewrite Hk in Hw.
  unfold validation_score. rewrite Hscore, Hn, Hsel. split_and!; try reflexivity.
  - unfold Qle; cbn. lia.
  - exact Hw.
  - lia.
Qed.

(** The amended law on the same fit: the test after round [3] reads rounds
    [1] and [2] and stops the fit with four rounds. *)
Lemma early_stopping_law_witness :
  let s := _initialize_fit_params Example.overfit_X (Array Example.overfit_y)
             (assign Example.overfit_args) in
  let X := values Example.overfit_X in
  exists s' residual residual_valid,
    _fit X Example.overfit_y X Example.overfit_y_val s
    = Ok (s', residual, residual_valid)
    /\ n_estimators s' = 3 + 1.
Proof.
  cbv zeta. run_fit s' r rv Hfit Hrep.
  injection Hrep as Hn Hk Hsel Hscore.
  exists s', r, rv. split; [done|].
  assert (forall t, no_improvement t s' =
                    bool_decide (2 <= t)
                    && np.all_ge0 (np.diff (snd <$> np.slice (score_history_ s') (t - 2) t)))
    as Htest by (intros t; unfold no_improvement, last_iterations; by rewrite Hk).
  assert (n_iter_no_change
            (_initialize_fit_params Example.overfit_X (Array Example.overfit_y)
               (assign Example.overfit_args)) = n_iter_no_change s') as Hk0
    by (rewrite Hk; reflexivity).
  refine (proj1 (proj1 (proj1 early_stopping_law _ _ _ _ _ _ _ _ 3 Hfit _ _) _)).
  - vm_compute. lia.
  - intros t' Ht' Hw. rewrite Hk0 in Hw. apply no_improvement_window in Hw.
    rewrite Htest, Hscore in Hw.
    assert (t' = 1 \/ t' = 2) as [-> | ->] by lia; discriminate Hw.
  - rewrite Hk0. apply no_improvement_window. rewrite Htest, Hscore. reflexivity.
Defined.

(** The example objects are what the constructor returns. *)
Lemma example_objects :
  __init__ Example.overfit_args = Ok (assign Example.overfit_args)
  /\ __init__ Example.unsorted_args = Ok (assign Example.unsorted_args).
Proof. split; reflexivity. Qed.

(** C2 as stated fails.  The feature column is [3, 1, 2] with targets
    [30, 10, 20], the draws of the only round are [1/10, 9/10, 9/10] and
    [row_subsample = 1/2]: only draw [0] passes.  The weak learner of the
    fitted model was not trained on row [0] of the data (value [3], residual
    [10]) but on row [1] (value [1], residual [-10]), the first row in
    sorted order, whose own draw [9/10] does not pass. *)
Lemma row_subsampling_counterexample :
  let s := assign Example.unsorted_args in
  exists s'' new_model,
    Example.unsorted_fit = Ok s''
    /\ np.nrows (values Example.unsorted_X) = 3
    /\ (random (_random_generator s) 3).1 = [1 # 10; 9 # 10; 9 # 10]%Q
    /\ row_subsample s = 1 # 2
    /\ Qle_bool (1 # 10) (1 # 2) = true /\ Qle_bool (9 # 10) (1 # 2) = false
    /\ np.column (values Example.unsorted_X) 0 = Ok [3; 1; 2]%Q
    /\ np.sub_scalar Example.unsorted_y (np.mean Example.unsorted_y)
       = [30 - (60 # 3); 10 - (60 # 3); 20 - (60 # 3)]%Q
    /\ _regressors s'' !! 0 = Some [new_model]
    /\ Example.train_x new_model = [1%Q]
    /\ Example.train_y new_model = [(10 - (60 # 3))%Q].
Proof.
  cbv zeta.
  eassert (Example.fitted_learners Example.unsorted_fit = Some _) as Hrep
    by (vm_compute; reflexivity).
  destruct Example.unsorted_fit as [s''|?] eqn:Hfit; [|discriminate Hrep].
  cbn [Example.fitted_learners] in Hrep. injection Hrep as Hreg.
  exists s''. eexists. rewrite Hreg. by split_and!.
Qed.

(** The amended law on the same round. *)
Lemma row_subsampling_witness :
  let s := _initialize_fit_params Example.unsorted_X (Array Example.unsorted_y)
             (assign Example.unsorted_args) in
  let X := values Example.unsorted_X in
  exists s' y' y_val' draws,
    _boost X Example.unsorted_y (np.Scalar 0) 0 X Example.unsorted_y s
    = Ok (s', y', y_val')
    /\ random (_random_generator s) (_m s) = (draws, _random_generator s').
Proof.
  cbv zeta.
  run_round (_boost (values Example.unsorted_X) Example.unsorted_y (np.Scalar 0) 0
               (values Example.unsorted_X) Example.unsorted_y
               (_initialize_fit_params Example.unsorted_X (Array Example.unsorted_y)
                  (assign Example.unsorted_args))) s' r rv Hb Hrep.
  destruct (row_subsampling _ _ _ _ _ _ _ _ _ _ Hb)
    as (f & draws & Xs & ix & Xso & yso & est & _ & Hdraw & _).
  exists s', r, rv, draws. split; [reflexivity | exact Hdraw].
Defined.








(** C6 on the overfitting example: a prediction for its two rows. *)
Lemma predict_length_witness :
  exists s'' v, Example.overfit_fit = Ok s''
    /\ predict Example.overfit_X s'' = Ok (np.Vector v) /\ length v = 2.
Proof.
  run_fitted s'' Hfit Hrep.
  injection Hrep as Hn Hnames Hout Hlen Hfeat Hfitted.
  assert (1 <= n_estimators (assign Example.overfit_args)) as HN by (vm_compute; lia).
  assert (_n s'' <= np.ncols (transform (preprocessor_ s'') Example.overfit_X))
    as Hcols by (rewrite Hfeat; cbn; lia).
  assert (np.nrows (transform (preprocessor_ s'') Example.overfit_X)
          = np.nrows (values Example.overfit_X)) as Hrows by reflexivity.
  pose proof (predict_length _ _ _ _ _ Example.overfit_X Hfit HN Hcols Hrows)
    as (_ & v & Hv & Hlenv).
  exists s'', v. split_and!; [reflexivity | exact Hv | exact Hlenv].
Defined.

(** C9 on the overfitting example: the fitted object passes the guard. *)
Lemma not_fitted_guard_witness :
  exists s'', Example.overfit_fit = Ok s'' /\ _is_fitted s'' = true
    /\ plot_model_information s'' = Ok tt.
Proof.
  run_fitted s'' Hfit Hrep. exists s''. split; [reflexivity|].
  pose proof (proj2 (proj2 (proj2 (proj2 (proj2 (proj2 not_fitted_guard)))))
                _ _ _ _ _ Hfit) as Hfitted.
  split; [done|]. unfold plot_model_information. by rewrite Hfitted.
Defined.

(** C5 on the overfitting example: no contribution frame for its rows. *)
Lemma contribution_frame_raises_witness :
  exists s'' e, Example.overfit_fit = Ok s''
    /\ contribution_frame Example.overfit_X s'' = Raise e.
Proof.
  run_fitted s'' Hfit Hrep.
  assert (feature_names_in_ (assign Example.overfit_args) = None) as Hunset
    by reflexivity.
  assert (well_labelled
            (training_data Example.overfit_X (Array Example.overfit_y)
               (Some (Example.overfit_X, Array Example.overfit_y_val))
               (assign Example.overfit_args))) as Hwf by exact I.
  pose proof (contribution_frame_raises _ _ _ _ _ Example.overfit_X Hfit Hunset Hwf)
    as (e & He & _).
  exists s'', e. split; [reflexivity | exact He].
Defined.

(** * The further properties on examples *)

(** Name the object that a successful example leaves. *)
Ltac run_example call s'' Hfit :=
  let Hrun := fresh "Hrun" in
  assert (Example.succeeded call = true) as Hrun by (vm_compute; reflexivity);
  destruct call as [s''|?] eqn:Hfit; [clear Hrun | discriminate Hrun].


(** X2 on the example with two features, given as a plain array. *)
Lemma fitted_labels_witness :
  exists s'', Example.pair_fit = Ok s''
    /\ feature_names_in_ s'' = Some ["feature_0"; "feature_1"]
    /\ output_name s'' = Some "output".
Proof.
  run_example Example.pair_fit s'' Hfit. unfold Example.pair_fit in Hfit.
  destruct (fitted_labels _ _ _ _ _ Hfit) as (_ & _ & Hnames & Hout).
  exists s''. split_and!; [reflexivity | exact (Hnames eq_refl) | exact (Hout eq_refl)].
Defined.

(** X3 on the overfitting example fitted twice. *)
Lemma refit_keeps_labels_witness :
  exists s1 s2,
    Example.overfit_fit = Ok s1
    /\ fit Example.overfit_X (Array Example.overfit_y)
         (Some (Example.overfit_X, Array Example.overfit_y_val)) s1 = Ok s2
    /\ feature_names_in_ s2 = feature_names_in_ s1
    /\ n_estimators s2 <= n_estimators s1.
Proof.
  assert (Example.succeeded Example.refit = true) as Hrun by (vm_compute; reflexivity).
  unfold Example.refit in Hrun.
  destruct Example.overfit_fit as [s1|?] eqn:Hfit1; [|discriminate Hrun].
  cbn [mbind result_bind] in Hrun.
  destruct (fit Example.overfit_X (Array Example.overfit_y)
              (Some (Example.overfit_X, Array Example.overfit_y_val)) s1)
    as [s2|?] eqn:Hfit2; [|discriminate Hrun].
  unfold Example.overfit_fit in Hfit1.
  destruct (refit_keeps_labels _ _ _ _ _ _ _ _ _ Hfit1 Hfit2)
    as (Hnames & _ & [Hle _] & _).
  exists s1, s2. split_and!; [reflexivity | exact Hfit2 | exact Hnames | exact Hle].
Defined.

(** X4 on a matrix with one column and no row. *)
Lemma fit_needs_rows_witness :
  exists e,
    _fit (np.Matrix 1 []) [] (np.Matrix 1 []) [] (assign Example.overfit_args) = Raise e.
Proof.
  destruct (proj1 fit_needs_rows (np.Matrix 1 []) [] (np.Matrix 1 []) []
              (assign Example.overfit_args) eq_refl) as (e & He & _).
  by exists e.
Defined.

(** X5 on the overfitting example: five rounds configured, a window of two,
    four rounds run. *)
Lemma rounds_run_bounds_witness :
  exists s'', Example.overfit_fit = Ok s''
    /\ 3 <= n_estimators s'' /\ n_estimators s'' <= 5
    /\ length (selection_history_ s'') = n_estimators s''.
Proof.
  run_example Example.overfit_fit s'' Hfit. unfold Example.overfit_fit in Hfit.
  assert (1 <= n_estimators (assign Example.overfit_args)) as HN by (vm_compute; lia).
  destruct (rounds_run_bounds _ _ _ _ _ Hfit HN) as (Hlo & Hhi & Hlen & _).
  exists s''. split_and!; [reflexivity | exact Hlo | exact Hhi | exact Hlen].
Defined.


(** X7 on the example with two features. *)
Lemma learners_match_selections_witness :
  exists s'', Example.pair_fit = Ok s''
    /\ sum_list (length <$> _regressors s'') = n_estimators s''.
Proof.
  run_example Example.pair_fit s'' Hfit. unfold Example.pair_fit in Hfit.
  assert (1 <= n_estimators (assign Example.pair_args)) as HN by (vm_compute; lia).
  destruct (learners_match_selections _ _ _ _ _ Hfit HN) as (_ & _ & Htotal).
  exists s''. split; [reflexivity | exact Htotal].
Defined.

(** X8 on the example with two features: the cell of features [0] and [1]. *)
Lemma count_matrix_closed_form_witness :
  exists s'', Example.pair_fit = Ok s''
    /\ (np.entry (_selected_count_matrix s'') 0 1
        == inject_Z (Z.of_nat (selections (selection_history_ s'') 0
                               + selections (selection_history_ s'') 1)))%Q.
Proof.
  run_example Example.pair_fit s'' Hfit. unfold Example.pair_fit in Hfit.
  assert (1 <= n_estimators (assign Example.pair_args)) as HN by (vm_compute; lia).
  destruct (fit_shape _ _ _ _ _ Hfit) as [Hn _].
  assert (0 < _n s'') as H0 by (rewrite Hn; vm_compute; lia).
  assert (1 < _n s'') as H1 by (rewrite Hn; vm_compute; lia).
  assert (0 <> 1) as Hne by lia.
  exists s''. split; [reflexivity|].
  exact (count_matrix_closed_form _ _ _ _ _ 0 1 Hfit HN H0 H1 Hne).
Defined.



(** X11 on the unsorted example: the second request is answered from the
    cache, here for a matrix without rows. *)
Lemma get_index_cached_witness :
  exists index s',
    Example.unsorted_index = Ok (index, s')
    /\ _get_index (np.Matrix 1 []) 0 s' = Ok (index, s').
Proof.
  assert (Example.succeeded Example.unsorted_index = true) as Hrun
    by (vm_compute; reflexivity).
  destruct Example.unsorted_index as [[index s']|?] eqn:Hg; [|discriminate Hrun].
  unfold Example.unsorted_index in Hg.
  destruct (get_index_cached _ (np.Matrix 1 []) _ _ _ _ Hg) as (Hagain & _).
  exists index, s'. split; [reflexivity | exact Hagain].
Defined.

(** X12 on the unsorted example. *)
Lemma index_cache_sorts_witness :
  exists s'', Example.unsorted_fit = Ok s''
    /\ length (_indexing_cache s'') = _n s''.
Proof.
  run_example Example.unsorted_fit s'' Hfit. unfold Example.unsorted_fit in Hfit.
  assert (1 <= n_estimators (assign Example.unsorted_args)) as HN by (vm_compute; lia).
  destruct (index_cache_sorts _ _ _ _ _ Hfit HN)
    as (Xt & yt & Xv & yv & s0 & _ & Hlen & _).
  exists s''. split; [reflexivity | exact Hlen].
Defined.

(** X13 on the example with two features. *)
Lemma selection_count_law_witness :
  exists s'', Example.pair_fit = Ok s''
    /\ NoDup (selection_count_ s'').*1
    /\ sum_list (selection_count_ s'').*2 = n_estimators s''.
Proof.
  run_example Example.pair_fit s'' Hfit. unfold Example.pair_fit in Hfit.
  assert (1 <= n_estimators (assign Example.pair_args)) as HN by (vm_compute; lia).
  destruct (selection_count_law _ _ _ _ _ Hfit HN) as (Hnd & Hsum & _).
  exists s''. split_and!; [reflexivity | exact Hnd | exact Hsum].
Defined.

(** X14 on the overfitting example: the fit stops with four rounds, and the
    fifth score record is still the one the object was constructed with. *)
Lemma score_history_tail_witness :
  exists s'', Example.overfit_fit = Ok s''
    /\ length (score_history_ s'') = 5
    /\ score_history_ s'' !! 4
       = prod_map sqrt sqrt <$> score_history_ (assign Example.overfit_args) !! 4.
Proof.
  run_fitted s'' Hfit Hrep.
  injection Hrep as Hn Hnames Hout Hlen Hfeat Hfitted.
  assert (1 <= n_estimators (assign Example.overfit_args)) as HN by (vm_compute; lia).
  assert (n_estimators s'' <= 4) as Hi by (rewrite Hn; lia).
  destruct (score_history_tail _ _ _ _ _ 4 Hfit HN Hi) as [_ Htail].
  exists s''. split_and!; [reflexivity | exact Hlen | exact Htail].
Defined.

(** X15 on the overfitting example. *)
Lemma predict_reads_selected_columns_witness :
  exists s'', Example.overfit_fit = Ok s''
    /\ forall e, predict Example.overfit_X s'' = Raise e -> e = IndexError.
Proof.
  run_example Example.overfit_fit s'' Hfit. unfold Example.overfit_fit in Hfit.
  pose proof (fit_is_fitted _ _ _ _ _ Hfit) as Hfitted.
  destruct (predict_reads_selected_columns Example.overfit_X s'' Hfitted) as [Honly _].
  exists s''. split; [reflexivity | exact Honly].
Defined.

(** X16 on the overfitting example: the array for its own rows. *)
Lemma contribution_array_decomposition_witness :
  exists s'' M a, Example.overfit_fit = Ok s''
    /\ contribution_array Example.overfit_X s'' = Ok M
    /\ predict Example.overfit_X s'' = Ok a.
Proof.
  assert (Example.succeeded Example.overfit_contribution = true) as Hrun
    by (vm_compute; reflexivity).
  unfold Example.overfit_contribution in Hrun.
  destruct Example.overfit_fit as [s''|?] eqn:Hfit; [|discriminate Hrun].
  cbn [mbind result_bind] in Hrun.
  destruct (contribution_array Example.overfit_X s'') as [M|?] eqn:HM;
    [|discriminate Hrun].
  unfold Example.overfit_fit in Hfit.
  pose proof (fit_is_fitted _ _ _ _ _ Hfit) as Hfitted.
  destruct (contribution_array_decomposition _ _ _ Hfitted HM) as (a & Ha & _).
  exists s'', M, a. split_and!; [reflexivity | exact HM | exact Ha].
Defined.

(** X17 on the example with two features: both were selected, and both are
    in the list printed as not selected. *)
Lemma non_selected_lists_selected_witness :
  exists s'', Example.pair_fit = Ok s''
    /\ "feature_0" ∈ non_selected s'' /\ "feature_1" ∈ non_selected s''.
Proof.
  assert (Example.succeeded
            (s ← Example.pair_fit;
             if bool_decide (selection_history_ s = [0; 1; 0]
                             /\ names s = ["feature_0"; "feature_1"])
             then Ok s else Raise ValueError) = true) as Hrun
    by (vm_compute; reflexivity).
  destruct Example.pair_fit as [s''|?] eqn:Hfit; [|discriminate Hrun].
  cbn [mbind result_bind] in Hrun.
  case_bool_decide as Hrep; [|discriminate Hrun]. destruct Hrep as [Hhist Hnames].
  unfold Example.pair_fit in Hfit.
  assert (1 <= n_estimators (assign Example.pair_args)) as HN by (vm_compute; lia).
  exists s''. split; [reflexivity|]. split.
  - apply (non_selected_lists_selected _ _ _ _ _ "feature_0" Hfit HN).
    exists 0. rewrite Hhist, Hnames. split; [by left | reflexivity].
  - apply (non_selected_lists_selected _ _ _ _ _ "feature_1" Hfit HN).
    exists 1. rewrite Hhist, Hnames. split; [by right; left | reflexivity].
Defined.

(** X18 on the example with two features: the feature of round [1]. *)
Lemma selected_features_are_labelled_witness :
  exists s'' c, Example.pair_fit = Ok s''
    /\ regressors_ s'' !! 1 = Some c /\ is_selected c = true.
Proof.
  assert (Example.succeeded
            (s ← Example.pair_fit;
             if bool_decide (selection_history_ s = [0; 1; 0])
             then Ok s else Raise ValueError) = true) as Hrun
    by (vm_compute; reflexivity).
  destruct Example.pair_fit as [s''|?] eqn:Hfit; [|discriminate Hrun].
  cbn [mbind result_bind] in Hrun.
  case_bool_decide as Hhist; [|discriminate Hrun].
  unfold Example.pair_fit in Hfit.
  assert (1 <= n_estimators (assign Example.pair_args)) as HN by (vm_compute; lia).
  assert (1 ∈ selection_history_ s'') as Hin by (rewrite Hhist; by right; left).
  destruct (selected_features_are_labelled _ _ _ _ _ 1 Hfit HN Hin)
    as (name & l & c & _ & _ & Hc & _ & _ & Hsel).
  exists s'', c. split_and!; [reflexivity | exact Hc | exact Hsel].
Defined.
